(** * Media timing introspection: [sticker_convert/utils/media/codec_info.py]

    A shallow embedding of the timing part of [CodecInfo] and of the
    rational duration helpers it is built on, followed by the properties
    the specification states about them.

    Conventions of the embedding.
    - A Python [int] is a [Z]; a Python [float] is a primitive binary64
      [float], the same format CPython uses; a [fractions.Fraction] is a
      record of two integers kept in lowest terms by its constructor; a
      [str] is the [string] of its UTF-8 bytes.
    - A call that can raise returns a [result]: [Ok v] or [Raise e].
    - The decoding libraries (Pillow, PyAV, rlottie) are collaborators: a
      file is modelled by what each of them reports when it opens it. *)

From Stdlib Require Import ZArith List String Ascii Bool Lia.
From Stdlib Require Import Permutation Floats DecimalString.
From Stdlib Require Import Strings.Byte.
Import ListNotations.

Local Open Scope Z_scope.

Set Warnings "-inexact-float".

(** ** Exceptions and fallible results *)

Inductive exn : Type :=
| ZeroDivisionError
| IndexError
| ValueError
| OverflowError
| InvalidOperation      (* decimal.InvalidOperation *)
| TypeError
| UnidentifiedImageError  (* PIL.UnidentifiedImageError *)
| InvalidDataError        (* av.error.InvalidDataError *)
| OSError.                (* any other failure to open or read a file *)

Inductive result (A : Type) : Type :=
| Ok (a : A)
| Raise (e : exn).

Arguments Ok {A} a.
Arguments Raise {A} e.

Definition bind {A B : Type} (r : result A) (k : A -> result B) : result B :=
  match r with
  | Ok a => k a
  | Raise e => Raise e
  end.

Notation "x <- r ;; k" := (bind r (fun x => k))
  (at level 61, r at next level, right associativity).
Notation "' pat <- r ;; k" := (bind r (fun x => let pat := x in k))
  (at level 61, pat pattern, r at next level, right associativity).

(** [for x in xs: ys.append(f(x))], stopping at the first exception. *)
Fixpoint mapM {A B : Type} (f : A -> result B) (xs : list A) : result (list B) :=
  match xs with
  | [] => Ok []
  | x :: rest =>
      y <- f x ;;
      ys <- mapM f rest ;;
      Ok (y :: ys)
  end.

(** ** [fractions.Fraction] *)

Record Fraction : Type := mkFraction { numerator : Z; denominator : Z }.

(** [Fraction(n, d)] for two ints: refuses a zero denominator, divides both
    by their gcd and makes the denominator positive. *)
Definition Fraction_new (n d : Z) : result Fraction :=
  if d =? 0 then Raise ZeroDivisionError
  else
    let g := Z.gcd n d in
    let g := if d <? 0 then - g else g in
    Ok (mkFraction (n / g) (d / g)).

(** The invariant every [Fraction] object satisfies. *)
Definition lowest_terms (x : Fraction) : Prop :=
  0 < denominator x /\ Z.gcd (numerator x) (denominator x) = 1.

Definition Fraction_of_int (z : Z) : Fraction := mkFraction z 1.

(** ** The helpers of [codec_info.py] *)

(** [def lcm(a, b): return abs(a * b) // gcd(a, b)] *)
Definition lcm (a b : Z) : result Z :=
  if Z.gcd a b =? 0 then Raise ZeroDivisionError
  else Ok (Z.abs (a * b) / Z.gcd a b).

Definition fraction_gcd (x y : Fraction) : result Fraction :=
  let a := numerator x in
  let b := denominator x in
  let c := numerator y in
  let d := denominator y in
  l <- lcm b d ;;
  Fraction_new (Z.gcd a c) l.

(** The loop of [fractions_gcd]: [for fraction in fractions_list]. *)
Fixpoint fractions_gcd_loop (gcd : Fraction) (fractions_list : list Fraction)
  : result Fraction :=
  match fractions_list with
  | [] => Ok gcd
  | fraction :: rest =>
      gcd' <- fraction_gcd gcd fraction ;;
      fractions_gcd_loop gcd' rest
  end.

(** [fractions_list.pop(0)] raises [IndexError] on an empty list. *)
Definition fractions_gcd (fractions : list Fraction) : result Fraction :=
  match fractions with
  | [] => Raise IndexError
  | gcd :: fractions_list => fractions_gcd_loop gcd fractions_list
  end.

(** ** Python numbers

    The values the timing code computes with: [int], [float] and
    [Fraction]. *)

Inductive pyval : Type :=
| PInt (z : Z)
| PFloat (f : float)
| PFrac (q : Fraction).

Definition isinstance_int (v : pyval) : bool :=
  match v with PInt _ => true | _ => false end.

Definition isinstance_float (v : pyval) : bool :=
  match v with PFloat _ => true | _ => false end.

(** *** Exact views of a binary64 value *)

(** The float nearest to [m * 2^e] (ties to even); infinite on overflow. *)
Definition float_of_scaled (m e : Z) : float :=
  SF2Prim (binary_normalize prec emax m e false).

(** [float(z)]: correctly rounded, [OverflowError] when out of range. *)
Definition float_of_int (z : Z) : result float :=
  let f := float_of_scaled z 0 in
  if is_infinity f then Raise OverflowError else Ok f.

(** [n / d] for two ints ([int.__truediv__]): the exact quotient rounded
    once.  The quotient is computed to more than 64 bits and a sticky bit
    records a non-zero remainder, so the final rounding is the correct one. *)
Definition int_truediv (n d : Z) : result float :=
  if d =? 0 then Raise ZeroDivisionError
  else
    let s := 64 + Z.log2 (Z.abs d) in
    let q := (Z.abs n * 2 ^ s) / Z.abs d in
    let r := (Z.abs n * 2 ^ s) mod Z.abs d in
    let m := 2 * q + (if r =? 0 then 0 else 1) in
    let neg := xorb (n <? 0) (d <? 0) in
    let f := SF2Prim (binary_normalize prec emax (if neg then - m else m) (- s - 1) neg) in
    if is_infinity f then Raise OverflowError else Ok f.

(** [float(q)] for a [Fraction]: [q.numerator / q.denominator]. *)
Definition float_of_Fraction (q : Fraction) : result float :=
  int_truediv (numerator q) (denominator q).

(** The exact value of a finite float as a quotient [(n, d)] with [d > 0]. *)
Definition exact_of_float (f : float) : option (Z * Z) :=
  match Prim2SF f with
  | S754_zero _ => Some (0, 1)
  | S754_finite s m e =>
      let v := if s then Zneg m else Zpos m in
      if 0 <=? e then Some (v * 2 ^ e, 1) else Some (v, 2 ^ (- e))
  | S754_infinity _ | S754_nan => None
  end.

(** The exact value of an [int] or a [Fraction] (a float never reaches
    this function: the callers treat floats first). *)
Definition exact_of_rational (v : pyval) : Z * Z :=
  match v with
  | PInt z => (z, 1)
  | PFrac q => (numerator q, denominator q)
  | PFloat _ => (0, 1)
  end.

(** [a == b].  Two floats compare as IEEE values; an [int] or [Fraction]
    against a float compares the exact values, never a rounded one. *)
Definition py_eqb (a b : pyval) : bool :=
  match a, b with
  | PFloat x, PFloat y => PrimFloat.eqb x y
  | PFloat x, _ =>
      match exact_of_float x with
      | Some (n, d) => let '(n', d') := exact_of_rational b in n * d' =? n' * d
      | None => false
      end
  | _, PFloat y =>
      match exact_of_float y with
      | Some (n, d) => let '(n', d') := exact_of_rational a in n' * d =? n * d'
      | None => false
      end
  | _, _ =>
      let '(n, d) := exact_of_rational a in
      let '(n', d') := exact_of_rational b in
      n * d' =? n' * d
  end.

(** [a < b], with the same exactness. *)
Definition py_ltb (a b : pyval) : bool :=
  match a, b with
  | PFloat x, PFloat y => PrimFloat.ltb x y
  | PFloat x, _ =>
      match Prim2SF x with
      | S754_nan => false
      | S754_infinity s => s
      | _ =>
          match exact_of_float x with
          | Some (n, d) => let '(n', d') := exact_of_rational b in n * d' <? n' * d
          | None => false
          end
      end
  | _, PFloat y =>
      match Prim2SF y with
      | S754_nan => false
      | S754_infinity s => negb s
      | _ =>
          match exact_of_float y with
          | Some (n, d) => let '(n', d') := exact_of_rational a in n' * d <? n * d'
          | None => false
          end
      end
  | _, _ =>
      let '(n, d) := exact_of_rational a in
      let '(n', d') := exact_of_rational b in
      n * d' <? n' * d
  end.

(** [bool(v)]: a number is true unless it is zero (a NaN is true). *)
Definition truth (v : pyval) : bool :=
  match v with
  | PInt z => negb (z =? 0)
  | PFloat f => negb (is_zero f)
  | PFrac q => negb (numerator q =? 0)
  end.

(** [float(v)]. *)
Definition py_float (v : pyval) : result float :=
  match v with
  | PInt z => float_of_int z
  | PFloat f => Ok f
  | PFrac q => float_of_Fraction q
  end.

(** Float division raises on a zero divisor instead of returning an
    infinity or a NaN. *)
Definition float_truediv (x y : float) : result float :=
  if is_zero y then Raise ZeroDivisionError else Ok (PrimFloat.div x y).

(** [a / b]: a float as soon as one operand is a float or both are ints,
    a [Fraction] otherwise. *)
Definition py_truediv (a b : pyval) : result pyval :=
  match a, b with
  | PInt x, PInt y => f <- int_truediv x y ;; Ok (PFloat f)
  | PFloat _, _ | _, PFloat _ =>
      x <- py_float a ;;
      y <- py_float b ;;
      f <- float_truediv x y ;;
      Ok (PFloat f)
  | _, _ =>
      let '(n, d) := exact_of_rational a in
      let '(n', d') := exact_of_rational b in
      q <- Fraction_new (n * d') (d * n') ;;
      Ok (PFrac q)
  end.

(** [a * b]. *)
Definition py_mul (a b : pyval) : result pyval :=
  match a, b with
  | PInt x, PInt y => Ok (PInt (x * y))
  | PFloat _, _ | _, PFloat _ =>
      x <- py_float a ;;
      y <- py_float b ;;
      Ok (PFloat (PrimFloat.mul x y))
  | _, _ =>
      let '(n, d) := exact_of_rational a in
      let '(n', d') := exact_of_rational b in
      q <- Fraction_new (n * n') (d * d') ;;
      Ok (PFrac q)
  end.

(** [a + b]. *)
Definition py_add (a b : pyval) : result pyval :=
  match a, b with
  | PInt x, PInt y => Ok (PInt (x + y))
  | PFloat _, _ | _, PFloat _ =>
      x <- py_float a ;;
      y <- py_float b ;;
      Ok (PFloat (PrimFloat.add x y))
  | _, _ =>
      let '(n, d) := exact_of_rational a in
      let '(n', d') := exact_of_rational b in
      q <- Fraction_new (n * d' + n' * d) (d * d') ;;
      Ok (PFrac q)
  end.

(** [min(args)]: the first smallest argument; [ValueError] for none. *)
Definition py_min (args : list pyval) : result pyval :=
  match args with
  | [] => Raise ValueError
  | x :: rest => Ok (fold_left (fun m y => if py_ltb y m then y else m) rest x)
  end.

(** [x in xs], by [==].  (Python first accepts an identical object; that
    differs from [==] only for a NaN.) *)
Definition py_in (x : pyval) (xs : list pyval) : bool :=
  existsb (fun y => py_eqb x y) xs.

(** *** [decimal.Decimal] as far as [rounding] needs it

    [Decimal(value).quantize(0, ROUND_HALF_UP)] is an integer-valued decimal
    or, for a NaN, the decimal NaN. *)

Inductive Decimal : Type :=
| DecInteger (z : Z)
| DecNaN.

(** Half-up is half away from zero; [m * 2^e] with [m > 0]. *)
Definition round_half_up_scaled (m : positive) (e : Z) : Z :=
  if 0 <=? e then Zpos m * 2 ^ e
  else
    let d := 2 ^ (- e) in
    let q := Zpos m / d in
    let r := Zpos m mod d in
    if d <=? 2 * r then q + 1 else q.

(** The default context keeps 28 digits: a longer result is refused. *)
Definition quantize_check (z : Z) : result Decimal :=
  if Z.abs z <? 10 ^ 28 then Ok (DecInteger z) else Raise InvalidOperation.

(** [int(d)] for a [Decimal]. *)
Definition int_of_Decimal (d : Decimal) : result Z :=
  match d with
  | DecInteger z => Ok z
  | DecNaN => Raise ValueError
  end.

(** *** [str] of a number *)

Definition str_int (z : Z) : string :=
  match z with
  | Z0 => "0"
  | Zpos p => NilEmpty.string_of_uint (Pos.to_uint p)
  | Zneg p => String "-" (NilEmpty.string_of_uint (Pos.to_uint p))
  end.

Fixpoint zeros (n : nat) : string :=
  match n with
  | O => EmptyString
  | S k => String "0" (zeros k)
  end.

(** [x * 10^k <= y * 10^j], for non-negative [x], [y] and any [k], [j]. *)
Definition pow10_scaled_leb (x k y j : Z) : bool :=
  let lo := Z.min k j in
  x * 10 ^ (k - lo) <=? y * 10 ^ (j - lo).

(** The decimal point of [num / den]: the [K] with [10^(K-1) <= num/den < 10^K].
    The estimate from the binary logarithms is off by at most one. *)
Definition decimal_point (num den : Z) : Z :=
  let k0 := ((Z.log2 num - Z.log2 den) * 30103) / 100000 in
  let fix adjust (fuel : nat) (k : Z) : Z :=
    match fuel with
    | O => k
    | S fuel' =>
        if pow10_scaled_leb den k num 0 then adjust fuel' (k + 1)
        else if pow10_scaled_leb den (k - 1) num 0 then k
        else adjust fuel' (k - 1)
    end in
  adjust 4%nat k0.

(** The shortest decimal that reads back as the float [m * 2^e]: the
    digits as an integer [c] and the exponent [p] of its last digit, so the
    decimal is [c * 10^p].  For each length [n] from 1 to 17 the two
    [n]-digit neighbours of the value are tried against the rounding
    interval of the float (closed when [m] is even); of two that fit, the
    nearer one is taken. *)
Definition shortest_decimal (m : positive) (e : Z) : Z * Z :=
  let k := Z.max 0 (2 - e) in
  let den := 2 ^ k in
  let x := Zpos m * 2 ^ (e + k) in
  let up := 2 ^ (e + k - 1) in
  let down := if (Zpos m =? 2 ^ 52) && (-1074 <? e) then 2 ^ (e + k - 2) else up in
  let lo := x - down in
  let hi := x + up in
  let closed := Z.even (Zpos m) in
  let K := decimal_point x den in
  (* is c * 10^p inside the interval? *)
  let inside (c p : Z) : bool :=
    if closed
    then pow10_scaled_leb lo 0 (c * den) p && pow10_scaled_leb (c * den) p hi 0
    else negb (pow10_scaled_leb (c * den) p lo 0) && negb (pow10_scaled_leb hi 0 (c * den) p) in
  let fix search (fuel : nat) (n : Z) : Z * Z :=
    let p := K - n in
    (* floor (x / (den * 10^p)) *)
    let c := if 0 <=? p then x / (den * 10 ^ p) else (x * 10 ^ (- p)) / den in
    (* twice the distance to x, in units of 10^p / den *)
    let below := pow10_scaled_leb (2 * x) 0 ((2 * c + 1) * den) p in
    let strictly_below := negb (pow10_scaled_leb ((2 * c + 1) * den) p (2 * x) 0) in
    match fuel with
    | O => (c, p)
    | S fuel' =>
        match inside c p, inside (c + 1) p with
        | true, false => (c, p)
        | false, true => (c + 1, p)
        | true, true =>
            if strictly_below then (c, p)
            else if below then (if Z.even c then (c, p) else (c + 1, p))
            else (c + 1, p)
        | false, false => search fuel' (n + 1)
        end
    end in
  search 17%nat 1.

(** Drop the trailing zeros of the digits [c], raising the exponent. *)
Fixpoint strip_zeros (fuel : nat) (c p : Z) : Z * Z :=
  match fuel with
  | O => (c, p)
  | S fuel' => if (c mod 10 =? 0) && negb (c =? 0) then strip_zeros fuel' (c / 10) (p + 1) else (c, p)
  end.

(** [repr] of a positive finite float from its shortest digits: positional
    notation unless the decimal point falls before [-3] or after [16]. *)
Definition format_repr (c p : Z) : string :=
  let digits := str_int c in
  let n := Z.of_nat (String.length digits) in
  let decpt := n + p in
  if (decpt <=? -4) || (16 <? decpt) then
    let ex := decpt - 1 in
    let mant :=
      match digits with
      | String d EmptyString => String d EmptyString
      | String d rest => String d (String "." rest)
      | EmptyString => EmptyString
      end in
    let exs := str_int (Z.abs ex) in
    let exs := if Z.abs ex <? 10 then String "0" exs else exs in
    mant ++ "e" ++ (if ex <? 0 then "-" else "+") ++ exs
  else if decpt <=? 0 then
    "0." ++ zeros (Z.to_nat (- decpt)) ++ digits
  else if decpt <? n then
    substring 0 (Z.to_nat decpt) digits ++ "." ++
    substring (Z.to_nat decpt) (Z.to_nat (n - decpt)) digits
  else
    digits ++ zeros (Z.to_nat (decpt - n)) ++ ".0".

(** [str(f)] for a float: CPython's shortest round-trip [repr]. *)
Definition str_float (f : float) : string :=
  match Prim2SF f with
  | S754_nan => "nan"
  | S754_infinity s => if s then "-inf" else "inf"
  | S754_zero s => if s then "-0.0" else "0.0"
  | S754_finite s m e =>
      let '(c, p) := shortest_decimal m e in
      let '(c, p) := strip_zeros 20%nat c p in
      (if s then "-" else "") ++ format_repr c p
  end.

Definition str_Fraction (q : Fraction) : string :=
  if denominator q =? 1 then str_int (numerator q)
  else str_int (numerator q) ++ "/" ++ str_int (denominator q).

Definition str (v : pyval) : string :=
  match v with
  | PInt z => str_int z
  | PFloat f => str_float f
  | PFrac q => str_Fraction q
  end.

(** *** String methods *)

(** [s.split(".")]. *)
Fixpoint split_dot_aux (s : string) (cur : string) : list string :=
  match s with
  | EmptyString => [cur]
  | String c rest =>
      if Ascii.eqb c "." then cur :: split_dot_aux rest EmptyString
      else split_dot_aux rest (cur ++ String c EmptyString)
  end.

Definition split_dot (s : string) : list string := split_dot_aux s EmptyString.

(** [xs[i]] for [i >= 0]. *)
Definition getitem {A : Type} (xs : list A) (i : nat) : result A :=
  match nth_error xs i with
  | Some x => Ok x
  | None => Raise IndexError
  end.

(** [s.ljust(width, "0")]. *)
Definition ljust0 (width : nat) (s : string) : string :=
  s ++ zeros (width - String.length s).

(** ** The duration helpers *)

(** [def rounding(value): return Decimal(value).quantize(0, ROUND_HALF_UP)] *)
Definition rounding (value : pyval) : result Decimal :=
  match value with
  | PInt z => quantize_check z
  | PFloat f =>
      match Prim2SF f with
      | S754_nan => Ok DecNaN
      | S754_infinity _ => Raise InvalidOperation
      | S754_zero _ => Ok (DecInteger 0)
      | S754_finite s m e =>
          let r := round_half_up_scaled m e in
          quantize_check (if s then - r else r)
      end
  | PFrac _ => Raise TypeError
  end.

(** [int(rounding(value))] *)
Definition int_rounding (value : pyval) : result Z :=
  d <- rounding value ;; int_of_Decimal d.

(** [def get_five_dec_place(value):
       return str(value).split(".")[1][:5].ljust(5, "0")] *)
Definition get_five_dec_place (value : pyval) : result string :=
  frac <- getitem (split_dot (str value)) 1 ;;
  Ok (ljust0 5 (substring 0 5 frac)).

Definition likely_int (value : pyval) : result bool :=
  if isinstance_int value then Ok true
  else
    five <- get_five_dec_place value ;;
    Ok (if String.eqb five "99999" || String.eqb five "00000" then true else false).

(** [int(f)] for a float: truncation toward zero. *)
Definition int_of_float (f : float) : result Z :=
  match Prim2SF f with
  | S754_nan => Raise ValueError
  | S754_infinity _ => Raise OverflowError
  | S754_zero _ => Ok 0
  | S754_finite s m e =>
      let t := if 0 <=? e then Zpos m * 2 ^ e else Zpos m / 2 ^ (- e) in
      Ok (if s then - t else t)
  end.

(** [int(v)]. *)
Definition py_int (v : pyval) : result Z :=
  match v with
  | PInt z => Ok z
  | PFloat f => int_of_float f
  | PFrac q => Ok (Z.quot (numerator q) (denominator q))
  end.

Definition as_int (v : pyval) : result Z :=
  match v with
  | PInt z => Ok z
  | _ => Raise TypeError
  end.

Definition gcd_of (zs : list Z) : Z := fold_right Z.gcd 0 zs.

(** [gcd] applied to the unpacked [durations]: every argument must be an
    [int]. *)
Definition gcd_star (args : list pyval) : result Z :=
  zs <- mapM as_int args ;; Ok (gcd_of zs).

(** [any(i for i in durations if isinstance(i, float))]: the generator
    yields the floats themselves, so [any] looks for a non-zero float. *)
Definition any_float (durations : list pyval) : bool :=
  existsb (fun i => isinstance_float i && truth i) durations.

(** [all(i for i in durations if likely_int(i))]: the generator yields the
    samples that pass [likely_int], and [all] tests the truth of each
    yielded sample, stopping at the first zero. *)
Fixpoint all_where_likely_int (durations : list pyval) : result bool :=
  match durations with
  | [] => Ok true
  | i :: rest =>
      keep <- likely_int i ;;
      if keep then (if truth i then all_where_likely_int rest else Ok false)
      else all_where_likely_int rest
  end.

(** [all(likely_int(i * x) for i in durations)], stopping at the first
    sample that fails. *)
Fixpoint all_likely_int_times (x : Z) (durations : list pyval) : result bool :=
  match durations with
  | [] => Ok true
  | i :: rest =>
      ix <- py_mul i (PInt x) ;;
      b <- likely_int ix ;;
      if b then all_likely_int_times x rest else Ok false
  end.

(** [Fraction(g, x)] with [g] the [gcd] of [int(rounding(i * x))] over all
    [i] in [durations]. *)
Definition gcd_over (x : Z) (durations : list pyval) : result pyval :=
  zs <- mapM (fun i => ix <- py_mul i (PInt x) ;; int_rounding ix) durations ;;
  q <- Fraction_new (gcd_of zs) x ;;
  Ok (PFrac q).

(** [for x in (3, 6, 7, 9, 11, 13): ... else: return min(durations)] *)
Fixpoint probe_denominators (xs : list Z) (durations : list pyval) : result pyval :=
  match xs with
  | [] => py_min durations
  | x :: xs' =>
      fits <- all_likely_int_times x durations ;;
      if fits then gcd_over x durations
      else probe_denominators xs' durations
  end.

Definition denominators : list Z := [3; 6; 7; 9; 11; 13].

Definition durations_gcd (durations : list pyval) : result pyval :=
  if any_float durations then
    integral <- all_where_likely_int durations ;;
    if integral then
      zs <- mapM int_rounding durations ;;
      q <- Fraction_new (gcd_of zs) 1 ;;
      Ok (PFrac q)
    else probe_denominators denominators durations
  else
    g <- gcd_star durations ;;
    q <- Fraction_new g 1 ;;
    Ok (PFrac q).

(** ** The files, as the collaborating libraries see them *)

(** rlottie's [LottieAnimation]: the frame rate is a C double, so a Python
    [float]; the frame count and the size are ints. *)
Record LottieAnimation : Type := {
  lottie_animation_get_framerate : float;
  lottie_animation_get_totalframe : Z;
  lottie_animation_get_size : Z * Z
}.

(** A Pillow image.  [n_frames_attr] says whether ["n_frames" in dir(im)];
    [frame_info] holds, for each frame [i], what [im.info.get("duration")]
    finds after [im.seek(i)] ([None] when the key is absent), so
    [im.n_frames] is its length. *)
Record Image : Type := {
  n_frames_attr : bool;
  frame_info : list (option pyval);
  format : option string;
  is_animated_attr : option bool;
  im_width : Z;
  im_height : Z
}.

Definition n_frames (im : Image) : Z := Z.of_nat (List.length (frame_info im)).

(** A decoded PyAV frame: [pts] may be [None]. *)
Record VideoFrame : Type := {
  pts : option Z;
  time_base : Fraction
}.

(** A PyAV video stream: [stream_frames] is the frame count of the
    metadata, [decoded] what [container.decode(stream)] yields. *)
Record VideoStream : Type := {
  stream_frames : Z;
  decoded : list VideoFrame;
  codec_name : string;
  stream_width : Z;
  stream_height : Z
}.

(** A PyAV container: [container_duration] is in microseconds, [None] when
    the metadata has none. *)
Record InputContainer : Type := {
  container_duration : option Z;
  streams_video : list VideoStream
}.

(** A file on disk ([file: Path]): its suffix, its bytes, and the outcome
    of opening it with each library.  The other form of the argument, a
    [bytes] buffer, is not modelled. *)
Record File : Type := {
  suffix : string;
  content : list byte;
  from_tgs : result LottieAnimation;
  Image_open : result Image;
  av_open : result InputContainer
}.

(** ** [str.lower]

    A [str] is held as the bytes of its UTF-8 encoding; a byte that is
    not part of a well-formed sequence stands for itself, which is how a
    path with an undecodable name reaches Python (the [surrogateescape]
    error handler).  [str.lower] maps each code point by the lowercase
    mapping of the Unicode character database, with its two special
    cases: U+0130 becomes two code points, and the capital sigma U+03A3
    becomes a final sigma U+03C2 or a small sigma U+03C3 by its context.
    The tables are those of Unicode 14.0.0, the version of CPython 3.11. *)

(** The bytes of a string, as numbers, and back. *)
Definition codes (s : string) : list Z :=
  map (fun a => Z.of_N (N_of_ascii a)) (list_ascii_of_string s).

Definition chars (bs : list Z) : string :=
  string_of_list_ascii (map (fun b => ascii_of_N (Z.to_N b)) bs).

(** A continuation byte. *)
Definition cont (b : Z) : bool := (0x80 <=? b) && (b <=? 0xBF).

(** The well-formed UTF-8 sequence at the head of the bytes, if there is
    one: its code point and the bytes after it.  Overlong forms, encoded
    surrogates and code points above U+10FFFF are not well formed. *)
Definition utf8_head (bs : list Z) : option (Z * list Z) :=
  match bs with
  | [] => None
  | b0 :: r0 =>
      if b0 <? 0x80 then Some (b0, r0)
      else if (0xC2 <=? b0) && (b0 <=? 0xDF) then
        match r0 with
        | b1 :: r1 =>
            if cont b1 then Some ((b0 - 0xC0) * 64 + (b1 - 0x80), r1) else None
        | _ => None
        end
      else if (0xE0 <=? b0) && (b0 <=? 0xEF) then
        match r0 with
        | b1 :: b2 :: r2 =>
            let c := (b0 - 0xE0) * 4096 + (b1 - 0x80) * 64 + (b2 - 0x80) in
            if cont b1 && cont b2 && (0x800 <=? c)
               && negb ((0xD800 <=? c) && (c <=? 0xDFFF))
            then Some (c, r2) else None
        | _ => None
        end
      else if (0xF0 <=? b0) && (b0 <=? 0xF4) then
        match r0 with
        | b1 :: b2 :: b3 :: r3 =>
            let c := (b0 - 0xF0) * 262144 + (b1 - 0x80) * 4096
                     + (b2 - 0x80) * 64 + (b3 - 0x80) in
            if cont b1 && cont b2 && cont b3 && (0x10000 <=? c) && (c <=? 0x10FFFF)
            then Some (c, r3) else None
        | _ => None
        end
      else None
  end.

(** The code points of a string.  A byte [b] outside any well-formed
    sequence becomes the lone surrogate U+DC00 + [b].  Every round consumes
    at least one byte, so one unit of fuel per byte is enough. *)
Fixpoint decode_loop_utf8 (fuel : nat) (bs : list Z) : list Z :=
  match fuel, bs with
  | S fuel', b :: r =>
      match utf8_head bs with
      | Some (c, rest) => c :: decode_loop_utf8 fuel' rest
      | None => (0xDC00 + b) :: decode_loop_utf8 fuel' r
      end
  | _, _ => []
  end.

Definition utf8_decode (bs : list Z) : list Z :=
  decode_loop_utf8 (List.length bs) bs.

(** The bytes of one code point. *)
Definition utf8_encode_one (c : Z) : list Z :=
  if c <? 0x80 then [c]
  else if c <? 0x800 then [0xC0 + c / 64; 0x80 + c mod 64]
  else if (0xDC80 <=? c) && (c <=? 0xDCFF) then [c - 0xDC00]
  else if c <? 0x10000 then
    [0xE0 + c / 4096; 0x80 + (c / 64) mod 64; 0x80 + c mod 64]
  else
    [0xF0 + c / 262144; 0x80 + (c / 4096) mod 64; 0x80 + (c / 64) mod 64;
     0x80 + c mod 64].

Definition utf8_encode (cps : list Z) : list Z := flat_map utf8_encode_one cps.

(** The simple lowercase mappings, as arithmetic progressions
    [(first, last, step, delta)]: every code point [first + i * step] up to
    [last] has the lowercase [code point + delta].  U+0130 and U+03A3 are
    treated apart. *)
Definition lowercase_ranges : list (Z * Z * Z * Z) :=
  [(0x41, 0x5A, 1, 32); (0xC0, 0xD6, 1, 32); (0xD8, 0xDE, 1, 32); (0x100, 0x12E, 2, 1);
   (0x132, 0x136, 2, 1); (0x139, 0x147, 2, 1); (0x14A, 0x176, 2, 1);
   (0x178, 0x178, 1, -121); (0x179, 0x17D, 2, 1); (0x181, 0x181, 1, 210);
   (0x182, 0x184, 2, 1); (0x186, 0x186, 1, 206); (0x187, 0x187, 1, 1);
   (0x189, 0x18A, 1, 205); (0x18B, 0x18B, 1, 1); (0x18E, 0x18E, 1, 79);
   (0x18F, 0x18F, 1, 202); (0x190, 0x190, 1, 203); (0x191, 0x191, 1, 1);
   (0x193, 0x193, 1, 205); (0x194, 0x194, 1, 207); (0x196, 0x196, 1, 211);
   (0x197, 0x197, 1, 209); (0x198, 0x198, 1, 1); (0x19C, 0x19C, 1, 211);
   (0x19D, 0x19D, 1, 213); (0x19F, 0x19F, 1, 214); (0x1A0, 0x1A4, 2, 1);
   (0x1A6, 0x1A6, 1, 218); (0x1A7, 0x1A7, 1, 1); (0x1A9, 0x1A9, 1, 218);
   (0x1AC, 0x1AC, 1, 1); (0x1AE, 0x1AE, 1, 218); (0x1AF, 0x1AF, 1, 1);
   (0x1B1, 0x1B2, 1, 217); (0x1B3, 0x1B5, 2, 1); (0x1B7, 0x1B7, 1, 219);
   (0x1B8, 0x1B8, 1, 1); (0x1BC, 0x1BC, 1, 1); (0x1C4, 0x1C4, 1, 2);
   (0x1C5, 0x1C5, 1, 1); (0x1C7, 0x1C7, 1, 2); (0x1C8, 0x1C8, 1, 1);
   (0x1CA, 0x1CA, 1, 2); (0x1CB, 0x1DB, 2, 1); (0x1DE, 0x1EE, 2, 1);
   (0x1F1, 0x1F1, 1, 2); (0x1F2, 0x1F4, 2, 1); (0x1F6, 0x1F6, 1, -97);
   (0x1F7, 0x1F7, 1, -56); (0x1F8, 0x21E, 2, 1); (0x220, 0x220, 1, -130);
   (0x222, 0x232, 2, 1); (0x23A, 0x23A, 1, 10795); (0x23B, 0x23B, 1, 1);
   (0x23D, 0x23D, 1, -163); (0x23E, 0x23E, 1, 10792); (0x241, 0x241, 1, 1);
   (0x243, 0x243, 1, -195); (0x244, 0x244, 1, 69); (0x245, 0x245, 1, 71);
   (0x246, 0x24E, 2, 1); (0x370, 0x372, 2, 1); (0x376, 0x376, 1, 1);
   (0x37F, 0x37F, 1, 116); (0x386, 0x386, 1, 38); (0x388, 0x38A, 1, 37);
   (0x38C, 0x38C, 1, 64); (0x38E, 0x38F, 1, 63); (0x391, 0x3A1, 1, 32);
   (0x3A4, 0x3AB, 1, 32); (0x3CF, 0x3CF, 1, 8); (0x3D8, 0x3EE, 2, 1);
   (0x3F4, 0x3F4, 1, -60); (0x3F7, 0x3F7, 1, 1); (0x3F9, 0x3F9, 1, -7);
   (0x3FA, 0x3FA, 1, 1); (0x3FD, 0x3FF, 1, -130); (0x400, 0x40F, 1, 80);
   (0x410, 0x42F, 1, 32); (0x460, 0x480, 2, 1); (0x48A, 0x4BE, 2, 1);
   (0x4C0, 0x4C0, 1, 15); (0x4C1, 0x4CD, 2, 1); (0x4D0, 0x52E, 2, 1);
   (0x531, 0x556, 1, 48); (0x10A0, 0x10C5, 1, 7264); (0x10C7, 0x10C7, 1, 7264);
   (0x10CD, 0x10CD, 1, 7264); (0x13A0, 0x13EF, 1, 38864); (0x13F0, 0x13F5, 1, 8);
   (0x1C90, 0x1CBA, 1, -3008); (0x1CBD, 0x1CBF, 1, -3008); (0x1E00, 0x1E94, 2, 1);
   (0x1E9E, 0x1E9E, 1, -7615); (0x1EA0, 0x1EFE, 2, 1); (0x1F08, 0x1F0F, 1, -8);
   (0x1F18, 0x1F1D, 1, -8); (0x1F28, 0x1F2F, 1, -8); (0x1F38, 0x1F3F, 1, -8);
   (0x1F48, 0x1F4D, 1, -8); (0x1F59, 0x1F5F, 2, -8); (0x1F68, 0x1F6F, 1, -8);
   (0x1F88, 0x1F8F, 1, -8); (0x1F98, 0x1F9F, 1, -8); (0x1FA8, 0x1FAF, 1, -8);
   (0x1FB8, 0x1FB9, 1, -8); (0x1FBA, 0x1FBB, 1, -74); (0x1FBC, 0x1FBC, 1, -9);
   (0x1FC8, 0x1FCB, 1, -86); (0x1FCC, 0x1FCC, 1, -9); (0x1FD8, 0x1FD9, 1, -8);
   (0x1FDA, 0x1FDB, 1, -100); (0x1FE8, 0x1FE9, 1, -8); (0x1FEA, 0x1FEB, 1, -112);
   (0x1FEC, 0x1FEC, 1, -7); (0x1FF8, 0x1FF9, 1, -128); (0x1FFA, 0x1FFB, 1, -126);
   (0x1FFC, 0x1FFC, 1, -9); (0x2126, 0x2126, 1, -7517); (0x212A, 0x212A, 1, -8383);
   (0x212B, 0x212B, 1, -8262); (0x2132, 0x2132, 1, 28); (0x2160, 0x216F, 1, 16);
   (0x2183, 0x2183, 1, 1); (0x24B6, 0x24CF, 1, 26); (0x2C00, 0x2C2F, 1, 48);
   (0x2C60, 0x2C60, 1, 1); (0x2C62, 0x2C62, 1, -10743); (0x2C63, 0x2C63, 1, -3814);
   (0x2C64, 0x2C64, 1, -10727); (0x2C67, 0x2C6B, 2, 1); (0x2C6D, 0x2C6D, 1, -10780);
   (0x2C6E, 0x2C6E, 1, -10749); (0x2C6F, 0x2C6F, 1, -10783); (0x2C70, 0x2C70, 1, -10782);
   (0x2C72, 0x2C72, 1, 1); (0x2C75, 0x2C75, 1, 1); (0x2C7E, 0x2C7F, 1, -10815);
   (0x2C80, 0x2CE2, 2, 1); (0x2CEB, 0x2CED, 2, 1); (0x2CF2, 0x2CF2, 1, 1);
   (0xA640, 0xA66C, 2, 1); (0xA680, 0xA69A, 2, 1); (0xA722, 0xA72E, 2, 1);
   (0xA732, 0xA76E, 2, 1); (0xA779, 0xA77B, 2, 1); (0xA77D, 0xA77D, 1, -35332);
   (0xA77E, 0xA786, 2, 1); (0xA78B, 0xA78B, 1, 1); (0xA78D, 0xA78D, 1, -42280);
   (0xA790, 0xA792, 2, 1); (0xA796, 0xA7A8, 2, 1); (0xA7AA, 0xA7AA, 1, -42308);
   (0xA7AB, 0xA7AB, 1, -42319); (0xA7AC, 0xA7AC, 1, -42315); (0xA7AD, 0xA7AD, 1, -42305);
   (0xA7AE, 0xA7AE, 1, -42308); (0xA7B0, 0xA7B0, 1, -42258); (0xA7B1, 0xA7B1, 1, -42282);
   (0xA7B2, 0xA7B2, 1, -42261); (0xA7B3, 0xA7B3, 1, 928); (0xA7B4, 0xA7C2, 2, 1);
   (0xA7C4, 0xA7C4, 1, -48); (0xA7C5, 0xA7C5, 1, -42307); (0xA7C6, 0xA7C6, 1, -35384);
   (0xA7C7, 0xA7C9, 2, 1); (0xA7D0, 0xA7D0, 1, 1); (0xA7D6, 0xA7D8, 2, 1);
   (0xA7F5, 0xA7F5, 1, 1); (0xFF21, 0xFF3A, 1, 32); (0x10400, 0x10427, 1, 40);
   (0x104B0, 0x104D3, 1, 40); (0x10570, 0x1057A, 1, 39); (0x1057C, 0x1058A, 1, 39);
   (0x1058C, 0x10592, 1, 39); (0x10594, 0x10595, 1, 39); (0x10C80, 0x10CB2, 1, 64);
   (0x118A0, 0x118BF, 1, 32); (0x16E40, 0x16E5F, 1, 32); (0x1E900, 0x1E921, 1, 34)].

Definition in_progression (c : Z) (r : Z * Z * Z * Z) : bool :=
  let '(first, last, step, _) := r in
  (first <=? c) && (c <=? last) && ((c - first) mod step =? 0).

Definition lowercase_delta (c : Z) : option Z :=
  match find (in_progression c) lowercase_ranges with
  | Some (_, _, _, delta) => Some delta
  | None => None
  end.

(** The lowercase of one code point other than the capital sigma. *)
Definition to_lower (c : Z) : list Z :=
  if c =? 0x130 then [0x69; 0x307]
  else
    match lowercase_delta c with
    | Some delta => [c + delta]
    | None => [c]
    end.

(** The code points with the property Case_Ignorable, as intervals. *)
Definition case_ignorable_ranges : list (Z * Z) :=
  [(0x27, 0x27); (0x2E, 0x2E); (0x3A, 0x3A); (0x5E, 0x5E); (0x60, 0x60); (0xA8, 0xA8);
   (0xAD, 0xAD); (0xAF, 0xAF); (0xB4, 0xB4); (0xB7, 0xB8); (0x2B0, 0x36F);
   (0x374, 0x375); (0x37A, 0x37A); (0x384, 0x385); (0x387, 0x387); (0x483, 0x489);
   (0x559, 0x559); (0x55F, 0x55F); (0x591, 0x5BD); (0x5BF, 0x5BF); (0x5C1, 0x5C2);
   (0x5C4, 0x5C5); (0x5C7, 0x5C7); (0x5F4, 0x5F4); (0x600, 0x605); (0x610, 0x61A);
   (0x61C, 0x61C); (0x640, 0x640); (0x64B, 0x65F); (0x670, 0x670); (0x6D6, 0x6DD);
   (0x6DF, 0x6E8); (0x6EA, 0x6ED); (0x70F, 0x70F); (0x711, 0x711); (0x730, 0x74A);
   (0x7A6, 0x7B0); (0x7EB, 0x7F5); (0x7FA, 0x7FA); (0x7FD, 0x7FD); (0x816, 0x82D);
   (0x859, 0x85B); (0x888, 0x888); (0x890, 0x891); (0x898, 0x89F); (0x8C9, 0x902);
   (0x93A, 0x93A); (0x93C, 0x93C); (0x941, 0x948); (0x94D, 0x94D); (0x951, 0x957);
   (0x962, 0x963); (0x971, 0x971); (0x981, 0x981); (0x9BC, 0x9BC); (0x9C1, 0x9C4);
   (0x9CD, 0x9CD); (0x9E2, 0x9E3); (0x9FE, 0x9FE); (0xA01, 0xA02); (0xA3C, 0xA3C);
   (0xA41, 0xA42); (0xA47, 0xA48); (0xA4B, 0xA4D); (0xA51, 0xA51); (0xA70, 0xA71);
   (0xA75, 0xA75); (0xA81, 0xA82); (0xABC, 0xABC); (0xAC1, 0xAC5); (0xAC7, 0xAC8);
   (0xACD, 0xACD); (0xAE2, 0xAE3); (0xAFA, 0xAFF); (0xB01, 0xB01); (0xB3C, 0xB3C);
   (0xB3F, 0xB3F); (0xB41, 0xB44); (0xB4D, 0xB4D); (0xB55, 0xB56); (0xB62, 0xB63);
   (0xB82, 0xB82); (0xBC0, 0xBC0); (0xBCD, 0xBCD); (0xC00, 0xC00); (0xC04, 0xC04);
   (0xC3C, 0xC3C); (0xC3E, 0xC40); (0xC46, 0xC48); (0xC4A, 0xC4D); (0xC55, 0xC56);
   (0xC62, 0xC63); (0xC81, 0xC81); (0xCBC, 0xCBC); (0xCBF, 0xCBF); (0xCC6, 0xCC6);
   (0xCCC, 0xCCD); (0xCE2, 0xCE3); (0xD00, 0xD01); (0xD3B, 0xD3C); (0xD41, 0xD44);
   (0xD4D, 0xD4D); (0xD62, 0xD63); (0xD81, 0xD81); (0xDCA, 0xDCA); (0xDD2, 0xDD4);
   (0xDD6, 0xDD6); (0xE31, 0xE31); (0xE34, 0xE3A); (0xE46, 0xE4E); (0xEB1, 0xEB1);
   (0xEB4, 0xEBC); (0xEC6, 0xEC6); (0xEC8, 0xECD); (0xF18, 0xF19); (0xF35, 0xF35);
   (0xF37, 0xF37); (0xF39, 0xF39); (0xF71, 0xF7E); (0xF80, 0xF84); (0xF86, 0xF87);
   (0xF8D, 0xF97); (0xF99, 0xFBC); (0xFC6, 0xFC6); (0x102D, 0x1030); (0x1032, 0x1037);
   (0x1039, 0x103A); (0x103D, 0x103E); (0x1058, 0x1059); (0x105E, 0x1060);
   (0x1071, 0x1074); (0x1082, 0x1082); (0x1085, 0x1086); (0x108D, 0x108D);
   (0x109D, 0x109D); (0x10FC, 0x10FC); (0x135D, 0x135F); (0x1712, 0x1714);
   (0x1732, 0x1733); (0x1752, 0x1753); (0x1772, 0x1773); (0x17B4, 0x17B5);
   (0x17B7, 0x17BD); (0x17C6, 0x17C6); (0x17C9, 0x17D3); (0x17D7, 0x17D7);
   (0x17DD, 0x17DD); (0x180B, 0x180F); (0x1843, 0x1843); (0x1885, 0x1886);
   (0x18A9, 0x18A9); (0x1920, 0x1922); (0x1927, 0x1928); (0x1932, 0x1932);
   (0x1939, 0x193B); (0x1A17, 0x1A18); (0x1A1B, 0x1A1B); (0x1A56, 0x1A56);
   (0x1A58, 0x1A5E); (0x1A60, 0x1A60); (0x1A62, 0x1A62); (0x1A65, 0x1A6C);
   (0x1A73, 0x1A7C); (0x1A7F, 0x1A7F); (0x1AA7, 0x1AA7); (0x1AB0, 0x1ACE);
   (0x1B00, 0x1B03); (0x1B34, 0x1B34); (0x1B36, 0x1B3A); (0x1B3C, 0x1B3C);
   (0x1B42, 0x1B42); (0x1B6B, 0x1B73); (0x1B80, 0x1B81); (0x1BA2, 0x1BA5);
   (0x1BA8, 0x1BA9); (0x1BAB, 0x1BAD); (0x1BE6, 0x1BE6); (0x1BE8, 0x1BE9);
   (0x1BED, 0x1BED); (0x1BEF, 0x1BF1); (0x1C2C, 0x1C33); (0x1C36, 0x1C37);
   (0x1C78, 0x1C7D); (0x1CD0, 0x1CD2); (0x1CD4, 0x1CE0); (0x1CE2, 0x1CE8);
   (0x1CED, 0x1CED); (0x1CF4, 0x1CF4); (0x1CF8, 0x1CF9); (0x1D2C, 0x1D6A);
   (0x1D78, 0x1D78); (0x1D9B, 0x1DFF); (0x1FBD, 0x1FBD); (0x1FBF, 0x1FC1);
   (0x1FCD, 0x1FCF); (0x1FDD, 0x1FDF); (0x1FED, 0x1FEF); (0x1FFD, 0x1FFE);
   (0x200B, 0x200F); (0x2018, 0x2019); (0x2024, 0x2024); (0x2027, 0x2027);
   (0x202A, 0x202E); (0x2060, 0x2064); (0x2066, 0x206F); (0x2071, 0x2071);
   (0x207F, 0x207F); (0x2090, 0x209C); (0x20D0, 0x20F0); (0x2C7C, 0x2C7D);
   (0x2CEF, 0x2CF1); (0x2D6F, 0x2D6F); (0x2D7F, 0x2D7F); (0x2DE0, 0x2DFF);
   (0x2E2F, 0x2E2F); (0x3005, 0x3005); (0x302A, 0x302D); (0x3031, 0x3035);
   (0x303B, 0x303B); (0x3099, 0x309E); (0x30FC, 0x30FE); (0xA015, 0xA015);
   (0xA4F8, 0xA4FD); (0xA60C, 0xA60C); (0xA66F, 0xA672); (0xA674, 0xA67D);
   (0xA67F, 0xA67F); (0xA69C, 0xA69F); (0xA6F0, 0xA6F1); (0xA700, 0xA721);
   (0xA770, 0xA770); (0xA788, 0xA78A); (0xA7F2, 0xA7F4); (0xA7F8, 0xA7F9);
   (0xA802, 0xA802); (0xA806, 0xA806); (0xA80B, 0xA80B); (0xA825, 0xA826);
   (0xA82C, 0xA82C); (0xA8C4, 0xA8C5); (0xA8E0, 0xA8F1); (0xA8FF, 0xA8FF);
   (0xA926, 0xA92D); (0xA947, 0xA951); (0xA980, 0xA982); (0xA9B3, 0xA9B3);
   (0xA9B6, 0xA9B9); (0xA9BC, 0xA9BD); (0xA9CF, 0xA9CF); (0xA9E5, 0xA9E6);
   (0xAA29, 0xAA2E); (0xAA31, 0xAA32); (0xAA35, 0xAA36); (0xAA43, 0xAA43);
   (0xAA4C, 0xAA4C); (0xAA70, 0xAA70); (0xAA7C, 0xAA7C); (0xAAB0, 0xAAB0);
   (0xAAB2, 0xAAB4); (0xAAB7, 0xAAB8); (0xAABE, 0xAABF); (0xAAC1, 0xAAC1);
   (0xAADD, 0xAADD); (0xAAEC, 0xAAED); (0xAAF3, 0xAAF4); (0xAAF6, 0xAAF6);
   (0xAB5B, 0xAB5F); (0xAB69, 0xAB6B); (0xABE5, 0xABE5); (0xABE8, 0xABE8);
   (0xABED, 0xABED); (0xFB1E, 0xFB1E); (0xFBB2, 0xFBC2); (0xFE00, 0xFE0F);
   (0xFE13, 0xFE13); (0xFE20, 0xFE2F); (0xFE52, 0xFE52); (0xFE55, 0xFE55);
   (0xFEFF, 0xFEFF); (0xFF07, 0xFF07); (0xFF0E, 0xFF0E); (0xFF1A, 0xFF1A);
   (0xFF3E, 0xFF3E); (0xFF40, 0xFF40); (0xFF70, 0xFF70); (0xFF9E, 0xFF9F);
   (0xFFE3, 0xFFE3); (0xFFF9, 0xFFFB); (0x101FD, 0x101FD); (0x102E0, 0x102E0);
   (0x10376, 0x1037A); (0x10780, 0x10785); (0x10787, 0x107B0); (0x107B2, 0x107BA);
   (0x10A01, 0x10A03); (0x10A05, 0x10A06); (0x10A0C, 0x10A0F); (0x10A38, 0x10A3A);
   (0x10A3F, 0x10A3F); (0x10AE5, 0x10AE6); (0x10D24, 0x10D27); (0x10EAB, 0x10EAC);
   (0x10F46, 0x10F50); (0x10F82, 0x10F85); (0x11001, 0x11001); (0x11038, 0x11046);
   (0x11070, 0x11070); (0x11073, 0x11074); (0x1107F, 0x11081); (0x110B3, 0x110B6);
   (0x110B9, 0x110BA); (0x110BD, 0x110BD); (0x110C2, 0x110C2); (0x110CD, 0x110CD);
   (0x11100, 0x11102); (0x11127, 0x1112B); (0x1112D, 0x11134); (0x11173, 0x11173);
   (0x11180, 0x11181); (0x111B6, 0x111BE); (0x111C9, 0x111CC); (0x111CF, 0x111CF);
   (0x1122F, 0x11231); (0x11234, 0x11234); (0x11236, 0x11237); (0x1123E, 0x1123E);
   (0x112DF, 0x112DF); (0x112E3, 0x112EA); (0x11300, 0x11301); (0x1133B, 0x1133C);
   (0x11340, 0x11340); (0x11366, 0x1136C); (0x11370, 0x11374); (0x11438, 0x1143F);
   (0x11442, 0x11444); (0x11446, 0x11446); (0x1145E, 0x1145E); (0x114B3, 0x114B8);
   (0x114BA, 0x114BA); (0x114BF, 0x114C0); (0x114C2, 0x114C3); (0x115B2, 0x115B5);
   (0x115BC, 0x115BD); (0x115BF, 0x115C0); (0x115DC, 0x115DD); (0x11633, 0x1163A);
   (0x1163D, 0x1163D); (0x1163F, 0x11640); (0x116AB, 0x116AB); (0x116AD, 0x116AD);
   (0x116B0, 0x116B5); (0x116B7, 0x116B7); (0x1171D, 0x1171F); (0x11722, 0x11725);
   (0x11727, 0x1172B); (0x1182F, 0x11837); (0x11839, 0x1183A); (0x1193B, 0x1193C);
   (0x1193E, 0x1193E); (0x11943, 0x11943); (0x119D4, 0x119D7); (0x119DA, 0x119DB);
   (0x119E0, 0x119E0); (0x11A01, 0x11A0A); (0x11A33, 0x11A38); (0x11A3B, 0x11A3E);
   (0x11A47, 0x11A47); (0x11A51, 0x11A56); (0x11A59, 0x11A5B); (0x11A8A, 0x11A96);
   (0x11A98, 0x11A99); (0x11C30, 0x11C36); (0x11C38, 0x11C3D); (0x11C3F, 0x11C3F);
   (0x11C92, 0x11CA7); (0x11CAA, 0x11CB0); (0x11CB2, 0x11CB3); (0x11CB5, 0x11CB6);
   (0x11D31, 0x11D36); (0x11D3A, 0x11D3A); (0x11D3C, 0x11D3D); (0x11D3F, 0x11D45);
   (0x11D47, 0x11D47); (0x11D90, 0x11D91); (0x11D95, 0x11D95); (0x11D97, 0x11D97);
   (0x11EF3, 0x11EF4); (0x13430, 0x13438); (0x16AF0, 0x16AF4); (0x16B30, 0x16B36);
   (0x16B40, 0x16B43); (0x16F4F, 0x16F4F); (0x16F8F, 0x16F9F); (0x16FE0, 0x16FE1);
   (0x16FE3, 0x16FE4); (0x1AFF0, 0x1AFF3); (0x1AFF5, 0x1AFFB); (0x1AFFD, 0x1AFFE);
   (0x1BC9D, 0x1BC9E); (0x1BCA0, 0x1BCA3); (0x1CF00, 0x1CF2D); (0x1CF30, 0x1CF46);
   (0x1D167, 0x1D169); (0x1D173, 0x1D182); (0x1D185, 0x1D18B); (0x1D1AA, 0x1D1AD);
   (0x1D242, 0x1D244); (0x1DA00, 0x1DA36); (0x1DA3B, 0x1DA6C); (0x1DA75, 0x1DA75);
   (0x1DA84, 0x1DA84); (0x1DA9B, 0x1DA9F); (0x1DAA1, 0x1DAAF); (0x1E000, 0x1E006);
   (0x1E008, 0x1E018); (0x1E01B, 0x1E021); (0x1E023, 0x1E024); (0x1E026, 0x1E02A);
   (0x1E130, 0x1E13D); (0x1E2AE, 0x1E2AE); (0x1E2EC, 0x1E2EF); (0x1E8D0, 0x1E8D6);
   (0x1E944, 0x1E94B); (0x1F3FB, 0x1F3FF); (0xE0001, 0xE0001); (0xE0020, 0xE007F);
   (0xE0100, 0xE01EF)].

(** The code points with the property Cased that are not Case_Ignorable. *)
Definition cased_ranges : list (Z * Z) :=
  [(0x41, 0x5A); (0x61, 0x7A); (0xAA, 0xAA); (0xB5, 0xB5); (0xBA, 0xBA); (0xC0, 0xD6);
   (0xD8, 0xF6); (0xF8, 0x1BA); (0x1BC, 0x1BF); (0x1C4, 0x293); (0x295, 0x2AF);
   (0x370, 0x373); (0x376, 0x377); (0x37B, 0x37D); (0x37F, 0x37F); (0x386, 0x386);
   (0x388, 0x38A); (0x38C, 0x38C); (0x38E, 0x3A1); (0x3A3, 0x3F5); (0x3F7, 0x481);
   (0x48A, 0x52F); (0x531, 0x556); (0x560, 0x588); (0x10A0, 0x10C5); (0x10C7, 0x10C7);
   (0x10CD, 0x10CD); (0x10D0, 0x10FA); (0x10FD, 0x10FF); (0x13A0, 0x13F5);
   (0x13F8, 0x13FD); (0x1C80, 0x1C88); (0x1C90, 0x1CBA); (0x1CBD, 0x1CBF);
   (0x1D00, 0x1D2B); (0x1D6B, 0x1D77); (0x1D79, 0x1D9A); (0x1E00, 0x1F15);
   (0x1F18, 0x1F1D); (0x1F20, 0x1F45); (0x1F48, 0x1F4D); (0x1F50, 0x1F57);
   (0x1F59, 0x1F59); (0x1F5B, 0x1F5B); (0x1F5D, 0x1F5D); (0x1F5F, 0x1F7D);
   (0x1F80, 0x1FB4); (0x1FB6, 0x1FBC); (0x1FBE, 0x1FBE); (0x1FC2, 0x1FC4);
   (0x1FC6, 0x1FCC); (0x1FD0, 0x1FD3); (0x1FD6, 0x1FDB); (0x1FE0, 0x1FEC);
   (0x1FF2, 0x1FF4); (0x1FF6, 0x1FFC); (0x2102, 0x2102); (0x2107, 0x2107);
   (0x210A, 0x2113); (0x2115, 0x2115); (0x2119, 0x211D); (0x2124, 0x2124);
   (0x2126, 0x2126); (0x2128, 0x2128); (0x212A, 0x212D); (0x212F, 0x2134);
   (0x2139, 0x2139); (0x213C, 0x213F); (0x2145, 0x2149); (0x214E, 0x214E);
   (0x2160, 0x217F); (0x2183, 0x2184); (0x24B6, 0x24E9); (0x2C00, 0x2C7B);
   (0x2C7E, 0x2CE4); (0x2CEB, 0x2CEE); (0x2CF2, 0x2CF3); (0x2D00, 0x2D25);
   (0x2D27, 0x2D27); (0x2D2D, 0x2D2D); (0xA640, 0xA66D); (0xA680, 0xA69B);
   (0xA722, 0xA76F); (0xA771, 0xA787); (0xA78B, 0xA78E); (0xA790, 0xA7CA);
   (0xA7D0, 0xA7D1); (0xA7D3, 0xA7D3); (0xA7D5, 0xA7D9); (0xA7F5, 0xA7F6);
   (0xA7FA, 0xA7FA); (0xAB30, 0xAB5A); (0xAB60, 0xAB68); (0xAB70, 0xABBF);
   (0xFB00, 0xFB06); (0xFB13, 0xFB17); (0xFF21, 0xFF3A); (0xFF41, 0xFF5A);
   (0x10400, 0x1044F); (0x104B0, 0x104D3); (0x104D8, 0x104FB); (0x10570, 0x1057A);
   (0x1057C, 0x1058A); (0x1058C, 0x10592); (0x10594, 0x10595); (0x10597, 0x105A1);
   (0x105A3, 0x105B1); (0x105B3, 0x105B9); (0x105BB, 0x105BC); (0x10C80, 0x10CB2);
   (0x10CC0, 0x10CF2); (0x118A0, 0x118DF); (0x16E40, 0x16E7F); (0x1D400, 0x1D454);
   (0x1D456, 0x1D49C); (0x1D49E, 0x1D49F); (0x1D4A2, 0x1D4A2); (0x1D4A5, 0x1D4A6);
   (0x1D4A9, 0x1D4AC); (0x1D4AE, 0x1D4B9); (0x1D4BB, 0x1D4BB); (0x1D4BD, 0x1D4C3);
   (0x1D4C5, 0x1D505); (0x1D507, 0x1D50A); (0x1D50D, 0x1D514); (0x1D516, 0x1D51C);
   (0x1D51E, 0x1D539); (0x1D53B, 0x1D53E); (0x1D540, 0x1D544); (0x1D546, 0x1D546);
   (0x1D54A, 0x1D550); (0x1D552, 0x1D6A5); (0x1D6A8, 0x1D6C0); (0x1D6C2, 0x1D6DA);
   (0x1D6DC, 0x1D6FA); (0x1D6FC, 0x1D714); (0x1D716, 0x1D734); (0x1D736, 0x1D74E);
   (0x1D750, 0x1D76E); (0x1D770, 0x1D788); (0x1D78A, 0x1D7A8); (0x1D7AA, 0x1D7C2);
   (0x1D7C4, 0x1D7CB); (0x1DF00, 0x1DF09); (0x1DF0B, 0x1DF1E); (0x1E900, 0x1E943);
   (0x1F130, 0x1F149); (0x1F150, 0x1F169); (0x1F170, 0x1F189)].

Definition in_ranges (c : Z) (rs : list (Z * Z)) : bool :=
  existsb (fun '(first, last) => (first <=? c) && (c <=? last)) rs.

Definition case_ignorable (c : Z) : bool := in_ranges c case_ignorable_ranges.

Definition cased (c : Z) : bool := in_ranges c cased_ranges.

(** The first code point that is not case-ignorable. *)
Fixpoint skip_case_ignorable (cps : list Z) : option Z :=
  match cps with
  | [] => None
  | c :: rest => if case_ignorable c then skip_case_ignorable rest else Some c
  end.

(** The capital sigma at the end of a word: a cased letter before it and
    none after it, case-ignorable code points aside.  [before] holds the
    preceding code points, the nearest first. *)
Definition final_sigma (before after : list Z) : bool :=
  match skip_case_ignorable before with
  | Some c => cased c
  | None => false
  end
  && match skip_case_ignorable after with
     | Some c => negb (cased c)
     | None => true
     end.

Fixpoint lower_loop (before : list Z) (cps : list Z) : list Z :=
  match cps with
  | [] => []
  | c :: rest =>
      (if c =? 0x3A3 then [if final_sigma before rest then 0x3C2 else 0x3C3]
       else to_lower c)
      ++ lower_loop (c :: before) rest
  end.

(** [s.lower()] *)
Definition lower (s : string) : string :=
  chars (utf8_encode (lower_loop [] (utf8_decode (codes s)))).

(** ** [class CodecInfo] *)

(** [Path(file).suffix.lower()] *)
Definition get_file_ext (file : File) : string := lower (suffix file).

(** [if not file_ext and isinstance(file, Path): file_ext = get_file_ext(file)] *)
Definition resolve_ext (file : File) (file_ext : option string) : string :=
  match file_ext with
  | None => get_file_ext file
  | Some e => if String.eqb e "" then get_file_ext file else e
  end.

Definition ext_in (e : string) (exts : list string) : bool :=
  existsb (String.eqb e) exts.

Definition _get_file_fps_tgs (file : File) : result float :=
  anim <- from_tgs file ;; Ok (lottie_animation_get_framerate anim).

Definition _get_file_frames_tgs (file : File) : result Z :=
  anim <- from_tgs file ;; Ok (lottie_animation_get_totalframe anim).

Definition _get_file_fps_frames_tgs (file : File) : result (float * Z) :=
  anim <- from_tgs file ;;
  let fps := lottie_animation_get_framerate anim in
  let frames := lottie_animation_get_totalframe anim in
  Ok (fps, frames).

(** *** Pillow strategy *)

(** The state of the frame loop: [total_duration] and [durations]. *)
Definition pillow_step (st : pyval * list pyval) (info : option pyval)
  : result (pyval * list pyval) :=
  let '(total_duration, durations) := st in
  let frame_duration := match info with Some d => d | None => PInt 1000 end in
  let durations :=
    if negb (py_in frame_duration durations) && negb (py_eqb frame_duration (PInt 0))
    then durations ++ [frame_duration] else durations in
  total_duration <- py_add total_duration frame_duration ;;
  Ok (total_duration, durations).

Fixpoint pillow_loop (infos : list (option pyval)) (st : pyval * list pyval)
  : result (pyval * list pyval) :=
  match infos with
  | [] => Ok st
  | info :: rest => st' <- pillow_step st info ;; pillow_loop rest st'
  end.

Definition _get_file_fps_frames_duration_pillow (file : File) (frames_only : bool)
  : result (pyval * Z * pyval) :=
  let total_duration := PFloat zero in
  let durations : list pyval := [] in
  im <- Image_open file ;;
  if n_frames_attr im then
    let frames := n_frames im in
    if frames_only then Ok (PFloat zero, frames, PInt 1)
    else
      ' (total_duration, durations) <- pillow_loop (frame_info im) (total_duration, durations) ;;
      fps <-
        (if (n_frames im =? 0) || py_eqb total_duration (PInt 0) then Ok (PFloat zero)
         else if (List.length durations =? 1)%nat then
           r <- py_truediv (PInt frames) total_duration ;;
           py_mul r (PInt 1000)
         else
           duration_gcd <- durations_gcd durations ;;
           frames_apparent <- py_truediv total_duration duration_gcd ;;
           r <- py_truediv frames_apparent total_duration ;;
           py_mul r (PInt 1000)) ;;
      Ok (fps, frames, total_duration)
  else Ok (PFloat zero, 1, PInt 0).

(** *** Chunked raster strategy (WebP) *)

(** [b"ANMF"] *)
Definition ANMF : list byte := [x41; x4e; x4d; x46].

Fixpoint starts_with (sub l : list byte) : bool :=
  match sub, l with
  | [], _ => true
  | _ :: _, [] => false
  | a :: sub', b :: l' => Byte.eqb a b && starts_with sub' l'
  end.

(** The lowest index at or after [idx] where [sub] occurs; [l] is the data
    from [idx] on. *)
Fixpoint find_at (sub l : list byte) (idx : nat) : option nat :=
  if starts_with sub l then Some idx
  else
    match l with
    | [] => None
    | _ :: l' => find_at sub l' (S idx)
    end.

(** [mm.find(sub)]: the search starts at the current position. *)
Definition mm_find (data : list byte) (pos : nat) (sub : list byte) : option nat :=
  find_at sub (skipn pos data) pos.

(** [mm.seek(target)]: a position past the end is refused. *)
Definition mm_seek (data : list byte) (target : nat) : result nat :=
  if (List.length data <? target)%nat then Raise ValueError else Ok target.

(** [mm.read(n)]: at most [n] bytes, fewer at the end of the map. *)
Definition mm_read (data : list byte) (pos : nat) (n : nat) : list byte :=
  firstn n (skipn pos data).

(** [bytes(n)] for an int [n >= 0]: [n] zero bytes. *)
Definition bytes_of_int (n : Z) : list byte := repeat x00 (Z.to_nat n).

(** [int.from_bytes(bs, "little")] *)
Fixpoint int_from_bytes_little (bs : list byte) : Z :=
  match bs with
  | [] => 0
  | b :: rest => Z.of_N (Byte.to_N b) + 256 * int_from_bytes_little rest
  end.

(** The duration of one frame from the four bytes at offset 20:
    [frame_duration_32[:-1] + bytes(int(frame_duration_32[-1]) & 0b11111100)]
    read as a little-endian integer. *)
Definition frame_duration_of (frame_duration_32 : list byte) : result Z :=
  match frame_duration_32 with
  | [] => Raise IndexError
  | _ :: _ =>
      let last_byte := Z.of_N (Byte.to_N (last frame_duration_32 x00)) in
      let frame_duration_bytes :=
        removelast frame_duration_32 ++ bytes_of_int (Z.land last_byte 252) in
      Ok (int_from_bytes_little frame_duration_bytes)
  end.

(** The variables of the scan loop. *)
Record scan : Type := mkScan {
  scan_total_duration : Z;
  scan_frames : Z;
  scan_durations : list Z
}.

Definition In_Zb (z : Z) (zs : list Z) : bool := existsb (Z.eqb z) zs.

Definition scan_step (st : scan) (frame_duration : Z) : scan :=
  let durations :=
    if negb (In_Zb frame_duration (scan_durations st)) && negb (frame_duration =? 0)
    then scan_durations st ++ [frame_duration] else scan_durations st in
  mkScan (scan_total_duration st + frame_duration) (scan_frames st + 1) durations.

(** [while True: ...] over the map; [None] when the fuel runs out. *)
Fixpoint anmf_loop (fuel : nat) (data : list byte) (pos : nat) (st : scan)
  : option (result scan) :=
  match fuel with
  | O => None
  | S fuel' =>
      match mm_find data pos ANMF with
      | None => Some (Ok st)
      | Some anmf_pos =>
          match mm_seek data (anmf_pos + 20) with
          | Raise e => Some (Raise e)
          | Ok pos1 =>
              let frame_duration_32 := mm_read data pos1 4 in
              match frame_duration_of frame_duration_32 with
              | Raise e => Some (Raise e)
              | Ok frame_duration =>
                  anmf_loop fuel' data (pos1 + List.length frame_duration_32)
                    (scan_step st frame_duration)
              end
          end
      end
  end.

(** The whole scan.  Every round moves the position forward, so one unit of
    fuel per byte is enough ([anmf_loop_fuel] below); an empty file cannot be
    mapped. *)
Definition anmf_scan (data : list byte) : result scan :=
  match data with
  | [] => Raise ValueError
  | _ :: _ =>
      match anmf_loop (S (List.length data)) data 0 (mkScan 0 0 []) with
      | Some r => r
      | None => Ok (mkScan 0 0 [])
      end
  end.

Definition _get_file_fps_frames_duration_webp (file : File)
  : result (pyval * Z * pyval) :=
  st <- anmf_scan (content file) ;;
  let total_duration := scan_total_duration st in
  let frames := scan_frames st in
  let durations := map PInt (scan_durations st) in
  if frames <=? 1 then Ok (PFloat zero, 1, PInt 0)
  else
    fps <-
      (if (List.length durations =? 1)%nat then
         r <- py_truediv (PInt frames) (PInt total_duration) ;;
         py_mul r (PInt 1000)
       else
         duration_gcd <- durations_gcd durations ;;
         frames_apparent <- py_truediv (PInt total_duration) duration_gcd ;;
         r <- py_truediv frames_apparent (PInt total_duration) ;;
         v <- py_mul r (PInt 1000) ;;
         f <- py_float v ;;
         Ok (PFloat f)) ;;
    Ok (fps, frames, PInt total_duration).

(** *** Decode-fallback strategy (PyAV) *)

(** [for frame_count, frame in enumerate(container.decode(stream))]: [index]
    is the value [enumerate] assigns to [frame_count] at each round; the
    result is the pair of [frame_count] and [last_frame] after the loop. *)
Fixpoint decode_loop (frames_to_iterate : option Z) (frames : list VideoFrame)
    (index : Z) (frame_count : Z) (last_frame : option VideoFrame)
  : Z * option VideoFrame :=
  match frames with
  | [] => (frame_count, last_frame)
  | frame :: rest =>
      let frame_count := index in
      if match frames_to_iterate with
         | Some k => frame_count =? k
         | None => false
         end
      then (frame_count, last_frame)
      else decode_loop frames_to_iterate rest (index + 1) frame_count (Some frame)
  end.

(** [if container.duration: duration_metadata = int(rounding(container.duration / 1000))
    else: duration_metadata = 0] *)
Definition duration_metadata_of (container : InputContainer) : result Z :=
  match container_duration container with
  | Some d =>
      if negb (d =? 0) then
        ms <- int_truediv d 1000 ;;
        int_rounding (PFloat ms)
      else Ok 0
  | None => Ok 0
  end.

Definition _get_file_frames_duration_av (file : File)
    (frames_to_iterate : option Z) (frames_only : bool) : result (Z * Z) :=
  container <- av_open file ;;
  stream <- getitem (streams_video container) 0 ;;
  duration_metadata <- duration_metadata_of container ;;
  if frames_only && (1 <? stream_frames stream) then
    Ok (stream_frames stream, duration_metadata)
  else
    let '(frame_count, last_frame) :=
      decode_loop frames_to_iterate (decoded stream) 0 0 None in
    match last_frame with
    | None => Ok (0, 0)
    | Some last_frame =>
        tb <- int_truediv (numerator (time_base last_frame))
                          (denominator (time_base last_frame)) ;;
        time_base_ms <- py_mul (PFloat tb) (PInt 1000) ;;
        if (frame_count <=? 1) || negb (duration_metadata =? 0) then
          Ok (frame_count, duration_metadata)
        else
          last_pts <- match pts last_frame with
                      | Some p => Ok (PInt p)
                      | None => Raise TypeError
                      end ;;
          duration_n_minus_one <- py_mul last_pts time_base_ms ;;
          ms_per_frame <- py_truediv duration_n_minus_one (PInt (frame_count - 1)) ;;
          duration <- py_mul (PInt frame_count) ms_per_frame ;;
          rounded <- int_rounding duration ;;
          Ok (frame_count, rounded)
    end.

(** *** The facade *)

Definition get_file_fps_frames_duration (file : File) (file_ext : option string)
  : result (pyval * Z * pyval) :=
  let file_ext := resolve_ext file file_ext in
  if String.eqb file_ext ".tgs" then
    ' (fps, frames) <- _get_file_fps_frames_tgs file ;;
    duration <-
      (if py_ltb (PInt 0) (PFloat fps) then
         r <- py_truediv (PInt frames) (PFloat fps) ;;
         v <- py_mul r (PInt 1000) ;;
         py_int v
       else Ok 0) ;;
    Ok (PFloat fps, frames, PInt duration)
  else if String.eqb file_ext ".webp" then
    _get_file_fps_frames_duration_webp file
  else if ext_in file_ext [".gif"; ".apng"; ".png"]%string then
    _get_file_fps_frames_duration_pillow file false
  else
    ' (frames, duration) <- _get_file_frames_duration_av file None false ;;
    fps <-
      (if 0 <? duration then
         r <- int_truediv frames duration ;;
         py_mul (PFloat r) (PInt 1000)
       else Ok (PInt 0)) ;;
    Ok (fps, frames, PInt duration).

Definition get_file_fps (file : File) (file_ext : option string) : result pyval :=
  let file_ext := resolve_ext file file_ext in
  if String.eqb file_ext ".tgs" then
    fps <- _get_file_fps_tgs file ;; Ok (PFloat fps)
  else if String.eqb file_ext ".webp" then
    ' (fps, _, _) <- _get_file_fps_frames_duration_webp file ;;
    Ok fps
  else if ext_in file_ext [".gif"; ".apng"; ".png"]%string then
    ' (fps, _, _) <- _get_file_fps_frames_duration_pillow file false ;;
    Ok fps
  else
    ' (frames, duration) <- _get_file_frames_duration_av file (Some 10) false ;;
    if 0 <? duration then
      r <- int_truediv frames duration ;;
      py_mul (PFloat r) (PInt 1000)
    else Ok (PInt 0).

Definition get_file_frames (file : File) (file_ext : option string) (check_anim : bool)
  : result Z :=
  let file_ext := resolve_ext file file_ext in
  if String.eqb file_ext ".tgs" then _get_file_frames_tgs file
  else if ext_in file_ext [".gif"; ".webp"; ".png"; ".apng"]%string then
    ' (_, frames, _) <- _get_file_fps_frames_duration_pillow file true ;;
    Ok frames
  else
    let frames_to_iterate := if check_anim then Some 2 else None in
    ' (frames, _) <- _get_file_frames_duration_av file frames_to_iterate true ;;
    Ok frames.

(** The duration in milliseconds. *)
Definition get_file_duration (file : File) (file_ext : option string) : result pyval :=
  let file_ext := resolve_ext file file_ext in
  if String.eqb file_ext ".tgs" then
    ' (fps, frames) <- _get_file_fps_frames_tgs file ;;
    duration <-
      (if py_ltb (PInt 0) (PFloat fps) then
         r <- py_truediv (PInt frames) (PFloat fps) ;;
         v <- py_mul r (PInt 1000) ;;
         py_int v
       else Ok 0) ;;
    Ok (PInt duration)
  else if String.eqb file_ext ".webp" then
    ' (_, _, duration) <- _get_file_fps_frames_duration_webp file ;;
    Ok duration
  else if ext_in file_ext [".gif"; ".png"; ".apng"]%string then
    ' (_, _, duration) <- _get_file_fps_frames_duration_pillow file false ;;
    Ok duration
  else
    ' (_, duration) <- _get_file_frames_duration_av file None false ;;
    Ok (PInt duration).

Definition is_anim (file : File) : result bool :=
  frames <- get_file_frames file None true ;;
  Ok (if 1 <? frames then true else false).

(** [s.replace(".", "")] *)
Fixpoint remove_dots (s : string) : string :=
  match s with
  | EmptyString => EmptyString
  | String c rest => if Ascii.eqb c "." then remove_dots rest else String c (remove_dots rest)
  end.

Definition get_file_codec (file : File) (file_ext : option string) : result string :=
  let file_ext := resolve_ext file file_ext in
  if ext_in file_ext [".tgs"; ".lottie"; ".json"]%string then Ok (remove_dots file_ext)
  else
    ' (codec, animated) <-
      match Image_open file with
      | Ok im =>
          Ok (format im,
              match is_animated_attr im with Some a => a | None => false end)
      | Raise UnidentifiedImageError => Ok (None, false)
      | Raise e => Raise e
      end ;;
    match codec with
    | Some c =>
        if String.eqb c "PNG" then Ok (if animated then "apng" else "png")%string
        else Ok (lower c)
    | None =>
        match av_open file with
        | Ok container =>
            stream <- getitem (streams_video container) 0 ;;
            Ok (lower (codec_name stream))
        | Raise InvalidDataError => Ok ""%string
        | Raise e => Raise e
        end
    end.

Definition get_file_res (file : File) (file_ext : option string) : result (Z * Z) :=
  let file_ext := resolve_ext file file_ext in
  if String.eqb file_ext ".tgs" then
    anim <- from_tgs file ;; Ok (lottie_animation_get_size anim)
  else if ext_in file_ext [".webp"; ".png"; ".apng"]%string then
    im <- Image_open file ;; Ok (im_width im, im_height im)
  else
    container <- av_open file ;;
    stream <- getitem (streams_video container) 0 ;;
    Ok (stream_width stream, stream_height stream).

(** The attributes [__init__] sets. *)
Record CodecInfo : Type := {
  file_ext : string;
  fps : pyval;
  frames : Z;
  duration : pyval;
  codec : string;
  res : Z * Z;
  is_animated : bool
}.

(** [CodecInfo(file, file_ext)] *)
Definition CodecInfo_init (file : File) (ext : option string) : result CodecInfo :=
  let self_file_ext :=
    match ext with
    | None => get_file_ext file
    | Some e => e
    end in
  ' (self_fps, self_frames, self_duration) <- get_file_fps_frames_duration file None ;;
  self_codec <- get_file_codec file None ;;
  self_res <- get_file_res file None ;;
  Ok {| file_ext := self_file_ext;
        fps := self_fps;
        frames := self_frames;
        duration := self_duration;
        codec := self_codec;
        res := self_res;
        is_animated := py_ltb (PInt 1) self_fps |}.

(** * The vocabulary of the statements *)

(** The extensions the facade sends to the decode-fallback strategy. *)
Definition av_ext (e : string) : bool :=
  negb (String.eqb e ".tgs") && negb (String.eqb e ".webp")
  && negb (ext_in e [".gif"; ".apng"; ".png"]%string).

(** A printed number without a decimal point. *)
Fixpoint no_dot (s : string) : bool :=
  match s with
  | EmptyString => true
  | String c rest => negb (Ascii.eqb c ".") && no_dot rest
  end.

(** The first five printed digits of a fractional part, zero-padded. *)
Definition first_five (fp : string) : string := ljust0 5 (substring 0 5 fp).

(** The per-frame durations in the order the scan meets them: the same
    loop as [anmf_loop], collecting each decoded duration. *)
Fixpoint frame_durations_loop (fuel : nat) (data : list byte) (pos : nat)
  : option (result (list Z)) :=
  match fuel with
  | O => None
  | S fuel' =>
      match mm_find data pos ANMF with
      | None => Some (Ok [])
      | Some anmf_pos =>
          match mm_seek data (anmf_pos + 20) with
          | Raise e => Some (Raise e)
          | Ok pos1 =>
              let frame_duration_32 := mm_read data pos1 4 in
              match frame_duration_of frame_duration_32 with
              | Raise e => Some (Raise e)
              | Ok frame_duration =>
                  match frame_durations_loop fuel' data
                          (pos1 + List.length frame_duration_32) with
                  | Some (Ok ds) => Some (Ok (frame_duration :: ds))
                  | other => other
                  end
              end
          end
      end
  end.

Definition frame_durations (data : list byte) : result (list Z) :=
  match data with
  | [] => Raise ValueError
  | _ :: _ =>
      match frame_durations_loop (S (List.length data)) data 0 with
      | Some r => r
      | None => Ok []
      end
  end.

Definition scan_of (fds : list Z) : scan := fold_left scan_step fds (mkScan 0 0 []).

Definition sum_of (zs : list Z) : Z := fold_right Z.add 0 zs.

(** The distinct non-zero durations, in order of first appearance. *)
Definition distinct_durations (fds : list Z) : list Z := scan_durations (scan_of fds).

(** The extensions [get_file_frames] sends to the decode-fallback strategy. *)
Definition frames_av_ext (e : string) : bool :=
  negb (String.eqb e ".tgs")
  && negb (ext_in e [".gif"; ".webp"; ".png"; ".apng"]%string).

(** The extensions [get_file_res] sends to PyAV. *)
Definition res_av_ext (e : string) : bool :=
  negb (String.eqb e ".tgs") && negb (ext_in e [".webp"; ".png"; ".apng"]%string).

(** The frames the decode loop assigns to [last_frame] before it stops. *)
Definition frames_kept (frames_to_iterate : option Z) (frames : list VideoFrame)
  : list VideoFrame :=
  match frames_to_iterate with
  | Some k => firstn (Z.to_nat k) frames
  | None => frames
  end.

(** The same file under another name. *)
Definition with_suffix (file : File) (s : string) : File :=
  {| suffix := s;
     content := content file;
     from_tgs := from_tgs file;
     Image_open := Image_open file;
     av_open := av_open file |}.

(** The vocabulary of the properties of [lower]. *)

(** A byte value. *)
Definition is_byte (b : Z) : Prop := 0 <= b < 256.

(** The lone surrogates that stand for undecodable bytes. *)
Definition escape (c : Z) : bool := (0xDC80 <=? c) && (c <=? 0xDCFF).

(** A Unicode scalar value: a code point that is not a surrogate. *)
Definition scalar (c : Z) : Prop := 0 <= c < 0xD800 \/ 0xE000 <= c <= 0x10FFFF.

Definition scalarb (c : Z) : bool :=
  ((0 <=? c) && (c <? 0xD800)) || ((0xE000 <=? c) && (c <=? 0x10FFFF)).

(** What [utf8_decode] produces: scalar values and escaped bytes. *)
Definition decoded_code_point (c : Z) : Prop := scalar c \/ escape c = true.

(** A list of code points that [utf8_decode] can have produced: no escaped
    byte starts a well-formed sequence together with what follows it. *)
Fixpoint canonical (u : list Z) : Prop :=
  match u with
  | [] => True
  | c :: rest =>
      (escape c = true -> utf8_head ((c - 0xDC00) :: utf8_encode rest) = None)
      /\ canonical rest
  end.

(** The leading continuation bytes. *)
Fixpoint continuation_prefix (bs : list Z) : list Z :=
  match bs with
  | [] => []
  | b :: rest => if cont b then b :: continuation_prefix rest else []
  end.

(** The pairs (code point, lowercase) a progression stands for. *)
Definition progression_pairs (r : Z * Z * Z * Z) : list (Z * Z) :=
  let '(first, last, step, delta) := r in
  map (fun i => (first + step * Z.of_nat i, first + step * Z.of_nat i + delta))
      (seq 0 (S (Z.to_nat ((last - first) / step)))).

Definition lowercase_pairs : list (Z * Z) :=
  flat_map progression_pairs lowercase_ranges.

(** A code point [str.lower] leaves alone. *)
Definition lowercase_fixed (d : Z) : bool :=
  negb (d =? 0x3A3) && negb (d =? 0x130)
  && match lowercase_delta d with Some _ => false | None => true end.

(** * Example inputs *)

(** An [ANMF] chunk as the scan reads it: the marker, sixteen bytes up to
    offset 20 (chunk size, frame position and size), and the four bytes
    holding the frame duration and the flags byte. *)
Definition anmf_chunk (duration_field : list byte) : list byte :=
  ANMF ++ repeat x00 16 ++ duration_field.

(** The twelve bytes of a RIFF header, [RIFF], a size, [WEBP]. *)
Definition riff_header : list byte :=
  [x52; x49; x46; x46; x00; x00; x00; x00; x57; x45; x42; x50].

Definition webp_file (data : list byte) : File :=
  {| suffix := ".webp";
     content := data;
     from_tgs := Raise OSError;
     Image_open := Raise UnidentifiedImageError;
     av_open := Raise InvalidDataError |}.

(** Five frames of 100 ms each. *)
Definition webp_uniform_100 : File :=
  let c := anmf_chunk [x64; x00; x00; x00] in
  webp_file (riff_header ++ c ++ c ++ c ++ c ++ c).

(** One frame of 100 ms. *)
Definition webp_single_100 : File :=
  webp_file (riff_header ++ anmf_chunk [x64; x00; x00; x00]).

(** Two frames of 9 ms each. *)
Definition webp_uniform_9 : File :=
  let c := anmf_chunk [x09; x00; x00; x00] in
  webp_file (riff_header ++ c ++ c).

(** Two frames whose duration field is zero. *)
Definition webp_zero_durations : File :=
  let c := anmf_chunk [x00; x00; x00; x00] in
  webp_file (riff_header ++ c ++ c).

(** What Pillow reports for an image of the given per-frame [duration]
    entries; PyAV reads the same picture as one video stream. *)
Definition pillow_file (ext fmt : string) (infos : list (option pyval)) : File :=
  {| suffix := ext;
     content := [x00];
     from_tgs := Raise OSError;
     Image_open := Ok {| n_frames_attr := true;
                         frame_info := infos;
                         format := Some fmt;
                         is_animated_attr := Some (1 <? Z.of_nat (List.length infos));
                         im_width := 512;
                         im_height := 512 |};
     av_open := Ok {| container_duration := None;
                      streams_video :=
                        [ {| stream_frames := Z.of_nat (List.length infos);
                             decoded := [];
                             codec_name := lower fmt;
                             stream_width := 512;
                             stream_height := 512 |} ] |} |}.

(** A static PNG: one frame, no [duration] entry. *)
Definition static_png : File := pillow_file ".png" "PNG" [None].

(** A one-frame GIF that carries a delay of 100 ms. *)
Definition single_frame_gif : File := pillow_file ".gif" "GIF" [Some (PInt 100)].

(** An APNG of two frames shown for one second each (Pillow reports the
    delays of an APNG as floats). *)
Definition slow_apng : File :=
  pillow_file ".png" "PNG" [Some (PFloat 1000); Some (PFloat 1000)].

(** A video stream of [n] frames 40 ms apart, time base 1/1000 s, in a
    container whose metadata gives [meta] as duration and no frame count. *)
Definition video_file (meta : option Z) (n : nat) : File :=
  {| suffix := ".webm";
     content := [x00];
     from_tgs := Raise OSError;
     Image_open := Raise UnidentifiedImageError;
     av_open :=
       Ok {| container_duration := meta;
             streams_video :=
               [ {| stream_frames := 0;
                    decoded := map (fun i => {| pts := Some (40 * Z.of_nat i);
                                                time_base := mkFraction 1 1000 |})
                                   (seq 0 n);
                    codec_name := "vp9";
                    stream_width := 512;
                    stream_height := 512 |} ] |} |}.

(** A file no library can open. *)
Definition unreadable_video : File :=
  {| suffix := ".webm";
     content := [x00];
     from_tgs := Raise OSError;
     Image_open := Raise UnidentifiedImageError;
     av_open := Raise InvalidDataError |}.

(** Frames of 40 ms and 100 ms: two distinct durations, tick 20 ms. *)
Definition webp_mixed : File :=
  webp_file (riff_header ++ anmf_chunk [x28; x00; x00; x00]
                         ++ anmf_chunk [x64; x00; x00; x00]
                         ++ anmf_chunk [x28; x00; x00; x00]).

(** A container PyAV opens but that holds no video stream. *)
Definition audio_only : File :=
  {| suffix := ".mp3";
     content := [x00];
     from_tgs := Raise OSError;
     Image_open := Raise UnidentifiedImageError;
     av_open := Ok {| container_duration := Some 1000000; streams_video := [] |} |}.

(** A vector animation with the frame rate and frame count rlottie reports
    for it; the name has its suffix in capitals. *)
Definition tgs_file (fps : float) (frames : Z) : File :=
  {| suffix := ".TGS";
     content := [x00];
     from_tgs := Ok {| lottie_animation_get_framerate := fps;
                       lottie_animation_get_totalframe := frames;
                       lottie_animation_get_size := (512, 512) |};
     Image_open := Raise UnidentifiedImageError;
     av_open := Raise InvalidDataError |}.

(** Decoded frames 40 ms apart, time base 1/1000 s. *)
Definition frames_40ms (n : nat) : list VideoFrame :=
  map (fun i => {| pts := Some (40 * Z.of_nat i); time_base := mkFraction 1 1000 |})
      (seq 0 n).

(** * Properties *)

(** ** The result monad *)

Lemma bind_Ok {A B : Type} (a : A) (k : A -> result B) : bind (Ok a) k = k a.
Proof. reflexivity. Qed.

Lemma bind_assoc {A B C : Type} (r : result A) (k : A -> result B) (h : B -> result C) :
  bind (bind r k) h = bind r (fun a => bind (k a) h).
Proof. destruct r; reflexivity. Qed.

(** ** Rational duration algebra *)

Section FractionGcd.

Lemma lcm_is_Zlcm (b d : Z) : 0 < b -> 0 < d -> lcm b d = Ok (Z.lcm b d).
Proof.
  intros Hb Hd. unfold lcm.
  assert (Hg : 0 < Z.gcd b d).
  { pose proof (Z.gcd_nonneg b d) as Hn.
    destruct (Z.eq_dec (Z.gcd b d) 0) as [E | E]; [| lia].
    apply Z.gcd_eq_0_l in E. lia. }
  destruct (Z.eqb_spec (Z.gcd b d) 0) as [E | _]; [lia |].
  f_equal. unfold Z.lcm.
  rewrite (Z.abs_eq (b * d)) by nia.
  rewrite (Z.divide_div_mul_exact d (Z.gcd b d) b) by (try lia; apply Z.gcd_divide_r).
  rewrite Z.abs_eq; [reflexivity |].
  apply Z.mul_nonneg_nonneg; [lia | apply Z.div_pos; lia].
Qed.

Lemma Fraction_new_lowest (n d : Z) :
  0 < d -> Z.gcd n d = 1 -> Fraction_new n d = Ok (mkFraction n d).
Proof.
  intros Hd Hg. unfold Fraction_new.
  destruct (Z.eqb_spec d 0) as [E | _]; [lia |].
  destruct (Z.ltb_spec d 0) as [E | _]; [lia |].
  rewrite Hg, !Z.div_1_r. reflexivity.
Qed.

Lemma coprime_divisor (d p q : Z) :
  (d | p) -> Z.gcd p q = 1 -> Z.gcd d q = 1.
Proof.
  intros Hd Hg.
  apply Z.divide_1_r_nonneg; [apply Z.gcd_nonneg |].
  rewrite <- Hg. apply Z.gcd_greatest.
  - apply Z.divide_trans with d; [apply Z.gcd_divide_l | assumption].
  - apply Z.gcd_divide_r.
Qed.

Lemma gcd_lcm_coprime (a b c d : Z) :
  Z.gcd a b = 1 -> Z.gcd c d = 1 -> Z.gcd (Z.gcd a c) (Z.lcm b d) = 1.
Proof.
  intros Hab Hcd.
  rewrite Z.gcd_comm.
  apply coprime_divisor with (p := b * d).
  - apply Z.lcm_least; [apply Z.divide_factor_l | apply Z.divide_factor_r].
  - rewrite Z.gcd_comm. apply Z.coprime_mul_r; unfold Z.coprime.
    + apply coprime_divisor with (p := a); [apply Z.gcd_divide_l | assumption].
    + apply coprime_divisor with (p := c); [apply Z.gcd_divide_r | assumption].
Qed.

Lemma lcm_pos (b d : Z) : 0 < b -> 0 < d -> 0 < Z.lcm b d.
Proof.
  intros Hb Hd. pose proof (Z.lcm_nonneg b d) as Hn.
  destruct (Z.eq_dec (Z.lcm b d) 0) as [E | E]; [| lia].
  apply Z.lcm_eq_0 in E. lia.
Qed.

Lemma fraction_gcd_lowest (x y : Fraction) :
  lowest_terms x -> lowest_terms y ->
  fraction_gcd x y =
    Ok (mkFraction (Z.gcd (numerator x) (numerator y))
                   (Z.lcm (denominator x) (denominator y))).
Proof.
  intros [Hx Gx] [Hy Gy]. unfold fraction_gcd.
  rewrite lcm_is_Zlcm by assumption. cbn [bind].
  apply Fraction_new_lowest.
  - now apply lcm_pos.
  - now apply gcd_lcm_coprime.
Qed.

Lemma fraction_gcd_closed (x y g : Fraction) :
  lowest_terms x -> lowest_terms y -> fraction_gcd x y = Ok g -> lowest_terms g.
Proof.
  intros Hx Hy E. rewrite (fraction_gcd_lowest x y Hx Hy) in E.
  injection E as <-. destruct Hx as [Hx Gx], Hy as [Hy Gy].
  split; cbn; [now apply lcm_pos | now apply gcd_lcm_coprime].
Qed.

Lemma fraction_gcd_comm (x y : Fraction) :
  lowest_terms x -> lowest_terms y -> fraction_gcd x y = fraction_gcd y x.
Proof.
  intros Hx Hy. rewrite !fraction_gcd_lowest by assumption.
  now rewrite Z.gcd_comm, Z.lcm_comm.
Qed.

Lemma fraction_gcd_assoc (x y z : Fraction) :
  lowest_terms x -> lowest_terms y -> lowest_terms z ->
  (g <- fraction_gcd x y ;; fraction_gcd g z) =
  (h <- fraction_gcd y z ;; fraction_gcd x h).
Proof.
  intros Hx Hy Hz.
  pose proof (fraction_gcd_closed x y _ Hx Hy (fraction_gcd_lowest x y Hx Hy)) as Hxy.
  pose proof (fraction_gcd_closed y z _ Hy Hz (fraction_gcd_lowest y z Hy Hz)) as Hyz.
  rewrite (fraction_gcd_lowest x y), (fraction_gcd_lowest y z) by assumption.
  cbn [bind]. rewrite !fraction_gcd_lowest by assumption. cbn.
  now rewrite Z.gcd_assoc, Z.lcm_assoc.
Qed.

(** Swapping two neighbours of the folded list does not change the fold. *)
Lemma fraction_gcd_swap (g x y : Fraction) :
  lowest_terms g -> lowest_terms x -> lowest_terms y ->
  (a <- fraction_gcd g x ;; fraction_gcd a y) =
  (a <- fraction_gcd g y ;; fraction_gcd a x).
Proof.
  intros Hg Hx Hy.
  rewrite (fraction_gcd_assoc g x y), (fraction_gcd_assoc g y x) by assumption.
  now rewrite (fraction_gcd_comm x y).
Qed.

Lemma fractions_gcd_loop_perm (l l' : list Fraction) :
  Permutation l l' -> Forall lowest_terms l ->
  forall g, lowest_terms g -> fractions_gcd_loop g l = fractions_gcd_loop g l'.
Proof.
  induction 1 as [| x l l' HP IH | x y l | l l' l'' HP1 IH1 HP2 IH2]; intros HF g Hg.
  - reflexivity.
  - inversion HF as [| ? ? Hx HF']; subst. cbn.
    rewrite (fraction_gcd_lowest g x Hg Hx). cbn [bind].
    apply IH; [assumption |].
    exact (fraction_gcd_closed g x _ Hg Hx (fraction_gcd_lowest g x Hg Hx)).
  - inversion HF as [| ? ? Hy HF']; subst.
    inversion HF' as [| ? ? Hx HF'']; subst. cbn.
    rewrite <- !bind_assoc. now rewrite (fraction_gcd_swap g y x).
  - rewrite IH1 by assumption. apply IH2; [| assumption].
    eapply Permutation_Forall; eassumption.
Qed.

Lemma fractions_gcd_perm (l l' : list Fraction) :
  Permutation l l' -> Forall lowest_terms l -> fractions_gcd l = fractions_gcd l'.
Proof.
  induction 1 as [| x l l' HP _ | x y l | l l' l'' HP1 IH1 HP2 IH2]; intros HF.
  - reflexivity.
  - inversion HF; subst. cbn. now apply fractions_gcd_loop_perm.
  - inversion HF as [| ? ? Hy HF']; subst.
    inversion HF' as [| ? ? Hx HF'']; subst. cbn.
    now rewrite (fraction_gcd_comm y x).
  - rewrite IH1 by assumption. apply IH2.
    eapply Permutation_Forall; eassumption.
Qed.

Lemma Fraction_of_int_lowest (z : Z) : lowest_terms (Fraction_of_int z).
Proof. split; cbn; [lia | apply Z.gcd_1_r]. Qed.

Lemma fractions_gcd_loop_ints (zs : list Z) (g : Z) :
  fractions_gcd_loop (Fraction_of_int g) (map Fraction_of_int zs) =
    Ok (Fraction_of_int (fold_left Z.gcd zs g)).
Proof.
  revert g. induction zs as [| z zs IH]; intros g; [reflexivity |].
  cbn [map fractions_gcd_loop].
  rewrite fraction_gcd_lowest by apply Fraction_of_int_lowest.
  cbn. change (mkFraction (Z.gcd g z) 1) with (Fraction_of_int (Z.gcd g z)).
  apply IH.
Qed.

Lemma fold_left_gcd (zs : list Z) (g : Z) :
  0 <= g -> fold_left Z.gcd zs g = Z.gcd g (gcd_of zs).
Proof.
  revert g. induction zs as [| z zs IH]; intros g Hg; cbn.
  - rewrite Z.gcd_0_r. symmetry. now apply Z.abs_eq.
  - rewrite IH by apply Z.gcd_nonneg. now rewrite Z.gcd_assoc.
Qed.

End FractionGcd.

(** ** Fractions in lowest terms *)

Section LowestTerms.

(** [Fraction(n, d)] is the fraction in lowest terms equal to [n / d]. *)
Lemma Fraction_new_spec (n d : Z) :
  d <> 0 ->
  exists q, Fraction_new n d = Ok q /\ lowest_terms q
            /\ numerator q * d = n * denominator q.
Proof.
  intros Hd. unfold Fraction_new.
  destruct (Z.eqb_spec d 0) as [E | _]; [contradiction |].
  set (g := Z.gcd n d).
  assert (Hg : 0 < g).
  { pose proof (Z.gcd_nonneg n d) as Hn. fold g in Hn.
    destruct (Z.eq_dec g 0) as [E | E]; [| lia].
    apply Z.gcd_eq_0_r in E. contradiction. }
  destruct (Z.gcd_divide_l n d) as [a Ha]. destruct (Z.gcd_divide_r n d) as [b Hb].
  fold g in Ha, Hb.
  assert (Hco : Z.gcd a b = 1).
  { pose proof (Z.gcd_div_gcd n d g ltac:(lia) eq_refl) as H.
    rewrite Ha in H at 1. rewrite Hb in H at 1.
    now rewrite !Z.div_mul in H by lia. }
  destruct (Z.ltb_spec d 0) as [Hneg | Hpos].
  - eexists. split; [reflexivity |].
    replace (n / - g) with (- a) by (rewrite Ha; rewrite <- Z.mul_opp_opp, Z.div_mul; lia).
    replace (d / - g) with (- b) by (rewrite Hb; rewrite <- Z.mul_opp_opp, Z.div_mul; lia).
    split; [split |]; cbn [numerator denominator].
    + nia.
    + now rewrite Z.gcd_opp_l, Z.gcd_opp_r.
    + rewrite Ha, Hb. ring.
  - eexists. split; [reflexivity |].
    replace (n / g) with a by (rewrite Ha, Z.div_mul; lia).
    replace (d / g) with b by (rewrite Hb, Z.div_mul; lia).
    split; [split |]; cbn [numerator denominator].
    + nia.
    + assumption.
    + rewrite Ha, Hb. ring.
Qed.

(** Two fractions in lowest terms that are equal as rationals are the same
    record. *)
Lemma lowest_terms_unique (q q' : Fraction) :
  lowest_terms q -> lowest_terms q' ->
  numerator q * denominator q' = numerator q' * denominator q ->
  q = q'.
Proof.
  destruct q as [a b], q' as [a' b']. unfold lowest_terms. cbn [numerator denominator].
  intros [Hb Hg] [Hb' Hg'] E.
  assert (Hbb : b = b').
  { apply Z.divide_antisym_nonneg; try lia.
    - apply Z.gauss with (m := a); [| now rewrite Z.gcd_comm].
      exists a'. lia.
    - apply Z.gauss with (m := a'); [| now rewrite Z.gcd_comm].
      exists a. lia. }
  subst b'. f_equal. nia.
Qed.

End LowestTerms.

(** C7.  For two fractions in lowest terms, [fraction_gcd x y] is the
    fraction with numerator [gcd] of the numerators and denominator [lcm] of
    the denominators; the operation is commutative and associative; and the
    left-to-right fold [fractions_gcd] over a non-empty list of positive
    integer durations returns the same tick, the gcd of the durations over
    1, for every permutation of the list. *)
Theorem fraction_gcd_algebra :
  (forall x y, lowest_terms x -> lowest_terms y ->
     fraction_gcd x y =
       Ok (mkFraction (Z.gcd (numerator x) (numerator y))
                      (Z.lcm (denominator x) (denominator y))))
  /\ (forall x y, lowest_terms x -> lowest_terms y ->
        fraction_gcd x y = fraction_gcd y x)
  /\ (forall x y z, lowest_terms x -> lowest_terms y -> lowest_terms z ->
        (g <- fraction_gcd x y ;; fraction_gcd g z) =
        (h <- fraction_gcd y z ;; fraction_gcd x h))
  /\ (forall D D', D <> [] -> Forall (fun d => 0 < d) D -> Permutation D D' ->
        fractions_gcd (map Fraction_of_int D) = Ok (Fraction_of_int (gcd_of D))
        /\ fractions_gcd (map Fraction_of_int D') =
           fractions_gcd (map Fraction_of_int D)).
Proof.
  split; [exact fraction_gcd_lowest |].
  split; [exact fraction_gcd_comm |].
  split; [exact fraction_gcd_assoc |].
  intros D D' Hne Hpos HP. split.
  - destruct D as [| d ds]; [contradiction |].
    inversion Hpos as [| ? ? Hd _]; subst.
    cbn [map fractions_gcd]. rewrite fractions_gcd_loop_ints.
    now rewrite fold_left_gcd by lia.
  - symmetry. apply fractions_gcd_perm.
    + now apply Permutation_map.
    + apply Forall_forall. intros q Hq. apply in_map_iff in Hq as [z [<- _]].
      apply Fraction_of_int_lowest.
Qed.

Lemma fraction_gcd_algebra_witness :
  fractions_gcd (map Fraction_of_int [100; 40; 60]) = Ok (Fraction_of_int 20)
  /\ fractions_gcd (map Fraction_of_int [60; 100; 40]) =
     fractions_gcd (map Fraction_of_int [100; 40; 60]).
Proof.
  apply (proj2 (proj2 (proj2 fraction_gcd_algebra)) [100; 40; 60] [60; 100; 40]).
  - discriminate.
  - repeat constructor.
  - apply Permutation_sym, (Permutation_cons_app [100; 40] [] 60).
    rewrite app_nil_r. apply Permutation_refl.
Defined.

(** ** [likely_int] *)

Section SplitDot.

Lemma append_assoc (a b c : string) : ((a ++ b) ++ c = a ++ (b ++ c))%string.
Proof. induction a as [| x a IH]; cbn; [reflexivity | now rewrite IH]. Qed.

Lemma append_nil_r (a : string) : (a ++ "" = a)%string.
Proof. induction a as [| x a IH]; cbn; [reflexivity | now rewrite IH]. Qed.

Lemma split_dot_aux_no_dot (s cur : string) :
  no_dot s = true -> split_dot_aux s cur = [(cur ++ s)%string].
Proof.
  revert cur. induction s as [| c s IH]; intros cur H; cbn in *.
  - now rewrite append_nil_r.
  - apply andb_prop in H as [Hc Hs]. apply negb_true_iff in Hc. rewrite Hc.
    rewrite IH by assumption. now rewrite append_assoc.
Qed.

Lemma split_dot_aux_segment (ip rest cur : string) :
  no_dot ip = true ->
  split_dot_aux (ip ++ String "." rest) cur = (cur ++ ip)%string :: split_dot_aux rest "".
Proof.
  revert cur. induction ip as [| c ip IH]; intros cur H; cbn in *.
  - now rewrite append_nil_r.
  - apply andb_prop in H as [Hc Hs]. apply negb_true_iff in Hc. rewrite Hc.
    rewrite IH by assumption. now rewrite append_assoc.
Qed.

Lemma split_dot_positional (ip fp : string) :
  no_dot ip = true -> no_dot fp = true ->
  split_dot (ip ++ String "." fp) = [ip; fp].
Proof.
  intros Hi Hf. unfold split_dot.
  rewrite split_dot_aux_segment by assumption.
  now rewrite split_dot_aux_no_dot by assumption.
Qed.

End SplitDot.

Lemma likely_int_float_positional (f : float) (ip fp : string) :
  str_float f = (ip ++ String "." fp)%string ->
  no_dot ip = true -> no_dot fp = true ->
  likely_int (PFloat f) =
    Ok (String.eqb (first_five fp) "99999" || String.eqb (first_five fp) "00000").
Proof.
  intros Hs Hi Hf. unfold likely_int, get_five_dec_place. cbn [isinstance_int str].
  rewrite Hs, split_dot_positional by assumption. cbn [getitem nth_error bind].
  fold (first_five fp).
  now destruct (String.eqb (first_five fp) "99999" || String.eqb (first_five fp) "00000").
Qed.

Lemma likely_int_float_no_dot (f : float) :
  no_dot (str_float f) = true -> likely_int (PFloat f) = Raise IndexError.
Proof.
  intros H. unfold likely_int, get_five_dec_place, split_dot. cbn [isinstance_int str].
  now rewrite split_dot_aux_no_dot by assumption.
Qed.

(** C9 (as amended).  [likely_int] is [True] for every [int].  For a float
    whose [str] has a point, in positional notation ([12.345]) or in
    exponent notation ([1.5e-07]), it is [True] exactly when the first five
    characters printed after the point, zero-padded to five, are [00000] or
    [99999]: [False] for [12.345] and for [1.5e-07] (the text after the
    point is [5e-07]), [True] for [1.000001e-07] and [1.99999e+20].  For a
    float whose [str] has no point it raises [IndexError]. *)
Theorem likely_int_printed_digits :
  (forall z, likely_int (PInt z) = Ok true)
  /\ (forall f ip fp,
        str_float f = (ip ++ String "." fp)%string ->
        no_dot ip = true -> no_dot fp = true ->
        (first_five fp = "00000"%string \/ first_five fp = "99999"%string ->
         likely_int (PFloat f) = Ok true)
        /\ (first_five fp <> "00000"%string /\ first_five fp <> "99999"%string ->
            likely_int (PFloat f) = Ok false))
  /\ (forall f, no_dot (str_float f) = true -> likely_int (PFloat f) = Raise IndexError)
  /\ likely_int (PFloat 12.345) = Ok false
  /\ (str_float 1.5e-07 = "1.5e-07"%string
      /\ likely_int (PFloat 1.5e-07) = Ok false)
  /\ (str_float 1.000001e-07 = "1.000001e-07"%string
      /\ likely_int (PFloat 1.000001e-07) = Ok true)
  /\ (str_float 1.99999e+20 = "1.99999e+20"%string
      /\ likely_int (PFloat 1.99999e+20) = Ok true).
Proof.
  split; [reflexivity |].
  split; [| split; [exact likely_int_float_no_dot |
                    repeat split; vm_compute; reflexivity]].
  intros f ip fp Hs Hi Hf.
  rewrite (likely_int_float_positional f ip fp Hs Hi Hf).
  split.
  - intros [E | E]; rewrite E; reflexivity.
  - intros [E0 E9].
    apply String.eqb_neq in E0, E9. now rewrite E0, E9.
Qed.

Lemma likely_int_printed_digits_witness :
  likely_int (PFloat 41.99999) = Ok true /\ likely_int (PFloat 7) = Ok true.
Proof.
  split.
  - apply (proj1 (proj1 (proj2 likely_int_printed_digits)
                    41.99999%float "41"%string "99999"%string
                    ltac:(vm_compute; reflexivity) eq_refl eq_refl)).
    right. reflexivity.
  - apply (proj1 (proj1 (proj2 likely_int_printed_digits)
                    7%float "7"%string "0"%string
                    ltac:(vm_compute; reflexivity) eq_refl eq_refl)).
    left. reflexivity.
Defined.

(** C9, where the claim fails: [1e16] is an exact integer, printed as
    [1e+16], and [likely_int] raises [IndexError] on it; the fractional part
    of [1.5e-07] begins with the decimal digits [00000] and [likely_int]
    answers [False], because it reads the printed text [5e-07]. *)
Lemma likely_int_exponent_notation :
  py_eqb (PFloat 1e16) (PInt (10 ^ 16)) = true
  /\ str_float 1e16 = "1e+16"%string
  /\ likely_int (PFloat 1e16) = Raise IndexError
  /\ str_float 1.5e-07 = "1.5e-07"%string
  /\ likely_int (PFloat 1.5e-07) = Ok false.
Proof. vm_compute. repeat split. Qed.

(** ** [durations_gcd] *)

(** The test of the integer branch holds as soon as no sample is zero,
    whatever [likely_int] says of the samples. *)
Lemma all_where_likely_int_nonzero (durations : list pyval) :
  Forall (fun i => truth i = true) durations ->
  Forall (fun i => exists b, likely_int i = Ok b) durations ->
  all_where_likely_int durations = Ok true.
Proof.
  induction durations as [| i rest IH]; intros Ht Hl; [reflexivity |].
  inversion Ht as [| ? ? Hi Ht']; subst. inversion Hl as [| ? ? [b Hb] Hl']; subst.
  cbn [all_where_likely_int]. rewrite Hb. cbn [bind]. rewrite Hi.
  destruct b; now apply IH.
Qed.

(** C5 (the code departs from the claim).  The durations of 30 fps content,
    [1000/30] and [2000/30] ms, are floats, neither passes [likely_int], and
    the denominator 3 fits both, giving the tick [100/3]; yet [durations_gcd]
    takes the integer branch and returns [gcd(33, 67) / 1 = 1]: its test
    [all(i for i in durations if likely_int(i))] holds whenever no sample
    that passes [likely_int] is zero. *)
Theorem durations_gcd_skips_denominators :
  let durations := [PFloat 33.333333333333336; PFloat 66.66666666666667] in
  mapM likely_int durations = Ok [false; false]
  /\ all_where_likely_int durations = Ok true
  /\ probe_denominators denominators durations = Ok (PFrac (mkFraction 100 3))
  /\ durations_gcd durations = Ok (PFrac (mkFraction 1 1)).
Proof. vm_compute. repeat split. Qed.

(** ** Pillow strategy *)

(** C1 (the code departs from the claim).  A static PNG, one frame and no
    [duration] entry, comes back as [(1.0, 1, 1000.0)], and a one-frame GIF
    with a delay of 100 ms as [(10.0, 1, 100.0)], so it counts as animated;
    only a delay of zero gives [(0.0, 1, 0.0)]. *)
Theorem pillow_single_frame_keeps_duration :
  _get_file_fps_frames_duration_pillow static_png false
    = Ok (PFloat 1, 1, PFloat 1000)
  /\ _get_file_fps_frames_duration_pillow single_frame_gif false
    = Ok (PFloat 10, 1, PFloat 100)
  /\ (ci <- CodecInfo_init single_frame_gif None ;; Ok (is_animated ci)) = Ok true
  /\ _get_file_fps_frames_duration_pillow (pillow_file ".gif" "GIF" [Some (PInt 0)]) false
    = Ok (PFloat 0, 1, PFloat 0).
Proof. vm_compute. repeat split. Qed.

(** ** Chunked raster strategy *)

Lemma int_from_bytes_little_zeros (bs : list byte) (n : nat) :
  int_from_bytes_little (bs ++ repeat x00 n) = int_from_bytes_little bs.
Proof.
  induction bs as [| b bs IH]; cbn [app int_from_bytes_little].
  - induction n as [| n IHn]; cbn; [reflexivity |].
    cbn in IHn. rewrite IHn. reflexivity.
  - now rewrite IH.
Qed.

(** C4 (the code departs from the claim).  The duration decoded from the
    four bytes at offset 20 is the little-endian value of the first three
    bytes alone: the masked fourth byte only sets how many zero bytes are
    appended, so its top six bits never enter the value.  For the field
    [00 00 00 04] the code gives 0 where the masked four-byte reading is
    [4 * 2^24]. *)
Theorem frame_duration_ignores_fourth_byte :
  (forall b0 b1 b2 b3 : byte,
     frame_duration_of [b0; b1; b2; b3] = Ok (int_from_bytes_little [b0; b1; b2]))
  /\ frame_duration_of [x00; x00; x00; x04] = Ok 0
  /\ int_from_bytes_little [x00; x00; x00; x04] = 67108864.
Proof.
  split; [| split; reflexivity].
  intros b0 b1 b2 b3. unfold frame_duration_of, bytes_of_int.
  cbn [removelast]. now rewrite int_from_bytes_little_zeros.
Qed.

(** *** The scan *)

Section Scan.

Lemma find_at_ge (sub l : list byte) :
  forall idx p, find_at sub l idx = Some p -> (idx <= p)%nat.
Proof.
  induction l as [| b l IH]; intros idx p; cbn.
  - destruct (starts_with sub []); [intros [= <-]; lia | discriminate].
  - destruct (starts_with sub (b :: l)); [intros [= <-]; lia |].
    intros H. apply IH in H. lia.
Qed.

Lemma find_at_lt (sub l : list byte) :
  sub <> [] ->
  forall idx p, find_at sub l idx = Some p -> (p < idx + List.length l)%nat.
Proof.
  intros Hsub. induction l as [| b l IH]; intros idx p; cbn [find_at].
  - destruct sub; [contradiction | cbn; discriminate].
  - destruct (starts_with sub (b :: l)); [intros [= <-]; cbn; lia |].
    intros H. apply IH in H. cbn [List.length]. lia.
Qed.

(** Every round of the loop moves the position forward, so the loop ends
    before the fuel does. *)
Lemma anmf_loop_fuel (data : list byte) :
  forall fuel pos st,
    (List.length data - pos < fuel)%nat -> anmf_loop fuel data pos st <> None.
Proof.
  induction fuel as [| fuel IH]; intros pos st Hlt; [lia |].
  cbn [anmf_loop].
  destruct (mm_find data pos ANMF) as [p |] eqn:Hf; [| discriminate].
  pose proof (find_at_ge _ _ _ _ Hf) as Hge.
  apply find_at_lt in Hf; [| discriminate]. rewrite length_skipn in Hf.
  destruct (mm_seek data (p + 20)) as [pos1 |] eqn:Hs; [| discriminate].
  unfold mm_seek in Hs. destruct (List.length data <? p + 20)%nat; [discriminate |].
  injection Hs as <-.
  destruct (frame_duration_of (mm_read data (p + 20) 4)); [| discriminate].
  apply IH. lia.
Qed.

Lemma anmf_loop_collects (data : list byte) :
  forall fuel pos st,
    anmf_loop fuel data pos st =
      match frame_durations_loop fuel data pos with
      | Some (Ok fds) => Some (Ok (fold_left scan_step fds st))
      | Some (Raise e) => Some (Raise e)
      | None => None
      end.
Proof.
  induction fuel as [| fuel IH]; intros pos st; [reflexivity |].
  cbn [anmf_loop frame_durations_loop].
  destruct (mm_find data pos ANMF) as [p |]; [| reflexivity].
  destruct (mm_seek data (p + 20)) as [pos1 |]; [| reflexivity].
  destruct (frame_duration_of (mm_read data pos1 4)) as [d |]; [| reflexivity].
  rewrite IH.
  destruct (frame_durations_loop fuel data (pos1 + List.length (mm_read data pos1 4)))
    as [[fds | e] |]; reflexivity.
Qed.

(** With one unit of fuel per byte and one more, the loop of [anmf_scan]
    ends by itself. *)
Lemma anmf_scan_fuel (data : list byte) :
  anmf_loop (S (List.length data)) data 0 (mkScan 0 0 []) <> None.
Proof. apply anmf_loop_fuel. lia. Qed.

(** The state the scan ends in is the fold of [scan_step] over the
    per-frame durations. *)
Lemma anmf_scan_frame_durations (data : list byte) :
  anmf_scan data = (fds <- frame_durations data ;; Ok (scan_of fds)).
Proof.
  unfold anmf_scan, frame_durations. destruct data as [| b data]; [reflexivity |].
  rewrite anmf_loop_collects.
  destruct (frame_durations_loop (S (List.length (b :: data))) (b :: data) 0)
    as [[fds | e] |]; reflexivity.
Qed.

(** Nor does the collecting loop run out of fuel. *)
Lemma frame_durations_fuel (data : list byte) :
  frame_durations_loop (S (List.length data)) data 0 <> None.
Proof.
  intros H. apply (anmf_scan_fuel data). now rewrite anmf_loop_collects, H.
Qed.

Lemma scan_fold_frames (fds : list Z) :
  forall st, scan_frames (fold_left scan_step fds st) = scan_frames st + Z.of_nat (List.length fds).
Proof.
  induction fds as [| d fds IH]; intros st; cbn [fold_left List.length].
  - lia.
  - rewrite IH. cbn [scan_step scan_frames]. lia.
Qed.

Lemma scan_fold_total (fds : list Z) :
  forall st, scan_total_duration (fold_left scan_step fds st) = scan_total_duration st + sum_of fds.
Proof.
  induction fds as [| d fds IH]; intros st; cbn [fold_left sum_of fold_right].
  - lia.
  - rewrite IH. cbn [scan_step scan_total_duration]. fold (sum_of fds). lia.
Qed.

Lemma gcd_of_nonneg (zs : list Z) : 0 <= gcd_of zs.
Proof. destruct zs; cbn; [lia | apply Z.gcd_nonneg]. Qed.

Lemma gcd_of_snoc (zs : list Z) (d : Z) : gcd_of (zs ++ [d]) = Z.gcd (gcd_of zs) d.
Proof.
  unfold gcd_of. induction zs as [| z zs IH]; cbn [app fold_right].
  - apply Z.gcd_comm.
  - rewrite IH. now rewrite Z.gcd_assoc.
Qed.

Lemma gcd_of_divides (zs : list Z) (d : Z) : In d zs -> (gcd_of zs | d).
Proof.
  induction zs as [| z zs IH]; cbn; [contradiction |].
  intros [-> | H].
  - apply Z.gcd_divide_l.
  - apply Z.divide_trans with (gcd_of zs); [apply Z.gcd_divide_r | now apply IH].
Qed.

Lemma In_Zb_In (z : Z) (zs : list Z) : In_Zb z zs = true -> In z zs.
Proof.
  unfold In_Zb. intros H. apply existsb_exists in H as [y [Hy E]].
  apply Z.eqb_eq in E. now subst.
Qed.

(** Adding a duration to the distinct list, or leaving it out because it
    is zero or already there, folds it into the gcd all the same. *)
Lemma scan_step_gcd (st : scan) (d : Z) :
  gcd_of (scan_durations (scan_step st d)) = Z.gcd (gcd_of (scan_durations st)) d.
Proof.
  unfold scan_step. cbn [scan_durations].
  destruct (In_Zb d (scan_durations st)) eqn:Hin; cbn [negb andb].
  - apply In_Zb_In, gcd_of_divides in Hin.
    symmetry. apply Z.divide_gcd_iff; [apply gcd_of_nonneg | assumption].
  - destruct (Z.eqb_spec d 0) as [-> | Hd]; cbn [negb].
    + rewrite Z.gcd_0_r. symmetry. apply Z.abs_eq, gcd_of_nonneg.
    + apply gcd_of_snoc.
Qed.

Lemma scan_fold_gcd (fds : list Z) :
  forall st, gcd_of (scan_durations (fold_left scan_step fds st)) =
             Z.gcd (gcd_of (scan_durations st)) (gcd_of fds).
Proof.
  induction fds as [| d fds IH]; intros st; cbn [fold_left].
  - cbn. rewrite Z.gcd_0_r. symmetry. apply Z.abs_eq, gcd_of_nonneg.
  - rewrite IH, scan_step_gcd. cbn [gcd_of fold_right]. fold (gcd_of fds).
    now rewrite Z.gcd_assoc.
Qed.

Lemma distinct_durations_gcd (fds : list Z) :
  gcd_of (distinct_durations fds) = gcd_of fds.
Proof.
  unfold distinct_durations, scan_of. rewrite scan_fold_gcd. cbn [scan_durations gcd_of fold_right].
  rewrite Z.gcd_0_l. apply Z.abs_eq, gcd_of_nonneg.
Qed.

End Scan.

Section WebpFps.

Lemma any_float_ints (ds : list Z) : any_float (map PInt ds) = false.
Proof. induction ds as [| d ds IH]; cbn; [reflexivity | exact IH]. Qed.

Lemma gcd_star_ints (ds : list Z) : gcd_star (map PInt ds) = Ok (gcd_of ds).
Proof.
  unfold gcd_star.
  assert (H : mapM as_int (map PInt ds) = Ok ds).
  { induction ds as [| d ds IH]; cbn; [reflexivity | now rewrite IH]. }
  now rewrite H.
Qed.

(** On integer durations [durations_gcd] is their gcd over 1. *)
Lemma durations_gcd_ints (ds : list Z) :
  durations_gcd (map PInt ds) = Ok (PFrac (mkFraction (gcd_of ds) 1)).
Proof.
  unfold durations_gcd. rewrite any_float_ints, gcd_star_ints. cbn [bind].
  rewrite Fraction_new_lowest; [reflexivity | lia | apply Z.gcd_1_r].
Qed.

(** The exact part of the fps computation:
    [total / Fraction(t, 1) / total * 1000] is [Fraction(1000, t)]. *)
Lemma apparent_fps_exact (total t : Z) :
  0 < total -> 0 < t ->
  (frames_apparent <- py_truediv (PInt total) (PFrac (mkFraction t 1)) ;;
   r <- py_truediv frames_apparent (PInt total) ;;
   py_mul r (PInt 1000))
  = (q <- Fraction_new 1000 t ;; Ok (PFrac q)).
Proof.
  intros HT Ht. cbn [py_truediv exact_of_rational numerator denominator].
  destruct (Fraction_new_spec (total * 1) (1 * t) ltac:(lia)) as [q1 [E1 [[D1 G1] R1]]].
  rewrite E1. cbn [bind py_truediv exact_of_rational].
  destruct (Fraction_new_spec (numerator q1 * 1) (denominator q1 * total) ltac:(nia))
    as [q2 [E2 [[D2 G2] R2]]].
  rewrite E2. cbn [bind py_mul exact_of_rational].
  destruct (Fraction_new_spec (numerator q2 * 1000) (denominator q2 * 1) ltac:(lia))
    as [q3 [E3 [L3 R3]]].
  rewrite E3. cbn [bind].
  destruct (Fraction_new_spec 1000 t ltac:(lia)) as [q [E [L R]]].
  rewrite E. cbn [bind]. do 2 f_equal.
  apply lowest_terms_unique; try assumption.
  destruct L3 as [D3 G3], L as [D G].
  set (n1 := numerator q1) in *. set (d1 := denominator q1) in *.
  set (n2 := numerator q2) in *. set (d2 := denominator q2) in *.
  set (n3 := numerator q3) in *. set (d3 := denominator q3) in *.
  set (n := numerator q) in *. set (d := denominator q) in *.
  apply Z.mul_reg_r with (p := d1 * d2 * total * t); [nia |].
  transitivity (total * d1 * d2 * 1000 * d3 * d).
  - replace (n3 * d * (d1 * d2 * total * t)) with ((n3 * (d2 * 1)) * d * d1 * total * t) by ring.
    rewrite R3.
    replace (n2 * 1000 * d3 * d * d1 * total * t)
      with ((n2 * (d1 * total)) * 1000 * d3 * d * t) by ring.
    rewrite R2.
    replace (n1 * 1 * d2 * 1000 * d3 * d * t)
      with ((n1 * (1 * t)) * d2 * 1000 * d3 * d) by ring.
    rewrite R1. ring.
  - replace (n * d3 * (d1 * d2 * total * t)) with ((n * t) * d3 * d1 * d2 * total) by ring.
    rewrite R. ring.
Qed.

End WebpFps.

Section WebpTheorem.

Lemma sum_of_pos (fds : list Z) :
  fds <> [] -> Forall (fun d => 0 < d) fds -> 0 < sum_of fds.
Proof.
  intros Hne HF. induction HF as [| d fds Hd HF IH]; [contradiction |].
  cbn [sum_of fold_right]. fold (sum_of fds).
  destruct fds as [| e fds]; [cbn; lia |].
  assert (0 < sum_of (e :: fds)) by (apply IH; discriminate). lia.
Qed.

Lemma gcd_of_pos (fds : list Z) :
  fds <> [] -> Forall (fun d => 0 < d) fds -> 0 < gcd_of fds.
Proof.
  intros Hne HF. destruct HF as [| d fds Hd HF]; [contradiction |].
  cbn [gcd_of fold_right]. pose proof (Z.gcd_nonneg d (fold_right Z.gcd 0 fds)) as Hn.
  destruct (Z.eq_dec (Z.gcd d (fold_right Z.gcd 0 fds)) 0) as [E | E]; [| lia].
  apply Z.gcd_eq_0_l in E. lia.
Qed.

Lemma scan_of_frames (fds : list Z) :
  scan_frames (scan_of fds) = Z.of_nat (List.length fds).
Proof. unfold scan_of. now rewrite scan_fold_frames. Qed.

Lemma scan_of_total (fds : list Z) :
  scan_total_duration (scan_of fds) = sum_of fds.
Proof. unfold scan_of. now rewrite scan_fold_total. Qed.

Lemma webp_of_frame_durations (file : File) (fds : list Z) :
  frame_durations (content file) = Ok fds ->
  (2 <= List.length fds)%nat ->
  _get_file_fps_frames_duration_webp file =
    (fps <-
       (if (List.length (distinct_durations fds) =? 1)%nat then
          r <- py_truediv (PInt (Z.of_nat (List.length fds))) (PInt (sum_of fds)) ;;
          py_mul r (PInt 1000)
        else
          duration_gcd <- durations_gcd (map PInt (distinct_durations fds)) ;;
          frames_apparent <- py_truediv (PInt (sum_of fds)) duration_gcd ;;
          r <- py_truediv frames_apparent (PInt (sum_of fds)) ;;
          v <- py_mul r (PInt 1000) ;;
          f <- py_float v ;;
          Ok (PFloat f)) ;;
     Ok (fps, Z.of_nat (List.length fds), PInt (sum_of fds))).
Proof.
  intros Hfd Hlen. unfold _get_file_fps_frames_duration_webp.
  rewrite anmf_scan_frame_durations, Hfd. cbn [bind].
  fold (distinct_durations fds).
  rewrite !scan_of_frames, !scan_of_total.
  destruct (Z.leb_spec (Z.of_nat (List.length fds)) 1) as [Hle | _]; [lia |].
  now rewrite length_map.
Qed.

(** Fewer than two chunks: a static image. *)
Lemma webp_few_chunks (file : File) (fds : list Z) :
  frame_durations (content file) = Ok fds ->
  (List.length fds <= 1)%nat ->
  _get_file_fps_frames_duration_webp file = Ok (PFloat zero, 1, PInt 0).
Proof.
  intros Hfd Hlen. unfold _get_file_fps_frames_duration_webp.
  rewrite anmf_scan_frame_durations, Hfd. cbn [bind]. rewrite scan_of_frames.
  destruct (Z.leb_spec (Z.of_nat (List.length fds)) 1) as [_ | Hgt]; [reflexivity | lia].
Qed.

Lemma sum_of_zeros (fds : list Z) : Forall (fun d => d = 0) fds -> sum_of fds = 0.
Proof.
  induction 1 as [| d fds Hd HF IH]; [reflexivity |].
  cbn [sum_of fold_right]. fold (sum_of fds). lia.
Qed.

Lemma scan_fold_zeros (fds : list Z) :
  Forall (fun d => d = 0) fds ->
  forall st, scan_durations (fold_left scan_step fds st) = scan_durations st.
Proof.
  induction 1 as [| d fds Hd HF IH]; intros st; [reflexivity |].
  cbn [fold_left]. rewrite IH. subst d. unfold scan_step. cbn [scan_durations].
  now rewrite andb_false_r.
Qed.

Lemma distinct_durations_zeros (fds : list Z) :
  Forall (fun d => d = 0) fds -> distinct_durations fds = [] /\ sum_of fds = 0.
Proof.
  intros HF. split; [| now apply sum_of_zeros].
  unfold distinct_durations, scan_of. now rewrite scan_fold_zeros.
Qed.

(** Two or more chunks, every duration zero: the division by the tick
    raises. *)
Lemma webp_all_zero_durations_raise (file : File) (fds : list Z) :
  frame_durations (content file) = Ok fds ->
  (2 <= List.length fds)%nat ->
  Forall (fun d => d = 0) fds ->
  _get_file_fps_frames_duration_webp file = Raise ZeroDivisionError.
Proof.
  intros Hfd Hlen Hz. rewrite (webp_of_frame_durations file fds Hfd Hlen).
  destruct (distinct_durations_zeros fds Hz) as [-> ->]. reflexivity.
Qed.

End WebpTheorem.

(** C6 (as amended).  For a chunked-raster container with at least two
    frame chunks whose durations are all positive, with [t] their gcd: when
    two or more distinct durations are observed the fps is the float of the
    fraction [1000/t]; when only one distinct duration is observed the gcd
    search is skipped and the fps is the float product
    [frame_count / total_duration * 1000].  Five frames of 100 ms give
    [(10.0, 5, 500)].  With fewer than two frame chunks the result is
    [(0.0, 1, 0)]. *)
Theorem webp_apparent_fps :
  (forall file fds,
     frame_durations (content file) = Ok fds ->
     (2 <= List.length fds)%nat ->
     Forall (fun d => 0 < d) fds ->
     let frames := Z.of_nat (List.length fds) in
     let total := sum_of fds in
     let t := gcd_of fds in
     (List.length (distinct_durations fds) <> 1%nat ->
      _get_file_fps_frames_duration_webp file =
        (q <- Fraction_new 1000 t ;;
         f <- float_of_Fraction q ;;
         Ok (PFloat f, frames, PInt total)))
     /\ (List.length (distinct_durations fds) = 1%nat ->
         _get_file_fps_frames_duration_webp file =
           (r <- int_truediv frames total ;;
            fps <- py_mul (PFloat r) (PInt 1000) ;;
            Ok (fps, frames, PInt total))))
  /\ (forall file fds,
        frame_durations (content file) = Ok fds ->
        (List.length fds <= 1)%nat ->
        _get_file_fps_frames_duration_webp file = Ok (PFloat zero, 1, PInt 0))
  /\ frame_durations (content webp_uniform_100) = Ok [100; 100; 100; 100; 100]
  /\ get_file_fps_frames_duration webp_uniform_100 None = Ok (PFloat 10, 5, PInt 500).
Proof.
  split; [| split; [apply webp_few_chunks | split; vm_compute; reflexivity]].
  intros file fds Hfd Hlen Hpos frames total t.
  assert (Hne : fds <> []) by (destruct fds; [cbn in Hlen; lia | discriminate]).
  pose proof (sum_of_pos fds Hne Hpos) as HT.
  pose proof (gcd_of_pos fds Hne Hpos) as Ht.
  rewrite (webp_of_frame_durations file fds Hfd Hlen).
  fold frames total. split; intros Hd.
  - apply Nat.eqb_neq in Hd. rewrite Hd.
    rewrite durations_gcd_ints, distinct_durations_gcd. fold t. cbn [bind].
    pose proof (apparent_fps_exact total t HT Ht) as Hex.
    destruct (Fraction_new_spec 1000 t ltac:(lia)) as [q [E _]].
    rewrite E in Hex |- *. cbn [bind] in Hex |- *.
    destruct (py_truediv (PInt total) (PFrac (mkFraction t 1))) as [fa | e];
      cbn [bind] in Hex |- *; [| discriminate Hex].
    destruct (py_truediv fa (PInt total)) as [r | e];
      cbn [bind] in Hex |- *; [| discriminate Hex].
    rewrite Hex. cbn [bind py_float]. now destruct (float_of_Fraction q).
  - apply Nat.eqb_eq in Hd. rewrite Hd. cbn [py_truediv].
    now destruct (int_truediv frames total).
Qed.

Lemma webp_apparent_fps_witness :
  _get_file_fps_frames_duration_webp webp_mixed = Ok (PFloat 50, 3, PInt 180)
  /\ _get_file_fps_frames_duration_webp webp_uniform_100 = Ok (PFloat 10, 5, PInt 500).
Proof.
  split.
  - rewrite (proj1 (proj1 webp_apparent_fps webp_mixed [40; 100; 40]
                      ltac:(vm_compute; reflexivity) ltac:(cbn; lia)
                      ltac:(repeat constructor))
               ltac:(vm_compute; discriminate)).
    vm_compute. reflexivity.
  - rewrite (proj2 (proj1 webp_apparent_fps webp_uniform_100 [100; 100; 100; 100; 100]
                      ltac:(vm_compute; reflexivity) ltac:(cbn; lia)
                      ltac:(repeat constructor))
               ltac:(vm_compute; reflexivity)).
    vm_compute. reflexivity.
Defined.

(** C6, where the claim fails.  One frame chunk of 100 ms: every duration
    is a multiple of the tick 100, and the fps is 0.0, not 10.  Two frames
    of 9 ms: the fps is [2 / 18 * 1000] in floats, [111.1111111111111], one
    unit in the last place away from the float of [1000/9]. *)
Lemma webp_fps_differs_from_1000_over_t :
  frame_durations (content webp_single_100) = Ok [100]
  /\ get_file_fps_frames_duration webp_single_100 None = Ok (PFloat 0, 1, PInt 0)
  /\ frame_durations (content webp_uniform_9) = Ok [9; 9]
  /\ get_file_fps_frames_duration webp_uniform_9 None
     = Ok (PFloat 111.1111111111111, 2, PInt 18)
  /\ int_truediv 1000 9 = Ok 111.11111111111111%float
  /\ PrimFloat.eqb 111.1111111111111 111.11111111111111 = false.
Proof. vm_compute. repeat split. Qed.

(** C10 (the code departs from the claim).  Two frame chunks whose duration
    field is zero leave the list of distinct durations empty; [durations_gcd]
    of no durations is [Fraction(0, 1)], and dividing the total by it raises
    [ZeroDivisionError]. *)
Theorem webp_zero_durations_divide_by_zero :
  anmf_scan (content webp_zero_durations) = Ok (mkScan 0 2 [])
  /\ durations_gcd [] = Ok (PFrac (mkFraction 0 1))
  /\ _get_file_fps_frames_duration_webp webp_zero_durations = Raise ZeroDivisionError
  /\ get_file_fps_frames_duration webp_zero_durations None = Raise ZeroDivisionError.
Proof. vm_compute. repeat split. Qed.

(** ** Decode-fallback strategy *)

Lemma decode_loop_exhausted (frames : list VideoFrame) :
  forall index frame_count last_frame,
    fst (decode_loop None frames index frame_count last_frame) =
      match frames with
      | [] => frame_count
      | _ :: _ => index + Z.of_nat (List.length frames) - 1
      end.
Proof.
  induction frames as [| f fs IH]; intros index frame_count last_frame.
  - reflexivity.
  - cbn [decode_loop]. rewrite IH. destruct fs as [| g fs].
    + cbn. lia.
    + cbn [List.length]. lia.
Qed.

(** C2 (the code departs from the claim).  When the stream is decoded to
    its end, [frame_count] is the last index [enumerate] produced, one less
    than the number of decoded frames; eleven frames 40 ms apart with no
    metadata duration come back as 10 frames and 444 ms. *)
Theorem av_frame_count_is_last_index :
  (forall frame frames,
     fst (decode_loop None (frame :: frames) 0 0 None) = Z.of_nat (List.length frames))
  /\ _get_file_frames_duration_av (video_file None 11) None false = Ok (10, 444)
  /\ get_file_fps_frames_duration (video_file None 11) None
     = Ok (PFloat 22.522522522522522, 10, PInt 444).
Proof.
  split; [| vm_compute; repeat split].
  intros frame frames. rewrite decode_loop_exhausted. cbn [fst List.length]. lia.
Qed.

(** ** The facade *)

Lemma facade_av (file : File) (ext : option string) :
  av_ext (resolve_ext file ext) = true ->
  get_file_fps_frames_duration file ext =
    (' (frames, duration) <- _get_file_frames_duration_av file None false ;;
     fps <- (if 0 <? duration then
               r <- int_truediv frames duration ;;
               py_mul (PFloat r) (PInt 1000)
             else Ok (PInt 0)) ;;
     Ok (fps, frames, PInt duration)).
Proof.
  unfold av_ext, get_file_fps_frames_duration. intros H.
  apply andb_prop in H as [H H3]. apply andb_prop in H as [H1 H2].
  apply negb_true_iff in H1, H2, H3. now rewrite H1, H2, H3.
Qed.

(** C3 (as amended).  On the decode-fallback path a container that opens,
    has a video stream and yields no decoded frame makes the facade return
    fps 0, frames 0 and duration 0, none of them negative or NaN, once the
    metadata duration has been read (always, when the metadata has none); a
    container that cannot be opened makes the facade raise what [av.open]
    raised. *)
Theorem facade_av_no_frames :
  forall file ext,
    av_ext (resolve_ext file ext) = true ->
    (forall container stream others,
       av_open file = Ok container ->
       streams_video container = stream :: others ->
       decoded stream = [] ->
       get_file_fps_frames_duration file ext =
         (_ <- duration_metadata_of container ;; Ok (PInt 0, 0, PInt 0))
       /\ (container_duration container = None ->
           get_file_fps_frames_duration file ext = Ok (PInt 0, 0, PInt 0)))
    /\ (forall e, av_open file = Raise e ->
          get_file_fps_frames_duration file ext = Raise e).
Proof.
  intros file ext Hext. rewrite (facade_av file ext Hext).
  unfold _get_file_frames_duration_av. split.
  - intros container stream others Ho Hs Hd.
    rewrite Ho. cbn [bind]. rewrite Hs. unfold getitem. cbn [nth_error bind].
    rewrite Hd. cbn [andb decode_loop]. split.
    + now destruct (duration_metadata_of container).
    + intros Hn. unfold duration_metadata_of. now rewrite Hn.
  - intros e Ho. now rewrite Ho.
Qed.

Lemma facade_av_no_frames_witness :
  get_file_fps_frames_duration (video_file None 0) None = Ok (PInt 0, 0, PInt 0)
  /\ get_file_fps_frames_duration unreadable_video None = Raise InvalidDataError.
Proof.
  split.
  - apply (proj1 (facade_av_no_frames (video_file None 0) None eq_refl)
             _ _ _ eq_refl eq_refl eq_refl).
    reflexivity.
  - apply (proj2 (facade_av_no_frames unreadable_video None eq_refl)). reflexivity.
Defined.

(** C3, where the claim fails: a video container with no decodable frame is
    reported with 0 frames, not 1, and one that cannot be opened yields an
    exception instead of a record. *)
Lemma facade_no_frames_is_not_one_frame :
  get_file_fps_frames_duration (video_file None 0) None = Ok (PInt 0, 0, PInt 0)
  /\ ~ (exists fps duration,
          get_file_fps_frames_duration (video_file None 0) None = Ok (fps, 1, duration))
  /\ ~ (exists record,
          get_file_fps_frames_duration unreadable_video None = Ok record).
Proof.
  split; [reflexivity |]. split.
  - intros [fps [duration H]]. vm_compute in H. discriminate H.
  - intros [record H]. vm_compute in H. discriminate H.
Qed.

Lemma pillow_ext_not_tgs (e : string) :
  ext_in e [".gif"; ".webp"; ".png"; ".apng"]%string = true ->
  String.eqb e ".tgs" = false.
Proof.
  unfold ext_in. cbn [existsb]. intros H.
  repeat (apply orb_prop in H as [H | H];
          [apply String.eqb_eq in H; subst e; reflexivity |]).
  discriminate H.
Qed.

(** C8 (as amended).  The record [CodecInfo] builds has [is_animated] equal
    to [fps > 1] for the fps the timing query returned, whatever strategy
    produced it.  The separate predicate [is_anim] is decided by frame
    count: it is [True] exactly when [get_file_frames(file, check_anim=True)]
    exceeds 1, which for an image Pillow handles is [n_frames > 1]. *)
Theorem is_animated_and_is_anim :
  (forall file ext,
     match CodecInfo_init file ext with
     | Ok ci =>
         is_animated ci = py_ltb (PInt 1) (fps ci)
         /\ get_file_fps_frames_duration file None = Ok (fps ci, frames ci, duration ci)
     | Raise _ => True
     end)
  /\ (forall file ext f n d c r,
        get_file_fps_frames_duration file None = Ok (f, n, d) ->
        get_file_codec file None = Ok c ->
        get_file_res file None = Ok r ->
        exists ci, CodecInfo_init file ext = Ok ci
                   /\ fps ci = f /\ is_animated ci = py_ltb (PInt 1) f)
  /\ (forall file,
        is_anim file = (n <- get_file_frames file None true ;; Ok (1 <? n)))
  /\ (forall file im,
        ext_in (get_file_ext file) [".gif"; ".webp"; ".png"; ".apng"]%string = true ->
        Image_open file = Ok im ->
        n_frames_attr im = true ->
        is_anim file = Ok (1 <? n_frames im)).
Proof.
  split; [| split; [| split]].
  - intros file ext. unfold CodecInfo_init.
    destruct (get_file_fps_frames_duration file None) as [[[f n] d] | e]; [| exact I].
    cbn [bind]. destruct (get_file_codec file None); [| exact I].
    cbn [bind]. destruct (get_file_res file None); [| exact I].
    cbn. split; reflexivity.
  - intros file ext f n d c r Ht Hc Hr. unfold CodecInfo_init.
    rewrite Ht, Hc, Hr. cbn [bind]. eexists. split; [reflexivity |].
    split; reflexivity.
  - intros file. unfold is_anim.
    destruct (get_file_frames file None true) as [n | e]; [| reflexivity].
    cbn [bind]. now destruct (1 <? n).
  - intros file im Hext Ho Hn. unfold is_anim, get_file_frames.
    cbn [resolve_ext]. rewrite (pillow_ext_not_tgs _ Hext), Hext.
    unfold _get_file_fps_frames_duration_pillow. rewrite Ho. cbn [bind]. rewrite Hn.
    cbn [bind]. now destruct (1 <? n_frames im).
Qed.

Lemma is_animated_and_is_anim_witness : is_anim slow_apng = Ok true.
Proof.
  apply (proj2 (proj2 (proj2 is_animated_and_is_anim)) slow_apng _ eq_refl eq_refl eq_refl).
Defined.

(** C8, where the claim fails: an APNG of two frames of one second each has
    fps 1.0, so [is_animated] is [False], while [is_anim] is [True]. *)
Lemma is_anim_disagrees_with_is_animated :
  (ci <- CodecInfo_init slow_apng None ;; Ok (fps ci, frames ci, is_animated ci))
    = Ok (PFloat 1, 2, false)
  /\ is_anim slow_apng = Ok true.
Proof. vm_compute. split; reflexivity. Qed.

(** * Further properties of the helpers *)

(** ** [lcm] *)

Lemma gcd_zero_iff (a b : Z) : Z.gcd a b = 0 <-> a = 0 /\ b = 0.
Proof.
  split.
  - intros E. split; [apply Z.gcd_eq_0_l in E | apply Z.gcd_eq_0_r in E]; assumption.
  - intros [-> ->]. reflexivity.
Qed.

Lemma lcm_any_sign (a b : Z) :
  lcm a b = if (a =? 0) && (b =? 0) then Raise ZeroDivisionError else Ok (Z.lcm a b).
Proof.
  unfold lcm.
  destruct (Z.eqb_spec (Z.gcd a b) 0) as [E | E].
  - apply gcd_zero_iff in E. destruct E as [-> ->]. reflexivity.
  - assert (Hz : (a =? 0) && (b =? 0) = false).
    { destruct (Z.eqb_spec a 0) as [-> |]; [| reflexivity].
      destruct (Z.eqb_spec b 0) as [-> |]; [| reflexivity].
      exfalso. apply E. reflexivity. }
    rewrite Hz. f_equal. unfold Z.lcm.
    pose proof (Z.gcd_nonneg a b) as Hn.
    destruct (Z.gcd_divide_r a b) as [k Hk].
    rewrite Hk at 3. rewrite Z.div_mul by assumption.
    rewrite Hk at 1.
    replace (a * (k * Z.gcd a b)) with (a * k * Z.gcd a b) by ring.
    rewrite Z.abs_mul, (Z.abs_eq (Z.gcd a b)) by assumption.
    apply Z.div_mul. assumption.
Qed.

(** X1.  [lcm(a, b)] is the least common multiple of any two integers,
    negative ones included: it is never negative, both arguments divide
    it, and it divides every common multiple.  The only pair it refuses
    is [(0, 0)], where the division by [gcd(0, 0) = 0] raises
    [ZeroDivisionError]. *)
Theorem lcm_least_common_multiple (a b : Z) :
  (lcm a b = Raise ZeroDivisionError <-> a = 0 /\ b = 0)
  /\ (forall l, lcm a b = Ok l ->
        0 <= l /\ (a | l) /\ (b | l)
        /\ forall m, (a | m) -> (b | m) -> (l | m))
  /\ (a <> 0 \/ b <> 0 -> lcm a b = Ok (Z.lcm a b)).
Proof.
  rewrite lcm_any_sign.
  destruct (Z.eqb_spec a 0) as [Ha | Ha]; destruct (Z.eqb_spec b 0) as [Hb | Hb];
    cbn [andb].
  - repeat split; try assumption; try discriminate. intros [H | H]; contradiction.
  - split; [split; [discriminate | intros [_ H]; contradiction] |].
    split; [| reflexivity]. intros l [= <-].
    repeat split; [apply Z.lcm_nonneg | apply Z.divide_lcm_l | apply Z.divide_lcm_r |].
    intros m. apply Z.lcm_least.
  - split; [split; [discriminate | intros [H _]; contradiction] |].
    split; [| reflexivity]. intros l [= <-].
    repeat split; [apply Z.lcm_nonneg | apply Z.divide_lcm_l | apply Z.divide_lcm_r |].
    intros m. apply Z.lcm_least.
  - split; [split; [discriminate | intros [H _]; contradiction] |].
    split; [| reflexivity]. intros l [= <-].
    repeat split; [apply Z.lcm_nonneg | apply Z.divide_lcm_l | apply Z.divide_lcm_r |].
    intros m. apply Z.lcm_least.
Qed.

Lemma lcm_least_common_multiple_witness :
  lcm (-4) 6 = Ok 12 /\ (12 | 24).
Proof.
  destruct (lcm_least_common_multiple (-4) 6) as [_ [H Hok]].
  split.
  - rewrite Hok; [reflexivity | left; discriminate].
  - destruct (H 12 eq_refl) as [_ [_ [_ Hm]]].
    apply Hm; [exists (-6); reflexivity | exists 4; reflexivity].
Defined.

(** ** [fractions_gcd] *)

Lemma fractions_gcd_loop_divides (l : list Fraction) :
  forall g, lowest_terms g -> Forall lowest_terms l ->
  exists r, fractions_gcd_loop g l = Ok r
    /\ lowest_terms r
    /\ (numerator r | numerator g) /\ (denominator g | denominator r)
    /\ (forall x, In x l -> (numerator r | numerator x) /\ (denominator x | denominator r))
    /\ (forall cn cd,
          (cn | numerator g) -> (denominator g | cd) ->
          (forall x, In x l -> (cn | numerator x) /\ (denominator x | cd)) ->
          (cn | numerator r) /\ (denominator r | cd)).
Proof.
  induction l as [| a l IH]; intros g Hg Hl.
  - exists g. cbn [fractions_gcd_loop].
    split; [reflexivity |]. split; [assumption |].
    split; [apply Z.divide_refl |]. split; [apply Z.divide_refl |].
    split; [intros x [] |].
    intros cn cd Hcn Hcd _. split; assumption.
  - inversion Hl as [| ? ? Ha Hl']; subst.
    cbn [fractions_gcd_loop].
    pose proof (fraction_gcd_lowest g a Hg Ha) as E.
    pose proof (fraction_gcd_closed g a _ Hg Ha E) as Hg'.
    rewrite E. cbn [bind].
    destruct (IH _ Hg' Hl') as [r [Er [Hr [Hn [Hd [Hall Hmax]]]]]].
    cbn [numerator denominator] in Hn, Hd.
    exists r. split; [assumption |]. split; [assumption |].
    split; [apply Z.divide_trans with (1 := Hn); apply Z.gcd_divide_l |].
    split; [apply Z.divide_trans with (2 := Hd); apply Z.divide_lcm_l |].
    split.
    + intros x [<- | Hx].
      * split; [apply Z.divide_trans with (1 := Hn); apply Z.gcd_divide_r
               | apply Z.divide_trans with (2 := Hd); apply Z.divide_lcm_r].
      * apply Hall; assumption.
    + intros cn cd Hcn Hcd Hc.
      apply Hmax; cbn [numerator denominator].
      * apply Z.gcd_greatest; [assumption | apply (Hc a); left; reflexivity].
      * apply Z.lcm_least; [assumption | apply (Hc a); left; reflexivity].
      * intros x Hx. apply Hc. right. assumption.
Qed.

(** X2.  [fractions_gcd] of no argument raises [IndexError] (the [pop] of an
    empty list).  Of one or more fractions it returns a fraction in lowest
    terms that divides every argument (its numerator divides theirs, their
    denominators divide its denominator, so each argument is an integer
    multiple of it), and it is the greatest such: any other common divisor
    divides it. *)
Theorem fractions_gcd_common_divisor :
  fractions_gcd [] = Raise IndexError
  /\ forall l, l <> [] -> Forall lowest_terms l ->
       exists r, fractions_gcd l = Ok r
         /\ lowest_terms r
         /\ (forall x, In x l ->
               (numerator r | numerator x) /\ (denominator x | denominator r))
         /\ (forall cn cd,
               (forall x, In x l -> (cn | numerator x) /\ (denominator x | cd)) ->
               (cn | numerator r) /\ (denominator r | cd)).
Proof.
  split; [reflexivity |].
  intros [| g l] Hne Hl; [contradiction |].
  inversion Hl as [| ? ? Hg Hl']; subst.
  destruct (fractions_gcd_loop_divides l g Hg Hl') as [r [Er [Hr [Hn [Hd [Hall Hmax]]]]]].
  exists r. cbn [fractions_gcd].
  split; [assumption |]. split; [assumption |]. split.
  - intros x [<- | Hx]; [split; assumption | apply Hall; assumption].
  - intros cn cd Hc. apply Hmax.
    + apply (Hc g). left. reflexivity.
    + apply (Hc g). left. reflexivity.
    + intros x Hx. apply Hc. right. assumption.
Qed.

Lemma fractions_gcd_common_divisor_witness :
  exists r, fractions_gcd [mkFraction 100 3; mkFraction 50 3; mkFraction 25 6] = Ok r
            /\ (numerator r | 50) /\ (3 | denominator r).
Proof.
  destruct fractions_gcd_common_divisor as [_ H].
  destruct (H [mkFraction 100 3; mkFraction 50 3; mkFraction 25 6]) as [r [E [_ [Hall _]]]].
  - discriminate.
  - repeat constructor.
  - exists r. split; [exact E |].
    apply (Hall (mkFraction 50 3)). right. left. reflexivity.
Defined.

(** ** [durations_gcd] on integer samples *)

Lemma gcd_of_greatest (zs : list Z) (c : Z) :
  (forall d, In d zs -> (c | d)) -> (c | gcd_of zs).
Proof.
  induction zs as [| z zs IH]; intros H.
  - apply Z.divide_0_r.
  - cbn. apply Z.gcd_greatest.
    + apply H. left. reflexivity.
    + apply IH. intros d Hd. apply H. right. assumption.
Qed.

(** X3.  On integer samples [durations_gcd] never raises: it returns the
    fraction [g/1] where [g >= 0] is the greatest common divisor of the
    samples: [g] divides every sample and every common divisor of the
    samples divides [g]; for no sample at all the result is [0/1]. *)
Theorem durations_gcd_of_integers (ds : list Z) :
  durations_gcd (map PInt ds) = Ok (PFrac (mkFraction (gcd_of ds) 1))
  /\ lowest_terms (mkFraction (gcd_of ds) 1)
  /\ 0 <= gcd_of ds
  /\ (forall d, In d ds -> (gcd_of ds | d))
  /\ (forall c, (forall d, In d ds -> (c | d)) -> (c | gcd_of ds))
  /\ (ds = [] -> gcd_of ds = 0).
Proof.
  split; [apply durations_gcd_ints |].
  split; [apply (Fraction_of_int_lowest (gcd_of ds)) |].
  split; [apply gcd_of_nonneg |].
  split; [intros d; apply gcd_of_divides |].
  split; [apply gcd_of_greatest |].
  intros ->. reflexivity.
Qed.

Lemma durations_gcd_of_integers_witness :
  durations_gcd [PInt 40; PInt 100] = Ok (PFrac (mkFraction 20 1)) /\ (20 | 100).
Proof.
  destruct (durations_gcd_of_integers [40; 100]) as [E [_ [_ [H _]]]].
  split; [exact E |]. apply (H 100). right. left. reflexivity.
Defined.

(** ** [rounding] *)

(** X4.  [rounding] takes a finite float to a nearest integer, a tie going
    away from zero (so 0.5 becomes 1 and -2.5 becomes -3), never to the
    even neighbour; an int of at most 28 digits is returned unchanged.
    The float is compared through its exact value [n / d]. *)
Theorem rounding_nearest_ties_away :
  (forall f n d r,
     exact_of_float f = Some (n, d) ->
     rounding (PFloat f) = Ok (DecInteger r) ->
     0 < d
     /\ 2 * Z.abs (r * d - n) <= d
     /\ (2 * Z.abs (r * d - n) = d -> Z.abs n < Z.abs (r * d)))
  /\ (forall z, Z.abs z < 10 ^ 28 -> rounding (PInt z) = Ok (DecInteger z)).
Proof.
  split.
  - intros f n d r. unfold exact_of_float, rounding.
    destruct (Prim2SF f) as [s | s | | s m e]; try discriminate.
    + intros [= <- <-] [= <-]. cbn. lia.
    + unfold round_half_up_scaled, quantize_check.
      assert (Hneg : Zneg m = - Zpos m) by reflexivity. rewrite Hneg. clear Hneg.
      assert (Hpm : 0 < Zpos m) by reflexivity.
      set (pm := Zpos m) in *. clearbody pm.
      destruct (Z.leb_spec 0 e) as [He | He].
      * set (P := 2 ^ e). clearbody P.
        intros [= <- <-].
        destruct (Z.abs _ <? 10 ^ 28); [| discriminate].
        intros [= <-].
        split; [lia |].
        destruct s;
          match goal with
          | |- context [Z.abs (?a - ?b)] => replace (a - b) with 0 by ring
          end; cbn [Z.abs]; lia.
      * assert (HD : 0 < 2 ^ (- e)) by (apply Z.pow_pos_nonneg; lia).
        set (D := 2 ^ (- e)) in *. clearbody D.
        pose proof (Z.div_mod pm D ltac:(lia)) as Hdm.
        pose proof (Z.mod_pos_bound pm D HD) as Hb.
        assert (Hq : 0 <= pm / D) by (apply Z.div_pos; lia).
        set (q := pm / D) in *. set (rm := pm mod D) in *. clearbody q rm.
        assert (HX : 0 <= D * q) by (apply Z.mul_nonneg_nonneg; lia).
        assert (Ht : exists t, t = 2 * rm) by (eexists; reflexivity).
        destruct Ht as [t Ht]. rewrite <- Ht.
        destruct (Z.leb_spec D t) as [Hr | Hr];
          intros [= <- <-];
          (destruct (Z.abs _ <? 10 ^ 28); [| discriminate]);
          intros [= <-];
          (split; [assumption |]); subst pm;
          set (X := D * q) in *.
        -- destruct s.
           ++ replace (- (q + 1) * D) with (- (X + D)) by (subst X; ring). lia.
           ++ replace ((q + 1) * D) with (X + D) by (subst X; ring). lia.
        -- destruct s.
           ++ replace (- q * D) with (- X) by (subst X; ring). lia.
           ++ replace (q * D) with X by (subst X; ring). lia.
  - intros z Hz. unfold rounding, quantize_check.
    destruct (Z.ltb_spec (Z.abs z) (10 ^ 28)) as [_ | H]; [reflexivity | lia].
Qed.

Lemma rounding_nearest_ties_away_witness :
  exact_of_float 2.5 = Some (5629499534213120, 2251799813685248)
  /\ rounding (PFloat 2.5) = Ok (DecInteger 3)
  /\ Z.abs 5629499534213120 < Z.abs (3 * 2251799813685248)
  /\ rounding (PInt 7) = Ok (DecInteger 7).
Proof.
  destruct rounding_nearest_ties_away as [H Hz].
  assert (E : exact_of_float 2.5 = Some (5629499534213120, 2251799813685248))
    by (vm_compute; reflexivity).
  assert (R : rounding (PFloat 2.5) = Ok (DecInteger 3)) by (vm_compute; reflexivity).
  split; [exact E |]. split; [exact R |]. split.
  - destruct (H _ _ _ _ E R) as [_ [_ Htie]]. apply Htie. reflexivity.
  - apply Hz. vm_compute. reflexivity.
Defined.

(** ** [get_five_dec_place] *)

Lemma length_zeros (n : nat) : String.length (zeros n) = n.
Proof. induction n as [| n IH]; cbn; [reflexivity | now rewrite IH]. Qed.

Lemma length_app_string (a b : string) :
  String.length (a ++ b) = (String.length a + String.length b)%nat.
Proof. induction a as [| c a IH]; cbn; [reflexivity | now rewrite IH]. Qed.

Lemma length_prefix (n : nat) (s : string) :
  String.length (substring 0 n s) = Nat.min n (String.length s).
Proof.
  revert s. induction n as [| n IH]; intros [| c s]; cbn; try reflexivity.
  now rewrite IH.
Qed.

Lemma length_ljust0 (w : nat) (s : string) :
  String.length (ljust0 w s) = Nat.max w (String.length s).
Proof. unfold ljust0. rewrite length_app_string, length_zeros. lia. Qed.

(** X5.  Whenever [get_five_dec_place] returns, it returns exactly five
    characters, whatever the length of the printed fractional part: a
    longer one is cut, a shorter one padded with zeros. *)
Theorem get_five_dec_place_length (value : pyval) (five : string) :
  get_five_dec_place value = Ok five -> String.length five = 5%nat.
Proof.
  unfold get_five_dec_place.
  destruct (getitem (split_dot (str value)) 1) as [frac | e]; [| discriminate].
  cbn [bind]. intros [= <-].
  rewrite length_ljust0, length_prefix. lia.
Qed.

Lemma get_five_dec_place_length_witness :
  get_five_dec_place (PFloat 12.5) = Ok "50000"%string
  /\ String.length "50000" = 5%nat.
Proof.
  assert (E : get_five_dec_place (PFloat 12.5) = Ok "50000"%string)
    by (vm_compute; reflexivity).
  split; [exact E |].
  exact (get_five_dec_place_length (PFloat 12.5) "50000" E).
Defined.

(** * Further properties of the chunk scan *)

Lemma anmf_loop_more_fuel (data : list byte) :
  forall fuel pos st r,
    anmf_loop fuel data pos st = Some r ->
    forall extra, anmf_loop (fuel + extra) data pos st = Some r.
Proof.
  induction fuel as [| fuel IH]; intros pos st r H extra; [discriminate |].
  cbn [anmf_loop Nat.add] in *.
  destruct (mm_find data pos ANMF) as [anmf_pos |]; [| assumption].
  destruct (mm_seek data (anmf_pos + 20)) as [pos1 | e]; [| assumption].
  destruct (frame_duration_of (mm_read data pos1 4)) as [d | e]; [| assumption].
  apply IH. assumption.
Qed.

(** X6.  The [while True] loop of the scan always ends: on a file of [n]
    bytes it has finished (with a result or an exception) within [n + 1]
    searches for the marker, and any larger number of rounds gives the same
    outcome.  Each round either fails or moves the read position past the
    marker it found. *)
Theorem anmf_loop_terminates (data : list byte) :
  exists r, anmf_loop (S (List.length data)) data 0 (mkScan 0 0 []) = Some r
    /\ forall fuel, (List.length data < fuel)%nat ->
         anmf_loop fuel data 0 (mkScan 0 0 []) = Some r.
Proof.
  destruct (anmf_loop (S (List.length data)) data 0 (mkScan 0 0 [])) as [r |] eqn:E.
  - exists r. split; [reflexivity |].
    intros fuel Hf.
    replace fuel with (S (List.length data) + (fuel - S (List.length data)))%nat by lia.
    apply anmf_loop_more_fuel. assumption.
  - exfalso. revert E. apply anmf_loop_fuel. lia.
Qed.

Lemma anmf_loop_terminates_witness :
  exists r, anmf_loop 1000 (content webp_uniform_9) 0 (mkScan 0 0 []) = Some r.
Proof.
  destruct (anmf_loop_terminates (content webp_uniform_9)) as [r [_ H]].
  exists r. apply H. apply Nat.ltb_lt. vm_compute. reflexivity.
Defined.

Lemma int_from_bytes_little_bound (bs : list byte) :
  0 <= int_from_bytes_little bs < 256 ^ Z.of_nat (List.length bs).
Proof.
  induction bs as [| b bs IH].
  - cbn. lia.
  - cbn [int_from_bytes_little List.length].
    rewrite Nat2Z.inj_succ, Z.pow_succ_r by lia.
    pose proof (Byte.to_N_bounded b) as Hb.
    lia.
Qed.

Lemma frame_duration_of_bound (bs : list byte) (d : Z) :
  (List.length bs <= 4)%nat -> frame_duration_of bs = Ok d -> 0 <= d < 2 ^ 24.
Proof.
  intros Hl. unfold frame_duration_of.
  destruct bs as [| b0 bs]; [discriminate |].
  intros [= <-]. unfold bytes_of_int. rewrite int_from_bytes_little_zeros.
  pose proof (int_from_bytes_little_bound (removelast (b0 :: bs))) as Hb.
  assert (Hlen : (List.length (removelast (b0 :: bs)) <= 3)%nat).
  { destruct bs as [| b1 [| b2 [| b3 [| b4 bs]]]]; cbn in *; lia. }
  assert (Hp : 256 ^ Z.of_nat (List.length (removelast (b0 :: bs))) <= 256 ^ 3)
    by (apply Z.pow_le_mono_r; lia).
  change (256 ^ 3) with 16777216 in Hp. change (2 ^ 24) with 16777216.
  set (L := 256 ^ Z.of_nat (List.length (removelast (b0 :: bs)))) in *.
  clearbody L. cbn [removelast] in Hb. lia.
Qed.

Lemma frame_durations_loop_bound (data : list byte) :
  forall fuel pos fds,
    frame_durations_loop fuel data pos = Some (Ok fds) ->
    Forall (fun d => 0 <= d < 2 ^ 24) fds.
Proof.
  induction fuel as [| fuel IH]; intros pos fds H; [discriminate |].
  cbn [frame_durations_loop] in H.
  destruct (mm_find data pos ANMF) as [anmf_pos |].
  - destruct (mm_seek data (anmf_pos + 20)) as [pos1 | e]; [| discriminate].
    destruct (frame_duration_of (mm_read data pos1 4)) as [d | e] eqn:Ed; [| discriminate].
    destruct (frame_durations_loop fuel data (pos1 + List.length (mm_read data pos1 4)))
      as [[ds | e] |] eqn:El; try discriminate.
    injection H as <-. constructor.
    + apply (frame_duration_of_bound _ _ (firstn_le_length 4 _) Ed).
    + apply (IH _ _ El).
  - injection H as <-. constructor.
Qed.

Lemma frame_durations_bound (data : list byte) (fds : list Z) :
  frame_durations data = Ok fds -> Forall (fun d => 0 <= d < 2 ^ 24) fds.
Proof.
  unfold frame_durations. destruct data as [| b data]; [discriminate |].
  destruct (frame_durations_loop _ _ _) as [r |] eqn:E.
  - intros ->. apply (frame_durations_loop_bound _ _ _ _ E).
  - intros [= <-]. constructor.
Qed.

Lemma In_In_Zb (z : Z) (zs : list Z) : In z zs -> In_Zb z zs = true.
Proof.
  intros H. unfold In_Zb. apply existsb_exists. exists z.
  split; [assumption | apply Z.eqb_refl].
Qed.

Lemma NoDup_snoc (zs : list Z) (d : Z) : NoDup zs -> ~ In d zs -> NoDup (zs ++ [d]).
Proof.
  induction 1 as [| z zs Hz Hnd IH]; intros Hd; cbn.
  - constructor; [intros [] | constructor].
  - constructor.
    + rewrite in_app_iff. intros [H | [H | []]]; [contradiction |].
      apply Hd. left. symmetry. assumption.
    + apply IH. intros H. apply Hd. right. assumption.
Qed.

Lemma scan_fold_durations (fds : list Z) :
  forall st seen,
    NoDup (scan_durations st) ->
    (forall d, In d (scan_durations st) <-> In d seen /\ d <> 0) ->
    NoDup (scan_durations (fold_left scan_step fds st))
    /\ (forall d, In d (scan_durations (fold_left scan_step fds st))
                  <-> In d (seen ++ fds) /\ d <> 0).
Proof.
  induction fds as [| a fds IH]; intros st seen Hnd Hin.
  - cbn [fold_left]. rewrite app_nil_r. split; assumption.
  - cbn [fold_left].
    replace (seen ++ a :: fds) with ((seen ++ [a]) ++ fds)
      by (rewrite <- app_assoc; reflexivity).
    apply IH; unfold scan_step; cbn [scan_durations].
    + destruct (In_Zb a (scan_durations st)) eqn:Ein; cbn [negb andb]; [assumption |].
      destruct (Z.eqb_spec a 0); cbn [negb]; [assumption |].
      apply NoDup_snoc; [assumption |].
      intros H. apply In_In_Zb in H. congruence.
    + intros d. rewrite in_app_iff. cbn [In].
      destruct (In_Zb a (scan_durations st)) eqn:Ein; cbn [negb andb].
      * apply In_Zb_In in Ein. rewrite Hin in *.
        split; [intros [H Hd]; split; [left |]; assumption |].
        intros [[H | [<- | []]] Hd]; [split; assumption | assumption].
      * destruct (Z.eqb_spec a 0) as [-> | Ha]; cbn [negb].
        -- rewrite Hin. split; [intros [H Hd]; split; [left |]; assumption |].
           intros [[H | [<- | []]] Hd]; [split; assumption | contradiction].
        -- rewrite in_app_iff, Hin. cbn [In].
           split.
           ++ intros [[H Hd] | [<- | []]]; [split; [left |]; assumption |].
              split; [right; left; reflexivity | assumption].
           ++ intros [[H | [<- | []]] Hd]; [left; split; assumption |].
              right. left. reflexivity.
Qed.

Lemma sum_of_bound (fds : list Z) (b : Z) :
  Forall (fun d => 0 <= d < b) fds ->
  0 <= sum_of fds <= (b - 1) * Z.of_nat (List.length fds).
Proof.
  induction 1 as [| d fds Hd _ IH].
  - cbn. lia.
  - cbn [sum_of fold_right List.length]. fold (sum_of fds).
    rewrite Nat2Z.inj_succ. lia.
Qed.

(** X7.  What a successful scan has collected.  The frame count is the
    number of markers met, the total is the sum of their durations, and
    every duration is a 24-bit value ([0 <= d < 2^24]: three bytes are
    read).  The list of durations holds each non-zero duration exactly
    once: it has no duplicate, never contains 0, and a value is in it
    exactly when some frame has it. *)
Theorem anmf_scan_invariants (data : list byte) (st : scan) :
  anmf_scan data = Ok st ->
  exists fds,
    frame_durations data = Ok fds
    /\ Forall (fun d => 0 <= d < 2 ^ 24) fds
    /\ scan_frames st = Z.of_nat (List.length fds)
    /\ scan_total_duration st = sum_of fds
    /\ 0 <= scan_total_duration st <= (2 ^ 24 - 1) * scan_frames st
    /\ NoDup (scan_durations st)
    /\ (forall d, In d (scan_durations st) <-> In d fds /\ d <> 0).
Proof.
  rewrite anmf_scan_frame_durations.
  destruct (frame_durations data) as [fds | e] eqn:E; [| discriminate].
  cbn [bind]. intros [= <-].
  pose proof (frame_durations_bound _ _ E) as Hb.
  exists fds. split; [reflexivity |]. split; [assumption |].
  split; [apply scan_of_frames |]. split; [apply scan_of_total |].
  split; [rewrite scan_of_frames, scan_of_total; apply sum_of_bound; assumption |].
  apply (scan_fold_durations fds (mkScan 0 0 []) []).
  - constructor.
  - intros d. cbn. tauto.
Qed.

Lemma anmf_scan_invariants_witness :
  anmf_scan (content webp_mixed) = Ok (mkScan 180 3 [40; 100])
  /\ exists fds, frame_durations (content webp_mixed) = Ok fds
                 /\ 3 = Z.of_nat (List.length fds).
Proof.
  assert (E : anmf_scan (content webp_mixed) = Ok (mkScan 180 3 [40; 100]))
    by (vm_compute; reflexivity).
  split; [exact E |].
  destruct (anmf_scan_invariants _ _ E) as [fds [Hf [_ [Hn _]]]].
  exists fds. split; [exact Hf | exact Hn].
Defined.

(** X8.  The edge cases of the WebP scan.  An empty file cannot be mapped
    ([ValueError]); a file without any [ANMF] marker is a still picture,
    [(0.0, 1, 0)]; a file that ends less than 20 bytes after the start of
    a marker makes the [seek] fail ([ValueError]); one that ends exactly
    20 bytes after it yields an empty read, whose last byte does not exist
    ([IndexError]). *)
Theorem webp_scan_edge_cases (file : File) :
  (content file = [] ->
   _get_file_fps_frames_duration_webp file = Raise ValueError)
  /\ (content file <> [] -> mm_find (content file) 0 ANMF = None ->
      _get_file_fps_frames_duration_webp file = Ok (PFloat zero, 1, PInt 0))
  /\ (forall p, mm_find (content file) 0 ANMF = Some p ->
        ((List.length (content file) < p + 20)%nat ->
         _get_file_fps_frames_duration_webp file = Raise ValueError)
        /\ (List.length (content file) = (p + 20)%nat ->
            _get_file_fps_frames_duration_webp file = Raise IndexError)).
Proof.
  unfold _get_file_fps_frames_duration_webp, anmf_scan.
  split; [intros ->; reflexivity |].
  split.
  - intros Hne Hf. destruct (content file) as [| b data] eqn:E; [contradiction |].
    cbn [anmf_loop]. rewrite Hf. reflexivity.
  - intros p Hf.
    destruct (content file) as [| b data] eqn:E; [discriminate |].
    cbn [anmf_loop]. rewrite Hf. unfold mm_seek. split; intros Hl.
    + destruct (Nat.ltb_spec (List.length (b :: data)) (p + 20)) as [_ | H]; [| lia].
      reflexivity.
    + destruct (Nat.ltb_spec (List.length (b :: data)) (p + 20)) as [H | _]; [lia |].
      unfold mm_read. rewrite <- Hl, skipn_all. reflexivity.
Qed.

Lemma webp_scan_edge_cases_witness :
  _get_file_fps_frames_duration_webp (webp_file []) = Raise ValueError
  /\ _get_file_fps_frames_duration_webp (webp_file riff_header)
     = Ok (PFloat zero, 1, PInt 0)
  /\ _get_file_fps_frames_duration_webp (webp_file (riff_header ++ ANMF ++ repeat x00 10))
     = Raise ValueError
  /\ _get_file_fps_frames_duration_webp (webp_file (riff_header ++ ANMF ++ repeat x00 16))
     = Raise IndexError.
Proof.
  split; [apply (webp_scan_edge_cases (webp_file [])); reflexivity |].
  split; [apply (webp_scan_edge_cases (webp_file riff_header));
          [discriminate | reflexivity] |].
  split.
  - destruct (webp_scan_edge_cases (webp_file (riff_header ++ ANMF ++ repeat x00 10)))
      as [_ [_ H]].
    apply (H 12%nat); [reflexivity | apply Nat.ltb_lt; reflexivity].
  - destruct (webp_scan_edge_cases (webp_file (riff_header ++ ANMF ++ repeat x00 16)))
      as [_ [_ H]].
    apply (H 12%nat); reflexivity.
Defined.

(** * Further properties of the decode-fallback strategy *)

Section Decode.

Lemma last_cons_default {A : Type} (l : list A) :
  forall a d, last (a :: l) d = last l a.
Proof.
  induction l as [| b l IH]; intros a d; [reflexivity |].
  change (last (a :: b :: l) d) with (last (b :: l) d).
  rewrite !IH. reflexivity.
Qed.

Lemma last_map_Some {A : Type} (l : list A) :
  forall a d, last (map Some (a :: l)) d = Some (last l a).
Proof.
  induction l as [| b l IH]; intros a d; [reflexivity |].
  change (last (map Some (a :: b :: l)) d) with (last (map Some (b :: l)) d).
  rewrite IH, last_cons_default. reflexivity.
Qed.

Lemma decode_loop_bounded (k : Z) (frames : list VideoFrame) :
  forall index frame_count last_frame,
    index <= k ->
    decode_loop (Some k) frames index frame_count last_frame =
      (match frames with
       | [] => frame_count
       | _ :: _ => Z.min k (index + Z.of_nat (List.length frames) - 1)
       end,
       last (map Some (firstn (Z.to_nat (k - index)) frames)) last_frame).
Proof.
  induction frames as [| frame rest IH]; intros index fc lf Hk.
  - cbn. rewrite firstn_nil. reflexivity.
  - cbn [decode_loop].
    destruct (Z.eqb_spec index k) as [-> | Hne].
    + rewrite Z.sub_diag. cbn [Z.to_nat firstn map last List.length].
      f_equal. lia.
    + rewrite IH by lia.
      replace (Z.to_nat (k - index)) with (S (Z.to_nat (k - (index + 1)))) by lia.
      cbn [firstn map]. rewrite last_cons_default. f_equal.
      destruct rest as [| f rest]; cbn [List.length]; lia.
Qed.

Lemma decode_loop_all (frames : list VideoFrame) :
  forall index frame_count last_frame,
    decode_loop None frames index frame_count last_frame =
      (match frames with
       | [] => frame_count
       | _ :: _ => index + Z.of_nat (List.length frames) - 1
       end,
       last (map Some frames) last_frame).
Proof.
  induction frames as [| frame rest IH]; intros index fc lf; [reflexivity |].
  cbn [decode_loop]. rewrite IH. cbn [map]. rewrite last_cons_default. f_equal.
  destruct rest as [| f rest]; cbn [List.length]; lia.
Qed.

(** The loop as a whole, started as the function starts it. *)
Lemma decode_loop_kept (frames_to_iterate : option Z) (frames : list VideoFrame) :
  (forall k, frames_to_iterate = Some k -> 0 <= k) ->
  decode_loop frames_to_iterate frames 0 0 None =
    (match frames with
     | [] => 0
     | _ :: _ =>
         let last_index := Z.of_nat (List.length frames) - 1 in
         match frames_to_iterate with
         | Some k => Z.min k last_index
         | None => last_index
         end
     end,
     last (map Some (frames_kept frames_to_iterate frames)) None).
Proof.
  intros Hk. destruct frames_to_iterate as [k |].
  - rewrite decode_loop_bounded by (apply Hk; reflexivity).
    rewrite Z.sub_0_r. unfold frames_kept. destruct frames; reflexivity.
  - rewrite decode_loop_all. destruct frames; reflexivity.
Qed.

Variable file : File.
Variable container : InputContainer.
Variable stream : VideoStream.
Variable others : list VideoStream.
Variable duration_metadata : Z.
Hypothesis Hopen : av_open file = Ok container.
Hypothesis Hstream : streams_video container = stream :: others.
Hypothesis Hmeta : duration_metadata_of container = Ok duration_metadata.

Lemma av_shortcut (frames_to_iterate : option Z) :
  1 < stream_frames stream ->
  _get_file_frames_duration_av file frames_to_iterate true
    = Ok (stream_frames stream, duration_metadata).
Proof.
  intros H. unfold _get_file_frames_duration_av.
  rewrite Hopen. cbn [bind]. rewrite Hstream. unfold getitem. cbn [nth_error bind].
  rewrite Hmeta. cbn [bind andb].
  destruct (Z.ltb_spec 1 (stream_frames stream)); [reflexivity | lia].
Qed.

Lemma av_decodes (frames_to_iterate : option Z) (frames_only : bool) (n d : Z) :
  (forall k, frames_to_iterate = Some k -> 0 <= k) ->
  frames_only && (1 <? stream_frames stream) = false ->
  _get_file_frames_duration_av file frames_to_iterate frames_only = Ok (n, d) ->
  let last_index := Z.of_nat (List.length (decoded stream)) - 1 in
  match frames_kept frames_to_iterate (decoded stream) with
  | [] => n = 0 /\ d = 0
  | _ :: _ =>
      n = match frames_to_iterate with
          | Some k => Z.min k last_index
          | None => last_index
          end
      /\ (n <= 1 \/ duration_metadata <> 0 -> d = duration_metadata)
  end.
Proof.
  intros Hk Hslow. unfold _get_file_frames_duration_av.
  rewrite Hopen. cbn [bind]. rewrite Hstream. unfold getitem. cbn [nth_error bind].
  rewrite Hmeta. cbn [bind]. rewrite Hslow.
  rewrite (decode_loop_kept _ _ Hk).
  destruct (frames_kept frames_to_iterate (decoded stream)) as [| fr kept] eqn:Ekept.
  - cbn [map last]. intros [= <- <-]. split; reflexivity.
  - rewrite last_map_Some.
    destruct (decoded stream) as [| f0 rest] eqn:Edec.
    { destruct frames_to_iterate; cbn in Ekept; [rewrite firstn_nil in Ekept |];
        discriminate. }
    set (fc := match frames_to_iterate with
               | Some k => Z.min k (Z.of_nat (List.length (f0 :: rest)) - 1)
               | None => Z.of_nat (List.length (f0 :: rest)) - 1
               end).
    cbv zeta. fold fc.
    destruct (int_truediv _ _) as [tb | e]; [| discriminate].
    cbn [bind].
    destruct (py_mul (PFloat tb) (PInt 1000)) as [time_base_ms | e]; [| discriminate].
    cbn [bind].
    destruct ((fc <=? 1) || negb (duration_metadata =? 0)) eqn:Eguard.
    + intros [= <- <-]. split; reflexivity.
    + destruct (match pts (last kept fr) with
                | Some p => Ok (PInt p)
                | None => Raise TypeError
                end) as [last_pts | e]; [| discriminate].
      cbn [bind].
      destruct (py_mul last_pts time_base_ms) as [d1 | e]; [| discriminate].
      cbn [bind].
      destruct (py_truediv d1 (PInt (fc - 1))) as [ms | e]; [| discriminate].
      cbn [bind].
      destruct (py_mul (PInt fc) ms) as [dur | e]; [| discriminate].
      cbn [bind].
      destruct (int_rounding dur) as [rounded | e]; [| discriminate].
      cbn [bind]. intros [= <- <-]. split; [reflexivity |].
      apply orb_false_iff in Eguard. destruct Eguard as [E1 E2].
      apply Z.leb_gt in E1. apply negb_false_iff, Z.eqb_eq in E2. lia.
Qed.

End Decode.

Lemma av_metadata (file : File) (container : InputContainer) (stream : VideoStream)
    (others : list VideoStream) (frames_to_iterate : option Z) (frames_only : bool)
    (r : Z * Z) :
  av_open file = Ok container ->
  streams_video container = stream :: others ->
  _get_file_frames_duration_av file frames_to_iterate frames_only = Ok r ->
  exists duration_metadata, duration_metadata_of container = Ok duration_metadata.
Proof.
  intros Hopen Hstream. unfold _get_file_frames_duration_av.
  rewrite Hopen. cbn [bind]. rewrite Hstream. unfold getitem. cbn [nth_error bind].
  destruct (duration_metadata_of container) as [dm | e]; [| discriminate].
  intros _. exists dm. reflexivity.
Qed.

Lemma frames_kept_nil (frames_to_iterate : option Z) (frames : list VideoFrame) :
  frames_kept frames_to_iterate frames = [] <->
  frames = [] \/ exists k, frames_to_iterate = Some k /\ k <= 0.
Proof.
  unfold frames_kept. destruct frames_to_iterate as [k |].
  - destruct frames as [| f rest].
    + rewrite firstn_nil. split; [left; reflexivity | reflexivity].
    + destruct (Z.to_nat k) as [| m] eqn:E; cbn [firstn].
      * split; [| reflexivity]. intros _. right. exists k. split; [reflexivity | lia].
      * split; [discriminate |].
        intros [H | [k' [[= <-] Hk]]]; [discriminate | lia].
  - split; [intros ->; left; reflexivity |].
    intros [H | [k [H _]]]; [assumption | discriminate].
Qed.

Lemma av_frame_count
    (file : File) (container : InputContainer) (stream : VideoStream)
    (others : list VideoStream) (frames_to_iterate : option Z) (frames_only : bool)
    (n d : Z) :
  av_open file = Ok container ->
  streams_video container = stream :: others ->
  (forall k, frames_to_iterate = Some k -> 0 <= k) ->
  frames_only && (1 <? stream_frames stream) = false ->
  _get_file_frames_duration_av file frames_to_iterate frames_only = Ok (n, d) ->
  let last_index := Z.max 0 (Z.of_nat (List.length (decoded stream)) - 1) in
  n = match frames_to_iterate with
      | Some k => Z.min k last_index
      | None => last_index
      end.
Proof.
  intros Hopen Hstream Hk Hslow Hav.
  destruct (av_metadata _ _ _ _ _ _ _ Hopen Hstream Hav) as [dm Hmeta].
  pose proof (av_decodes _ _ _ _ _ Hopen Hstream Hmeta _ _ _ _ Hk Hslow Hav) as H.
  cbv zeta in H |- *.
  destruct (frames_kept frames_to_iterate (decoded stream)) as [| fr kept] eqn:Ekept.
  - destruct H as [-> _]. apply frames_kept_nil in Ekept.
    destruct Ekept as [-> | [k [-> Hle]]].
    + cbn [List.length Z.of_nat]. destruct frames_to_iterate as [k |]; [| reflexivity].
      specialize (Hk k eq_refl). lia.
    + specialize (Hk k eq_refl). lia.
  - destruct H as [-> _].
    assert (Hlen : 1 <= Z.of_nat (List.length (decoded stream))).
    { destruct (decoded stream) as [| f0 rest]; [| cbn [List.length]; lia].
      destruct frames_to_iterate; cbn in Ekept; [rewrite firstn_nil in Ekept |];
        discriminate. }
    destruct frames_to_iterate; lia.
Qed.

(** X9.  How many frames the decode loop reports.  When the function has
    to decode (it is not asked for the frame count only, or the metadata
    count is at most 1) and is given a bound [k >= 0], the count it returns
    is [min(k, max(0, N - 1))] for a stream of [N] decodable frames, and
    [max(0, N - 1)] without a bound: never more than the bound, and the
    index of the last frame it looked at, not the number of frames. *)
Theorem av_frame_count_bounded
    (file : File) (container : InputContainer) (stream : VideoStream)
    (others : list VideoStream) (frames_to_iterate : option Z) (frames_only : bool)
    (n d : Z) :
  av_open file = Ok container ->
  streams_video container = stream :: others ->
  (forall k, frames_to_iterate = Some k -> 0 <= k) ->
  frames_only && (1 <? stream_frames stream) = false ->
  _get_file_frames_duration_av file frames_to_iterate frames_only = Ok (n, d) ->
  let last_index := Z.max 0 (Z.of_nat (List.length (decoded stream)) - 1) in
  n = match frames_to_iterate with
      | Some k => Z.min k last_index
      | None => last_index
      end.
Proof. apply av_frame_count. Qed.

Lemma av_frame_count_bounded_witness :
  _get_file_frames_duration_av (video_file None 11) (Some 4) false = Ok (4, 160)
  /\ 4 = Z.min 4 (Z.max 0 (Z.of_nat 11 - 1)).
Proof.
  assert (E : _get_file_frames_duration_av (video_file None 11) (Some 4) false
              = Ok (4, 160)) by (vm_compute; reflexivity).
  split; [exact E |].
  refine (av_frame_count_bounded (video_file None 11) _ _ _ (Some 4) false 4 160
            eq_refl eq_refl _ eq_refl E).
  intros k [= <-]. lia.
Defined.

(** X10.  Where the duration comes from.  If the loop kept no frame (the
    stream decodes to nothing, or the bound is 0) the result is [(0, 0)]
    and the duration of the container metadata is discarded; otherwise a
    non-zero metadata duration is returned as it is, and so is a zero one
    when the frame count is at most 1: the timestamps are only used when
    the metadata has no duration and the count is at least 2. *)
Theorem av_duration_from_metadata
    (file : File) (container : InputContainer) (stream : VideoStream)
    (others : list VideoStream) (frames_to_iterate : option Z) (frames_only : bool)
    (duration_metadata n d : Z) :
  av_open file = Ok container ->
  streams_video container = stream :: others ->
  duration_metadata_of container = Ok duration_metadata ->
  (forall k, frames_to_iterate = Some k -> 0 <= k) ->
  frames_only && (1 <? stream_frames stream) = false ->
  _get_file_frames_duration_av file frames_to_iterate frames_only = Ok (n, d) ->
  (frames_kept frames_to_iterate (decoded stream) = [] -> n = 0 /\ d = 0)
  /\ (frames_kept frames_to_iterate (decoded stream) <> [] ->
      n <= 1 \/ duration_metadata <> 0 -> d = duration_metadata).
Proof.
  intros Hopen Hstream Hmeta Hk Hslow Hav.
  pose proof (av_decodes _ _ _ _ _ Hopen Hstream Hmeta _ _ _ _ Hk Hslow Hav) as H.
  cbv zeta in H.
  destruct (frames_kept frames_to_iterate (decoded stream)) as [| fr kept].
  - split; [intros _; assumption | intros Hne; contradiction].
  - split; [discriminate | intros _; apply H].
Qed.

Lemma av_duration_from_metadata_witness :
  _get_file_frames_duration_av (video_file (Some 2000000) 50) None false = Ok (49, 2000)
  /\ _get_file_frames_duration_av (video_file (Some 2000000) 0) None false = Ok (0, 0).
Proof.
  assert (E1 : _get_file_frames_duration_av (video_file (Some 2000000) 50) None false
               = Ok (49, 2000)) by (vm_compute; reflexivity).
  assert (E0 : _get_file_frames_duration_av (video_file (Some 2000000) 0) None false
               = Ok (0, 0)) by (vm_compute; reflexivity).
  pose proof (av_duration_from_metadata (video_file (Some 2000000) 50) _ _ _ None false
                2000 49 2000 eq_refl eq_refl ltac:(vm_compute; reflexivity)
                ltac:(discriminate) eq_refl E1) as H.
  split; assumption.
Defined.

Lemma frames_av_ext_branches (e : string) :
  frames_av_ext e = true ->
  String.eqb e ".tgs" = false
  /\ ext_in e [".gif"; ".webp"; ".png"; ".apng"]%string = false.
Proof.
  unfold frames_av_ext. intros H. apply andb_true_iff in H.
  destruct H as [H1 H2]. apply negb_true_iff in H1, H2. split; assumption.
Qed.

(** X11.  [is_anim] on a file that goes to the decode-fallback strategy
    (any extension but .tgs, .gif, .webp, .png, .apng).  When the stream
    metadata announces more than one frame the answer is [True] without
    decoding.  Otherwise up to three frames are decoded and the answer is
    [True] exactly when the stream has at least three frames: the count
    compared with 1 is the index of the last frame seen, so a stream of
    exactly two frames is reported as not animated. *)
Theorem is_anim_video
    (file : File) (container : InputContainer) (stream : VideoStream)
    (others : list VideoStream) :
  frames_av_ext (get_file_ext file) = true ->
  av_open file = Ok container ->
  streams_video container = stream :: others ->
  (1 < stream_frames stream ->
   forall duration_metadata,
     duration_metadata_of container = Ok duration_metadata ->
     is_anim file = Ok true)
  /\ (stream_frames stream <= 1 ->
      forall b, is_anim file = Ok b ->
        b = (3 <=? Z.of_nat (List.length (decoded stream)))).
Proof.
  intros Hext Hopen Hstream.
  destruct (frames_av_ext_branches _ Hext) as [Htgs Hpil].
  unfold is_anim, get_file_frames. cbn [resolve_ext]. rewrite Htgs, Hpil.
  split.
  - intros Hsf dm Hmeta.
    rewrite (av_shortcut _ _ _ _ _ Hopen Hstream Hmeta _ Hsf). cbn [bind].
    destruct (Z.ltb_spec 1 (stream_frames stream)); [reflexivity | lia].
  - intros Hsf b.
    destruct (_get_file_frames_duration_av file (Some 2) true) as [[n d] | e] eqn:Eav;
      [| discriminate].
    cbn [bind]. intros [= <-].
    assert (Hslow : true && (1 <? stream_frames stream) = false).
    { cbn [andb]. apply Z.ltb_ge. assumption. }
    assert (Hk : forall k, Some 2 = Some k -> 0 <= k) by (intros k [= <-]; lia).
    pose proof (av_frame_count _ _ _ _ _ _ _ _ Hopen Hstream Hk Hslow Eav) as Hn.
    cbv zeta in Hn. subst n.
    destruct (Z.ltb_spec 1 (Z.min 2 (Z.max 0 (Z.of_nat (List.length (decoded stream)) - 1))));
      destruct (Z.leb_spec 3 (Z.of_nat (List.length (decoded stream))));
      try reflexivity; lia.
Qed.

Lemma is_anim_video_witness :
  is_anim (video_file None 2) = Ok false /\ false = (3 <=? 2).
Proof.
  assert (E : is_anim (video_file None 2) = Ok false) by (vm_compute; reflexivity).
  split; [exact E |].
  destruct (is_anim_video (video_file None 2) _ _ _ eq_refl eq_refl eq_refl) as [_ H].
  exact (H ltac:(cbn; lia) false E).
Defined.

Lemma av_ext_branches (e : string) :
  av_ext e = true ->
  String.eqb e ".tgs" = false /\ String.eqb e ".webp" = false
  /\ ext_in e [".gif"; ".apng"; ".png"]%string = false.
Proof.
  unfold av_ext. intros H. apply andb_true_iff in H. destruct H as [H H3].
  apply andb_true_iff in H. destruct H as [H1 H2].
  apply negb_true_iff in H1, H2, H3. repeat split; assumption.
Qed.

(** X12.  [get_file_fps] on a video whose container has a duration.  It
    decodes at most ten frames but divides by the duration of the whole
    file, so for a stream of [N >= 1] frames the result is
    [min(10, N - 1) / duration * 1000]: from eleven frames on it is
    [10 / duration * 1000] whatever the real frame rate. *)
Theorem get_file_fps_video
    (file : File) (ext : option string) (container : InputContainer)
    (stream : VideoStream) (others : list VideoStream) (duration_metadata : Z)
    (f : pyval) :
  av_ext (resolve_ext file ext) = true ->
  av_open file = Ok container ->
  streams_video container = stream :: others ->
  duration_metadata_of container = Ok duration_metadata ->
  0 < duration_metadata ->
  decoded stream <> [] ->
  get_file_fps file ext = Ok f ->
  (r <- int_truediv (Z.min 10 (Z.of_nat (List.length (decoded stream)) - 1))
                    duration_metadata ;;
   py_mul (PFloat r) (PInt 1000)) = Ok f.
Proof.
  intros Hext Hopen Hstream Hmeta Hpos Hne.
  destruct (av_ext_branches _ Hext) as [Htgs [Hwebp Hpil]].
  unfold get_file_fps. cbv zeta. rewrite Htgs, Hwebp, Hpil.
  destruct (_get_file_frames_duration_av file (Some 10) false) as [[n d] | e] eqn:Eav;
    [| discriminate].
  cbn [bind].
  assert (Hk : forall k, Some 10 = Some k -> 0 <= k) by (intros k [= <-]; lia).
  pose proof (av_decodes _ _ _ _ _ Hopen Hstream Hmeta (Some 10) false n d Hk eq_refl Eav)
    as H.
  cbv zeta in H.
  destruct (frames_kept (Some 10) (decoded stream)) as [| fr kept] eqn:Ekept.
  - exfalso. apply frames_kept_nil in Ekept.
    destruct Ekept as [E | [k [[= <-] Hle]]]; [contradiction | lia].
  - destruct H as [-> Hd]. rewrite Hd by lia.
    destruct (Z.ltb_spec 0 duration_metadata); [| lia].
    intros E. exact E.
Qed.

Lemma get_file_fps_video_witness :
  get_file_fps (video_file (Some 2000000) 50) None = Ok (PFloat 5)
  /\ (r <- int_truediv (Z.min 10 (Z.of_nat 50 - 1)) 2000 ;; py_mul (PFloat r) (PInt 1000))
     = Ok (PFloat 5)
  /\ get_file_fps_frames_duration (video_file (Some 2000000) 50) None
     = Ok (PFloat 24.5, 49, PInt 2000).
Proof.
  assert (E : get_file_fps (video_file (Some 2000000) 50) None = Ok (PFloat 5))
    by (vm_compute; reflexivity).
  split; [exact E |]. split; [| vm_compute; reflexivity].
  refine (get_file_fps_video (video_file (Some 2000000) 50) None _ _ _ 2000 (PFloat 5)
            eq_refl eq_refl eq_refl _ _ _ E).
  - vm_compute. reflexivity.
  - lia.
  - discriminate.
Defined.

(** X13.  A container that opens but holds no video stream.  Taking
    stream number 0 raises [IndexError], and nothing catches it: the
    frame and duration query, the facade and the single-value queries on
    an extension sent to this strategy, the resolution query and (when
    Pillow does not identify the file) the codec query all raise it. *)
Theorem no_video_stream_raises
    (file : File) (ext : option string) (container : InputContainer) :
  av_open file = Ok container ->
  streams_video container = [] ->
  (forall frames_to_iterate frames_only,
     _get_file_frames_duration_av file frames_to_iterate frames_only = Raise IndexError)
  /\ (av_ext (resolve_ext file ext) = true ->
      get_file_fps_frames_duration file ext = Raise IndexError
      /\ get_file_fps file ext = Raise IndexError
      /\ get_file_duration file ext = Raise IndexError)
  /\ (frames_av_ext (resolve_ext file ext) = true ->
      forall check_anim, get_file_frames file ext check_anim = Raise IndexError)
  /\ (res_av_ext (resolve_ext file ext) = true ->
      get_file_res file ext = Raise IndexError)
  /\ (ext_in (resolve_ext file ext) [".tgs"; ".lottie"; ".json"]%string = false ->
      Image_open file = Raise UnidentifiedImageError ->
      get_file_codec file ext = Raise IndexError).
Proof.
  intros Hopen Hstream.
  assert (Hav : forall frames_to_iterate frames_only,
             _get_file_frames_duration_av file frames_to_iterate frames_only
             = Raise IndexError).
  { intros fti fo. unfold _get_file_frames_duration_av.
    rewrite Hopen. cbn [bind]. rewrite Hstream. reflexivity. }
  split; [exact Hav |].
  split.
  - intros Hext. destruct (av_ext_branches _ Hext) as [Htgs [Hwebp Hpil]].
    unfold get_file_fps_frames_duration, get_file_fps, get_file_duration.
    cbv zeta. rewrite Htgs, Hwebp, Hpil, !Hav.
    assert (Hpil' : ext_in (resolve_ext file ext) [".gif"; ".png"; ".apng"]%string = false).
    { unfold ext_in in *. cbn [existsb] in *.
      destruct (String.eqb (resolve_ext file ext) ".gif");
        destruct (String.eqb (resolve_ext file ext) ".apng");
        destruct (String.eqb (resolve_ext file ext) ".png"); try discriminate; reflexivity. }
    rewrite Hpil'. repeat split.
  - split.
    + intros Hext check_anim. destruct (frames_av_ext_branches _ Hext) as [Htgs Hpil].
      unfold get_file_frames. cbv zeta. rewrite Htgs, Hpil, Hav. reflexivity.
    + split.
      * unfold res_av_ext. intros Hext. apply andb_true_iff in Hext.
        destruct Hext as [H1 H2]. apply negb_true_iff in H1, H2.
        unfold get_file_res. cbv zeta. rewrite H1, H2, Hopen. cbn [bind].
        rewrite Hstream. reflexivity.
      * intros Hvec Him. unfold get_file_codec. cbv zeta.
        rewrite Hvec, Him. cbn [bind]. rewrite Hopen, Hstream. reflexivity.
Qed.

Lemma no_video_stream_raises_witness :
  get_file_fps_frames_duration audio_only None = Raise IndexError
  /\ get_file_codec audio_only None = Raise IndexError.
Proof.
  destruct (no_video_stream_raises audio_only None _ eq_refl eq_refl)
    as [_ [Hf [_ [_ Hc]]]].
  split; [apply Hf; reflexivity | apply Hc; reflexivity].
Defined.

(** * Further properties of the facade and the single-value queries *)

Lemma ext_in_reorder (e a b c : string) :
  ext_in e [a; b; c] = ext_in e [a; c; b].
Proof.
  unfold ext_in. cbn [existsb].
  destruct (String.eqb e a), (String.eqb e b), (String.eqb e c); reflexivity.
Qed.

(** X14.  [get_file_duration] agrees with the facade: whenever
    [get_file_fps_frames_duration] returns a triple, [get_file_duration]
    on the same arguments returns its third component, on every branch
    (vector animation, WebP, Pillow formats, video). *)
Theorem get_file_duration_agrees
    (file : File) (ext : option string) (f : pyval) (n : Z) (d : pyval) :
  get_file_fps_frames_duration file ext = Ok (f, n, d) ->
  get_file_duration file ext = Ok d.
Proof.
  unfold get_file_fps_frames_duration, get_file_duration. cbv zeta.
  rewrite (ext_in_reorder _ ".gif" ".png" ".apng").
  destruct (String.eqb (resolve_ext file ext) ".tgs").
  - destruct (_get_file_fps_frames_tgs file) as [[fps frames] | e]; [| discriminate].
    cbn [bind].
    match goal with
    | |- context [bind ?r _] => destruct r as [duration | e]; [| discriminate]
    end.
    cbn [bind]. intros [= _ _ <-]. reflexivity.
  - destruct (String.eqb (resolve_ext file ext) ".webp").
    + intros ->. reflexivity.
    + destruct (ext_in (resolve_ext file ext) [".gif"; ".apng"; ".png"]%string).
      * intros ->. reflexivity.
      * destruct (_get_file_frames_duration_av file None false) as [[frames duration] | e];
          [| discriminate].
        cbn [bind].
        match goal with
        | |- context [bind ?r _] => destruct r as [fps | e]; [| discriminate]
        end.
        cbn [bind]. intros [= _ _ <-]. reflexivity.
Qed.

Lemma get_file_duration_agrees_witness :
  get_file_fps_frames_duration webp_mixed None = Ok (PFloat 50, 3, PInt 180)
  /\ get_file_duration webp_mixed None = Ok (PInt 180)
  /\ get_file_duration (video_file None 11) None = Ok (PInt 444).
Proof.
  assert (E : get_file_fps_frames_duration webp_mixed None = Ok (PFloat 50, 3, PInt 180))
    by (vm_compute; reflexivity).
  split; [exact E |].
  split; [exact (get_file_duration_agrees webp_mixed None _ _ _ E) |].
  apply (get_file_duration_agrees (video_file None 11) None (PFloat 22.522522522522522) 10).
  vm_compute. reflexivity.
Defined.

(** X15.  [get_file_fps] agrees with the facade on every extension that
    does not go to the decode-fallback strategy (.tgs, .webp, .gif, .apng,
    .png): whenever the facade returns a triple, [get_file_fps] returns its
    first component. *)
Theorem get_file_fps_agrees
    (file : File) (ext : option string) (f : pyval) (n : Z) (d : pyval) :
  av_ext (resolve_ext file ext) = false ->
  get_file_fps_frames_duration file ext = Ok (f, n, d) ->
  get_file_fps file ext = Ok f.
Proof.
  unfold av_ext, get_file_fps_frames_duration, get_file_fps. cbv zeta.
  destruct (String.eqb (resolve_ext file ext) ".tgs").
  - intros _. unfold _get_file_fps_frames_tgs, _get_file_fps_tgs.
    destruct (from_tgs file) as [anim | e]; [| discriminate].
    cbn [bind].
    match goal with
    | |- context [bind ?r _] => destruct r as [duration | e]; [| discriminate]
    end.
    cbn [bind]. intros [= <- _ _]. reflexivity.
  - destruct (String.eqb (resolve_ext file ext) ".webp").
    + intros _ ->. reflexivity.
    + destruct (ext_in (resolve_ext file ext) [".gif"; ".apng"; ".png"]%string).
      * intros _ ->. reflexivity.
      * discriminate.
Qed.

Lemma get_file_fps_agrees_witness :
  get_file_fps webp_mixed None = Ok (PFloat 50)
  /\ get_file_fps slow_apng None = Ok (PFloat 1).
Proof.
  split.
  - apply (get_file_fps_agrees webp_mixed None (PFloat 50) 3 (PInt 180));
      vm_compute; reflexivity.
  - apply (get_file_fps_agrees slow_apng None (PFloat 1) 2 (PFloat 2000));
      vm_compute; reflexivity.
Defined.

Lemma pillow_frames_only (file : File) (f : pyval) (n : Z) (d : pyval) :
  _get_file_fps_frames_duration_pillow file false = Ok (f, n, d) ->
  exists f' d', _get_file_fps_frames_duration_pillow file true = Ok (f', n, d').
Proof.
  unfold _get_file_fps_frames_duration_pillow.
  destruct (Image_open file) as [im | e]; [| discriminate].
  cbn [bind]. destruct (n_frames_attr im).
  - destruct (pillow_loop _ _) as [[total durations] | e]; [| discriminate].
    cbn [bind].
    match goal with
    | |- context [bind ?r _] => destruct r as [fps | e]; [| discriminate]
    end.
    cbn [bind]. intros [= _ <- _]. eexists. eexists. reflexivity.
  - intros [= _ <- _]. eexists. eexists. reflexivity.
Qed.

(** X16.  [get_file_frames] agrees with the facade on vector animations
    and on the formats both send to Pillow (.gif, .apng, .png): whenever
    the facade returns a triple, [get_file_frames] returns its frame
    count, with or without [check_anim].  (For .webp the two read the
    file in different ways, and for a video the bounded decode and the
    metadata shortcut can give another count.) *)
Theorem get_file_frames_agrees
    (file : File) (ext : option string) (check_anim : bool)
    (f : pyval) (n : Z) (d : pyval) :
  av_ext (resolve_ext file ext) = false ->
  String.eqb (resolve_ext file ext) ".webp" = false ->
  get_file_fps_frames_duration file ext = Ok (f, n, d) ->
  get_file_frames file ext check_anim = Ok n.
Proof.
  unfold av_ext, get_file_fps_frames_duration, get_file_frames. cbv zeta.
  intros Hav Hwebp. rewrite Hwebp in *.
  destruct (String.eqb (resolve_ext file ext) ".tgs").
  - unfold _get_file_fps_frames_tgs, _get_file_frames_tgs.
    destruct (from_tgs file) as [anim | e]; [| discriminate].
    cbn [bind].
    match goal with
    | |- context [bind ?r _] => destruct r as [duration | e]; [| discriminate]
    end.
    cbn [bind]. intros [= _ <- _]. reflexivity.
  - destruct (ext_in (resolve_ext file ext) [".gif"; ".apng"; ".png"]%string) eqn:Epil;
      [| discriminate].
    assert (E4 : ext_in (resolve_ext file ext) [".gif"; ".webp"; ".png"; ".apng"]%string
                 = true).
    { unfold ext_in in *. cbn [existsb] in *. rewrite Hwebp.
      destruct (String.eqb (resolve_ext file ext) ".gif");
        destruct (String.eqb (resolve_ext file ext) ".apng");
        destruct (String.eqb (resolve_ext file ext) ".png");
        try discriminate; reflexivity. }
    rewrite E4. intros H.
    destruct (pillow_frames_only _ _ _ _ H) as [f' [d' E]].
    rewrite E. reflexivity.
Qed.

Lemma get_file_frames_agrees_witness :
  get_file_frames slow_apng None false = Ok 2
  /\ get_file_frames slow_apng None true = Ok 2.
Proof.
  split.
  - apply (get_file_frames_agrees slow_apng None false (PFloat 1) 2 (PFloat 2000));
      vm_compute; reflexivity.
  - apply (get_file_frames_agrees slow_apng None true (PFloat 1) 2 (PFloat 2000));
      vm_compute; reflexivity.
Defined.

Lemma positive_float_not_zero (y : float) :
  py_ltb (PInt 0) (PFloat y) = true -> is_zero y = false.
Proof.
  unfold is_zero. rewrite FloatAxioms.eqb_spec.
  unfold py_ltb, exact_of_float.
  destruct (Prim2SF y) as [s | s | | s m e]; intros H.
  - cbn in H. discriminate.
  - destruct s; reflexivity.
  - reflexivity.
  - destruct s; reflexivity.
Qed.

(** X17.  Vector animations.  The frame rate (a float) and the frame count
    are the ones rlottie reports.  When the frame rate is not greater than
    0 (zero, negative or NaN) the duration is 0; and since the division
    [frames / fps] is only reached with [fps > 0], this branch of the
    facade never raises [ZeroDivisionError]. *)
Theorem tgs_timing (file : File) (ext : option string) (anim : LottieAnimation) :
  resolve_ext file ext = ".tgs"%string ->
  from_tgs file = Ok anim ->
  let fps := lottie_animation_get_framerate anim in
  let frames := lottie_animation_get_totalframe anim in
  get_file_fps_frames_duration file ext <> Raise ZeroDivisionError
  /\ (py_ltb (PInt 0) (PFloat fps) = false ->
      get_file_fps_frames_duration file ext = Ok (PFloat fps, frames, PInt 0))
  /\ (forall f n d,
        get_file_fps_frames_duration file ext = Ok (f, n, d) ->
        f = PFloat fps /\ n = frames /\ exists z, d = PInt z).
Proof.
  intros Hext Htgs fps frames.
  unfold get_file_fps_frames_duration, _get_file_fps_frames_tgs. cbv zeta.
  rewrite Hext, Htgs. cbn [String.eqb Ascii.eqb Bool.eqb bind]. fold fps frames.
  split; [| split].
  - destruct (py_ltb (PInt 0) (PFloat fps)) eqn:Hpos; [| discriminate].
    apply positive_float_not_zero in Hpos.
    unfold py_truediv. cbn [py_float]. unfold float_of_int.
    destruct (is_infinity (float_of_scaled frames 0)); cbn [bind]; [discriminate |].
    unfold float_truediv. rewrite Hpos. cbn [bind].
    unfold py_mul, py_float, float_of_int.
    destruct (is_infinity (float_of_scaled 1000 0)); cbn [bind]; [discriminate |].
    unfold py_int, int_of_float.
    destruct (Prim2SF _) as [s | s | | s m e]; cbn [bind]; discriminate.
  - intros ->. reflexivity.
  - intros f n d.
    match goal with
    | |- context [bind ?r _] => destruct r as [duration | e]; [| discriminate]
    end.
    cbn [bind]. intros [= <- <- <-].
    split; [reflexivity |]. split; [reflexivity |]. exists duration. reflexivity.
Qed.

Lemma tgs_timing_witness :
  get_file_fps_frames_duration (tgs_file 0 180) None = Ok (PFloat 0, 180, PInt 0)
  /\ get_file_fps_frames_duration (tgs_file 60 180) None = Ok (PFloat 60, 180, PInt 3000)
  /\ get_file_fps_frames_duration (tgs_file 29.97 90) None
     = Ok (PFloat 29.97, 90, PInt 3003).
Proof.
  split.
  - refine (proj1 (proj2 (tgs_timing (tgs_file 0 180) None _ eq_refl eq_refl)) _).
    vm_compute. reflexivity.
  - split; vm_compute; reflexivity.
Defined.

(** ** The Pillow strategy on frames of zero duration *)

Lemma pillow_loop_zeros (infos : list (option pyval)) :
  Forall (fun i => i = Some (PInt 0) \/ i = Some (PFloat zero)) infos ->
  pillow_loop infos (PFloat zero, []) = Ok (PFloat zero, []).
Proof.
  induction 1 as [| i infos Hi _ IH]; [reflexivity |].
  cbn [pillow_loop].
  assert (E : pillow_step (PFloat zero, []) i = Ok (PFloat zero, [])).
  { destruct Hi as [-> | ->]; vm_compute; reflexivity. }
  rewrite E. cbn [bind]. assumption.
Qed.

(** X18.  The Pillow strategy never divides by zero: when every frame
    reports a duration of 0 (an int or a float), whatever the number of
    frames, zero included, the result is fps 0.0 with the frame count and
    a total duration of 0.0.  (The WebP scan raises on the same input.) *)
Theorem pillow_zero_durations (file : File) (im : Image) :
  Image_open file = Ok im ->
  n_frames_attr im = true ->
  Forall (fun i => i = Some (PInt 0) \/ i = Some (PFloat zero)) (frame_info im) ->
  _get_file_fps_frames_duration_pillow file false
    = Ok (PFloat zero, n_frames im, PFloat zero).
Proof.
  intros Hopen Hattr Hz. unfold _get_file_fps_frames_duration_pillow.
  rewrite Hopen. cbn [bind]. rewrite Hattr.
  rewrite (pillow_loop_zeros _ Hz). cbn [bind].
  replace (py_eqb (PFloat zero) (PInt 0)) with true by (vm_compute; reflexivity).
  rewrite orb_true_r. reflexivity.
Qed.

Lemma pillow_zero_durations_witness :
  _get_file_fps_frames_duration_pillow
    (pillow_file ".gif" "GIF" [Some (PInt 0); Some (PInt 0); Some (PInt 0)]) false
  = Ok (PFloat zero, 3, PFloat zero).
Proof.
  refine (pillow_zero_durations
            (pillow_file ".gif" "GIF" [Some (PInt 0); Some (PInt 0); Some (PInt 0)])
            _ eq_refl eq_refl _).
  repeat constructor.
Defined.

(** * Further properties of the codec query and the constructor *)

(** ** [str.lower] *)

Section Lower.

Ltac zbool :=
  repeat match goal with
    | |- context [?a <? ?b] =>
        destruct (Z.ltb_spec a b); try (exfalso; Z.div_mod_to_equations; lia)
    | |- context [?a <=? ?b] =>
        destruct (Z.leb_spec a b); try (exfalso; Z.div_mod_to_equations; lia)
    end;
  cbn [andb orb negb].

Lemma codes_bytes (s : string) : Forall is_byte (codes s).
Proof.
  unfold codes. apply Forall_forall. intros b Hb.
  apply in_map_iff in Hb. destruct Hb as [a [<- _]].
  pose proof (N_ascii_bounded a). unfold is_byte. lia.
Qed.

Lemma chars_codes (s : string) : chars (codes s) = s.
Proof.
  unfold chars, codes. rewrite map_map.
  rewrite (map_ext _ (fun a => a)).
  - rewrite map_id. apply string_of_list_ascii_of_string.
  - intros a. rewrite N2Z.id. apply ascii_N_embedding.
Qed.

Lemma codes_chars (bs : list Z) : Forall is_byte bs -> codes (chars bs) = bs.
Proof.
  intros H. unfold chars, codes.
  rewrite list_ascii_of_string_of_list_ascii, map_map.
  induction H as [| b bs Hb _ IH]; [reflexivity |].
  cbn [map]. rewrite IH. f_equal.
  unfold is_byte in Hb. rewrite N_ascii_embedding by lia. lia.
Qed.

(** *** The UTF-8 codec *)

Lemma utf8_head_shorter (bs : list Z) (c : Z) (rest : list Z) :
  utf8_head bs = Some (c, rest) -> (List.length rest < List.length bs)%nat.
Proof.
  unfold utf8_head. destruct bs as [| b0 r0]; [discriminate |].
  destruct (b0 <? 0x80); [intros [= _ <-]; cbn; lia |].
  destruct ((0xC2 <=? b0) && (b0 <=? 0xDF)).
  { destruct r0 as [| b1 r1]; [discriminate |].
    destruct (cont b1); [| discriminate]. intros [= _ <-]. cbn. lia. }
  destruct ((0xE0 <=? b0) && (b0 <=? 0xEF)).
  { destruct r0 as [| b1 [| b2 r2]]; try discriminate.
    cbv zeta. destruct (_ && _); [| discriminate]. intros [= _ <-]. cbn. lia. }
  destruct ((0xF0 <=? b0) && (b0 <=? 0xF4)); [| discriminate].
  destruct r0 as [| b1 [| b2 [| b3 r3]]]; try discriminate.
  cbv zeta. destruct (_ && _); [| discriminate]. intros [= _ <-]. cbn. lia.
Qed.

Lemma decode_loop_utf8_fuel :
  forall fuel fuel' bs,
    (List.length bs <= fuel)%nat -> (List.length bs <= fuel')%nat ->
    decode_loop_utf8 fuel bs = decode_loop_utf8 fuel' bs.
Proof.
  induction fuel as [| fuel IH]; intros fuel' bs H H'.
  - destruct bs; [| cbn in H; lia]. destruct fuel'; reflexivity.
  - destruct bs as [| b r]; [destruct fuel'; reflexivity |].
    destruct fuel' as [| fuel']; [cbn in H'; lia |].
    cbn [decode_loop_utf8].
    destruct (utf8_head (b :: r)) as [[c rest] |] eqn:E.
    + apply utf8_head_shorter in E. cbn [List.length] in *.
      f_equal. apply IH; lia.
    + cbn [List.length] in *. f_equal. apply IH; lia.
Qed.

Lemma utf8_decode_head (bs : list Z) (c : Z) (rest : list Z) :
  utf8_head bs = Some (c, rest) -> utf8_decode bs = c :: utf8_decode rest.
Proof.
  intros E. pose proof (utf8_head_shorter _ _ _ E) as Hs.
  unfold utf8_decode. destruct bs as [| b r]; [discriminate |].
  cbn [List.length decode_loop_utf8]. rewrite E. f_equal.
  cbn [List.length] in Hs. apply decode_loop_utf8_fuel; lia.
Qed.

Lemma utf8_decode_escape (b : Z) (r : list Z) :
  utf8_head (b :: r) = None -> utf8_decode (b :: r) = (0xDC00 + b) :: utf8_decode r.
Proof.
  intros E. unfold utf8_decode. cbn [List.length decode_loop_utf8]. rewrite E.
  reflexivity.
Qed.

Lemma utf8_head_sound (bs : list Z) (c : Z) (rest : list Z) :
  Forall is_byte bs -> utf8_head bs = Some (c, rest) ->
  scalar c /\ bs = utf8_encode_one c ++ rest.
Proof.
  unfold utf8_head, utf8_encode_one, scalar, escape, cont, is_byte.
  intros Hb. destruct bs as [| b0 r0]; [discriminate |].
  inversion Hb as [| ? ? H0 Hr0]; subst.
  destruct (Z.ltb_spec b0 0x80).
  { intros [= <- <-]. zbool. split; [lia | reflexivity]. }
  destruct (Z.leb_spec 0xC2 b0); cbn [andb];
    [destruct (Z.leb_spec b0 0xDF); cbn [andb] |].
  { destruct r0 as [| b1 r1]; [discriminate |].
    destruct (Z.leb_spec 0x80 b1); cbn [andb]; [| discriminate].
    destruct (Z.leb_spec b1 0xBF); [| discriminate].
    intros [= <- <-]. zbool. split; [lia |].
    cbn [app]. f_equal; [| f_equal]; Z.div_mod_to_equations; lia. }
  2: { destruct (Z.leb_spec 0xE0 b0); cbn [andb]; [lia |].
       destruct (Z.leb_spec 0xF0 b0); cbn [andb]; [lia | discriminate]. }
  destruct (Z.leb_spec 0xE0 b0); cbn [andb]; [| lia].
  destruct (Z.leb_spec b0 0xEF); cbn [andb].
  { destruct r0 as [| b1 [| b2 r2]]; try discriminate.
    cbv zeta.
    destruct (Z.leb_spec 0x80 b1); cbn [andb]; [| discriminate].
    destruct (Z.leb_spec b1 0xBF); cbn [andb]; [| discriminate].
    destruct (Z.leb_spec 0x80 b2); cbn [andb]; [| discriminate].
    destruct (Z.leb_spec b2 0xBF); cbn [andb]; [| discriminate].
    set (c0 := (b0 - 0xE0) * 4096 + (b1 - 0x80) * 64 + (b2 - 0x80)).
    assert (Hc : c0 = (b0 - 0xE0) * 4096 + (b1 - 0x80) * 64 + (b2 - 0x80))
      by reflexivity.
    clearbody c0.
    destruct (Z.leb_spec 0x800 c0); cbn [andb]; [| discriminate].
    destruct (Z.leb_spec 0xD800 c0); cbn [andb negb].
    - destruct (Z.leb_spec c0 0xDFFF); cbn [negb]; [discriminate |].
      intros [= <- <-]. zbool. split; [lia |].
      cbn [app]. f_equal; [| f_equal; [| f_equal]]; Z.div_mod_to_equations; lia.
    - intros [= <- <-]. zbool. split; [lia |].
      cbn [app]. f_equal; [| f_equal; [| f_equal]]; Z.div_mod_to_equations; lia. }
  destruct (Z.leb_spec 0xF0 b0); cbn [andb]; [| lia].
  destruct (Z.leb_spec b0 0xF4); cbn [andb]; [| discriminate].
  destruct r0 as [| b1 [| b2 [| b3 r3]]]; try discriminate.
  cbv zeta.
  destruct (Z.leb_spec 0x80 b1); cbn [andb]; [| discriminate].
  destruct (Z.leb_spec b1 0xBF); cbn [andb]; [| discriminate].
  destruct (Z.leb_spec 0x80 b2); cbn [andb]; [| discriminate].
  destruct (Z.leb_spec b2 0xBF); cbn [andb]; [| discriminate].
  destruct (Z.leb_spec 0x80 b3); cbn [andb]; [| discriminate].
  destruct (Z.leb_spec b3 0xBF); cbn [andb]; [| discriminate].
  set (c0 := (b0 - 0xF0) * 262144 + (b1 - 0x80) * 4096 + (b2 - 0x80) * 64 + (b3 - 0x80)).
  assert (Hc : c0 = (b0 - 0xF0) * 262144 + (b1 - 0x80) * 4096
                    + (b2 - 0x80) * 64 + (b3 - 0x80)) by reflexivity.
  clearbody c0.
  destruct (Z.leb_spec 0x10000 c0); cbn [andb]; [| discriminate].
  destruct (Z.leb_spec c0 0x10FFFF); [| discriminate].
  intros [= <- <-]. zbool. split; [lia |].
  cbn [app]. f_equal; [| f_equal; [| f_equal; [| f_equal]]];
    Z.div_mod_to_equations; lia.
Qed.

Lemma utf8_head_complete (c : Z) (r : list Z) :
  scalar c -> utf8_head (utf8_encode_one c ++ r) = Some (c, r).
Proof.
  unfold utf8_encode_one, scalar, escape. intros Hc.
  destruct (Z.ltb_spec c 0x80).
  { cbn [app utf8_head]. destruct (Z.ltb_spec c 0x80); [reflexivity | lia]. }
  destruct (Z.ltb_spec c 0x800).
  { cbn [app utf8_head]. unfold cont. zbool.
    do 2 f_equal. Z.div_mod_to_equations. lia. }
  destruct (Z.leb_spec 0xDC80 c); cbn [andb];
    [destruct (Z.leb_spec c 0xDCFF); [lia |] |];
    (destruct (Z.ltb_spec c 0x10000);
     [ cbn [app utf8_head]; unfold cont; cbv zeta; zbool;
       do 2 f_equal; Z.div_mod_to_equations; lia
     | cbn [app utf8_head]; unfold cont; cbv zeta; zbool;
       do 2 f_equal; Z.div_mod_to_equations; lia ]).
Qed.

Lemma utf8_encode_one_bytes (c : Z) :
  decoded_code_point c -> Forall is_byte (utf8_encode_one c).
Proof.
  unfold decoded_code_point, scalar, escape, utf8_encode_one, is_byte.
  intros Hc.
  assert (H : 0 <= c <= 0x10FFFF).
  { destruct Hc as [Hc | Hc]; [lia |].
    apply andb_true_iff in Hc. destruct Hc as [H1 H2].
    apply Z.leb_le in H1, H2. lia. }
  clear Hc.
  destruct (Z.ltb_spec c 0x80); [repeat constructor; lia |].
  destruct (Z.ltb_spec c 0x800);
    [repeat constructor; Z.div_mod_to_equations; lia |].
  destruct ((0xDC80 <=? c) && (c <=? 0xDCFF)) eqn:E.
  { apply andb_true_iff in E. destruct E as [Elo Ehi]. apply Z.leb_le in Elo, Ehi.
    repeat constructor; lia. }
  destruct (Z.ltb_spec c 0x10000); repeat constructor; Z.div_mod_to_equations; lia.
Qed.

Lemma utf8_encode_bytes (u : list Z) :
  Forall decoded_code_point u -> Forall is_byte (utf8_encode u).
Proof.
  induction 1 as [| c u Hc _ IH]; [constructor |].
  cbn [utf8_encode flat_map]. apply Forall_app. split; [| exact IH].
  apply utf8_encode_one_bytes. assumption.
Qed.

Lemma utf8_encode_one_escape (c : Z) :
  escape c = true -> utf8_encode_one c = [c - 0xDC00].
Proof.
  unfold escape, utf8_encode_one. intros E. rewrite E.
  apply andb_true_iff in E. destruct E as [H1 H2]. apply Z.leb_le in H1, H2.
  destruct (Z.ltb_spec c 0x80); [lia |].
  destruct (Z.ltb_spec c 0x800); [lia | reflexivity].
Qed.

Lemma scalar_not_escape (c : Z) : scalar c -> escape c = false.
Proof.
  unfold scalar, escape. intros H.
  destruct (Z.leb_spec 0xDC80 c); cbn [andb]; [| reflexivity].
  destruct (Z.leb_spec c 0xDCFF); [lia | reflexivity].
Qed.

Lemma utf8_decode_encode_one (c : Z) (r : list Z) :
  scalar c -> utf8_decode (utf8_encode_one c ++ r) = c :: utf8_decode r.
Proof.
  intros Hc. apply utf8_decode_head. apply utf8_head_complete. assumption.
Qed.

(** Decoding is undone by encoding, and produces a canonical list. *)
Lemma utf8_decode_spec :
  forall n bs, (List.length bs <= n)%nat -> Forall is_byte bs ->
    Forall decoded_code_point (utf8_decode bs)
    /\ utf8_encode (utf8_decode bs) = bs
    /\ canonical (utf8_decode bs).
Proof.
  induction n as [| n IH]; intros bs Hn Hb.
  - destruct bs; [| cbn in Hn; lia]. cbn. repeat split. constructor.
  - destruct bs as [| b r]; [cbn; repeat split; constructor |].
    destruct (utf8_head (b :: r)) as [[c rest] |] eqn:E.
    + pose proof (utf8_head_shorter _ _ _ E) as Hs.
      destruct (utf8_head_sound _ _ _ Hb E) as [Hc Hbs].
      rewrite (utf8_decode_head _ _ _ E).
      assert (Hrest : Forall is_byte rest).
      { rewrite Hbs in Hb. apply Forall_app in Hb. apply Hb. }
      destruct (IH rest ltac:(cbn [List.length] in *; lia) Hrest) as [Hg [He Hcan]].
      split; [constructor; [left; assumption | assumption] |].
      split.
      * cbn [utf8_encode flat_map]. fold (utf8_encode (utf8_decode rest)).
        rewrite He. symmetry. assumption.
      * cbn [canonical]. split; [| assumption].
        rewrite (scalar_not_escape _ Hc). discriminate.
    + rewrite (utf8_decode_escape _ _ E).
      inversion Hb as [| ? ? H0 Hr]; subst.
      destruct (IH r ltac:(cbn [List.length] in *; lia) Hr) as [Hg [He Hcan]].
      assert (Hhi : 0x80 <= b).
      { destruct (Z.ltb_spec b 0x80) as [Hlt | Hge]; [| assumption].
        exfalso. cbn [utf8_head] in E.
        destruct (Z.ltb_spec b 0x80); [discriminate | lia]. }
      assert (Hesc : escape (0xDC00 + b) = true).
      { unfold escape, is_byte in *. apply andb_true_iff.
        split; apply Z.leb_le; lia. }
      split; [constructor; [right; assumption | assumption] |].
      split.
      * cbn [utf8_encode flat_map]. fold (utf8_encode (utf8_decode r)).
        rewrite (utf8_encode_one_escape _ Hesc), He.
        cbn [app]. f_equal. lia.
      * cbn [canonical]. split; [| assumption].
        intros _. rewrite He. replace (0xDC00 + b - 0xDC00) with b by lia.
        assumption.
Qed.

(** A canonical list is what decoding its encoding gives back. *)
Lemma utf8_decode_encode (u : list Z) :
  Forall decoded_code_point u -> canonical u -> utf8_decode (utf8_encode u) = u.
Proof.
  induction 1 as [| c u Hc _ IH]; intros Hcan; [reflexivity |].
  cbn [canonical] in Hcan. destruct Hcan as [Hhead Hcan].
  cbn [utf8_encode flat_map]. fold (utf8_encode u).
  destruct Hc as [Hc | Hc].
  - rewrite (utf8_decode_encode_one _ _ Hc). f_equal. apply IH. assumption.
  - rewrite (utf8_encode_one_escape _ Hc). cbn [app].
    rewrite (utf8_decode_escape _ _ (Hhead Hc)).
    f_equal; [lia | apply IH; assumption].
Qed.

(** Whether a byte starts a well-formed sequence depends on the
    continuation bytes that follow it only. *)
Lemma utf8_head_continuation (b : Z) (x : list Z) :
  0x80 <= b ->
  utf8_head (b :: x) = None <-> utf8_head (b :: continuation_prefix x) = None.
Proof.
  intros Hb. unfold utf8_head.
  destruct (Z.ltb_spec b 0x80); [lia |].
  destruct ((0xC2 <=? b) && (b <=? 0xDF)).
  { destruct x as [| x0 x]; cbn [continuation_prefix]; [tauto |].
    destruct (cont x0) eqn:E0; [rewrite E0 |]; split; intros; (reflexivity || discriminate). }
  destruct ((0xE0 <=? b) && (b <=? 0xEF)).
  { destruct x as [| x0 [| x1 x]]; cbn [continuation_prefix]; [tauto | |].
    - destruct (cont x0); tauto.
    - cbv zeta. destruct (cont x0) eqn:E0; cbn [andb]; [| tauto].
      destruct (cont x1) eqn:E1; cbn [andb]; [| tauto].
      rewrite E0, E1. cbn [andb].
      destruct (_ && _); split; intros; (reflexivity || discriminate). }
  destruct ((0xF0 <=? b) && (b <=? 0xF4)); [| tauto].
  destruct x as [| x0 [| x1 [| x2 x]]]; cbn [continuation_prefix]; [tauto | | |].
  - destruct (cont x0); tauto.
  - destruct (cont x0); [| tauto]. destruct (cont x1); tauto.
  - cbv zeta. destruct (cont x0) eqn:E0; cbn [andb]; [| tauto].
    destruct (cont x1) eqn:E1; cbn [andb]; [| tauto].
    destruct (cont x2) eqn:E2; cbn [andb]; [| tauto].
    rewrite E0, E1, E2. cbn [andb].
    destruct (_ && _); split; intros; (reflexivity || discriminate).
Qed.

Lemma scalar_starts_sequence (c : Z) (x : list Z) :
  scalar c -> continuation_prefix (utf8_encode_one c ++ x) = [].
Proof.
  unfold scalar, utf8_encode_one, escape. intros Hc.
  destruct (Z.ltb_spec c 0x80).
  { cbn [app continuation_prefix]. unfold cont. zbool; reflexivity. }
  destruct (Z.ltb_spec c 0x800).
  { cbn [app continuation_prefix]. unfold cont. zbool; reflexivity. }
  destruct (Z.leb_spec 0xDC80 c); cbn [andb];
    [destruct (Z.leb_spec c 0xDCFF); [lia |] |];
    (destruct (Z.ltb_spec c 0x10000);
     cbn [app continuation_prefix]; unfold cont; zbool; reflexivity).
Qed.

(** *** The lowercase mapping *)

Lemma progression_pairs_complete (r : Z * Z * Z * Z) (c : Z) :
  (let '(_, _, step, _) := r in 0 < step) ->
  in_progression c r = true ->
  let '(_, _, _, delta) := r in In (c, c + delta) (progression_pairs r).
Proof.
  destruct r as [[[first last] step] delta]. intros Hs.
  unfold in_progression, progression_pairs.
  intros H. apply andb_true_iff in H. destruct H as [H Hm].
  apply andb_true_iff in H. destruct H as [Hlo Hhi].
  apply Z.leb_le in Hlo, Hhi. apply Z.eqb_eq in Hm.
  apply in_map_iff. exists (Z.to_nat ((c - first) / step)).
  assert (Hq : 0 <= (c - first) / step) by (apply Z.div_pos; lia).
  assert (Hc : c = first + step * ((c - first) / step)).
  { pose proof (Z.div_mod (c - first) step ltac:(lia)). lia. }
  split.
  - rewrite Z2Nat.id by assumption. rewrite <- Hc. reflexivity.
  - apply in_seq.
    assert ((c - first) / step <= (last - first) / step)
      by (apply Z.div_le_mono; lia).
    lia.
Qed.

Lemma lowercase_delta_pairs (c delta : Z) :
  lowercase_delta c = Some delta -> In (c, c + delta) lowercase_pairs.
Proof.
  unfold lowercase_delta.
  destruct (find (in_progression c) lowercase_ranges) as [[[[first last] step] d] |] eqn:F;
    [| discriminate].
  intros [= <-]. apply find_some in F. destruct F as [Hin Hp].
  unfold lowercase_pairs. apply in_flat_map.
  exists (first, last, step, d). split; [assumption |].
  apply (progression_pairs_complete (first, last, step, d) c); [| assumption].
  assert (Hall : forallb (fun r => let '(_, _, s, _) := r in 0 <? s) lowercase_ranges
                 = true) by (vm_compute; reflexivity).
  rewrite forallb_forall in Hall. specialize (Hall _ Hin). cbn in Hall.
  apply Z.ltb_lt. assumption.
Qed.

Lemma scalarb_scalar (c : Z) : scalarb c = true -> scalar c.
Proof.
  unfold scalarb, scalar. intros H. apply orb_true_iff in H.
  destruct H as [H | H]; apply andb_true_iff in H; destruct H as [H1 H2].
  - apply Z.leb_le in H1. apply Z.ltb_lt in H2. lia.
  - apply Z.leb_le in H1, H2. lia.
Qed.

(** The lowercase of a code point has no lowercase of its own. *)
Lemma lowercase_image (c delta : Z) :
  lowercase_delta c = Some delta ->
  lowercase_fixed (c + delta) = true /\ scalar (c + delta).
Proof.
  intros H. apply lowercase_delta_pairs in H.
  assert (Hall : forallb (fun p => lowercase_fixed (snd p) && scalarb (snd p))
                         lowercase_pairs = true) by (vm_compute; reflexivity).
  rewrite forallb_forall in Hall. specialize (Hall _ H). cbn [snd] in Hall.
  apply andb_true_iff in Hall. destruct Hall as [Hf Hs].
  split; [assumption | apply scalarb_scalar; assumption].
Qed.

(** No surrogate has a lowercase mapping. *)
Lemma lowercase_delta_surrogate (c : Z) :
  0xD800 <= c <= 0xDFFF -> lowercase_delta c = None.
Proof.
  intros Hc. unfold lowercase_delta.
  destruct (find (in_progression c) lowercase_ranges) as [[[[first last] step] d] |] eqn:F;
    [| reflexivity].
  exfalso. apply find_some in F. destruct F as [Hin Hp].
  assert (Hall : forallb (fun r => let '(f, l, _, _) := r in (l <? 0xD800) || (0xDFFF <? f))
                         lowercase_ranges = true) by (vm_compute; reflexivity).
  rewrite forallb_forall in Hall. specialize (Hall _ Hin). cbn in Hall.
  unfold in_progression in Hp.
  apply andb_true_iff in Hp. destruct Hp as [Hp _].
  apply andb_true_iff in Hp. destruct Hp as [Hlo Hhi].
  apply Z.leb_le in Hlo, Hhi.
  apply orb_true_iff in Hall. destruct Hall as [H | H]; apply Z.ltb_lt in H; lia.
Qed.

Lemma to_lower_of_fixed (d : Z) :
  lowercase_fixed d = true -> (d =? 0x3A3) = false /\ to_lower d = [d].
Proof.
  unfold lowercase_fixed, to_lower. intros H.
  apply andb_true_iff in H. destruct H as [H Hd].
  apply andb_true_iff in H. destruct H as [H1 H2].
  apply negb_true_iff in H1, H2. rewrite H2.
  split; [assumption |].
  destruct (lowercase_delta d); [discriminate | reflexivity].
Qed.

Lemma to_lower_fixed (c : Z) :
  (c =? 0x3A3) = false -> Forall (fun d => lowercase_fixed d = true) (to_lower c).
Proof.
  intros Hs. unfold to_lower.
  destruct (c =? 0x130) eqn:E130.
  - repeat constructor; vm_compute; reflexivity.
  - destruct (lowercase_delta c) as [delta |] eqn:E.
    + constructor; [| constructor]. apply (lowercase_image _ _ E).
    + constructor; [| constructor]. unfold lowercase_fixed.
      rewrite Hs, E130, E. reflexivity.
Qed.

Lemma to_lower_scalar (c : Z) :
  scalar c -> exists d ds, to_lower c = d :: ds /\ Forall scalar (d :: ds).
Proof.
  intros Hc. unfold to_lower.
  destruct (c =? 0x130).
  - exists 0x69, [0x307]. split; [reflexivity |].
    repeat constructor; unfold scalar; lia.
  - destruct (lowercase_delta c) as [delta |] eqn:E.
    + exists (c + delta), []. split; [reflexivity |].
      constructor; [apply (lowercase_image _ _ E) | constructor].
    + exists c, []. split; [reflexivity |]. constructor; [assumption | constructor].
Qed.

Lemma to_lower_escape (c : Z) :
  escape c = true -> (c =? 0x3A3) = false /\ to_lower c = [c].
Proof.
  unfold escape. intros H. apply andb_true_iff in H. destruct H as [H1 H2].
  apply Z.leb_le in H1, H2.
  split; [apply Z.eqb_neq; lia |].
  unfold to_lower. destruct (Z.eqb_spec c 0x130); [lia |].
  rewrite lowercase_delta_surrogate by lia. reflexivity.
Qed.

(** *** The loop of [str.lower] *)

Lemma sigma_fixed (b : bool) : lowercase_fixed (if b then 0x3C2 else 0x3C3) = true.
Proof. destruct b; vm_compute; reflexivity. Qed.

Lemma lower_loop_fixed (u : list Z) :
  forall before, Forall (fun d => lowercase_fixed d = true) (lower_loop before u).
Proof.
  induction u as [| c u IH]; intros before; [constructor |].
  cbn [lower_loop]. apply Forall_app. split; [| apply IH].
  destruct (c =? 0x3A3) eqn:E.
  - constructor; [apply sigma_fixed | constructor].
  - apply to_lower_fixed. assumption.
Qed.

Lemma lower_loop_of_fixed (v : list Z) :
  Forall (fun d => lowercase_fixed d = true) v ->
  forall before, lower_loop before v = v.
Proof.
  induction 1 as [| d v Hd _ IH]; intros before; [reflexivity |].
  cbn [lower_loop]. destruct (to_lower_of_fixed _ Hd) as [-> ->].
  cbn [app]. f_equal. apply IH.
Qed.

Lemma lower_loop_decoded (u : list Z) :
  Forall decoded_code_point u ->
  forall before, Forall decoded_code_point (lower_loop before u).
Proof.
  induction 1 as [| c u Hc _ IH]; intros before; [constructor |].
  cbn [lower_loop]. apply Forall_app. split; [| apply IH].
  destruct Hc as [Hc | Hc].
  - destruct (c =? 0x3A3).
    + constructor; [| constructor]. left.
      destruct (final_sigma before u); unfold scalar; lia.
    + destruct (to_lower_scalar _ Hc) as [d [ds [-> Hs]]].
      eapply Forall_impl; [| exact Hs]. intros a Ha. left. assumption.
  - destruct (to_lower_escape _ Hc) as [-> ->].
    constructor; [right; assumption | constructor].
Qed.

(** The output of the loop for one scalar value: not empty, scalar values. *)
Lemma lower_step_scalar (c : Z) (before rest : list Z) :
  scalar c ->
  exists d ds,
    (if c =? 0x3A3 then [if final_sigma before rest then 0x3C2 else 0x3C3]
     else to_lower c) = d :: ds
    /\ Forall scalar (d :: ds).
Proof.
  intros Hc. destruct (c =? 0x3A3).
  - eexists. exists []. split; [reflexivity |].
    constructor; [| constructor].
    destruct (final_sigma before rest); unfold scalar; lia.
  - apply to_lower_scalar. assumption.
Qed.

Lemma lower_loop_prefix (u : list Z) :
  Forall decoded_code_point u ->
  forall before,
    continuation_prefix (utf8_encode (lower_loop before u))
    = continuation_prefix (utf8_encode u).
Proof.
  induction 1 as [| c u Hc _ IH]; intros before; [reflexivity |].
  cbn [lower_loop]. destruct Hc as [Hc | Hc].
  - destruct (lower_step_scalar c before u Hc) as [d [ds [-> Hs]]].
    inversion Hs as [| ? ? Hd _]; subst.
    cbn [app utf8_encode flat_map].
    rewrite (scalar_starts_sequence d) by assumption.
    rewrite (scalar_starts_sequence c) by assumption. reflexivity.
  - destruct (to_lower_escape _ Hc) as [-> ->].
    cbn [app utf8_encode flat_map].
    fold (utf8_encode (lower_loop (c :: before) u)). fold (utf8_encode u).
    rewrite (utf8_encode_one_escape _ Hc). cbn [app continuation_prefix].
    rewrite IH. reflexivity.
Qed.

Lemma canonical_scalars (ps v : list Z) :
  Forall scalar ps -> canonical v -> canonical (ps ++ v).
Proof.
  induction 1 as [| p ps Hp _ IH]; intros Hv; [assumption |].
  cbn [app canonical]. split; [| apply IH; assumption].
  rewrite (scalar_not_escape _ Hp). discriminate.
Qed.

Lemma lower_loop_canonical (u : list Z) :
  Forall decoded_code_point u -> canonical u ->
  forall before, canonical (lower_loop before u).
Proof.
  induction 1 as [| c u Hc Hu IH]; intros Hcan before; [exact I |].
  cbn [canonical] in Hcan. destruct Hcan as [Hhead Hcan].
  cbn [lower_loop]. destruct Hc as [Hc | Hc].
  - destruct (lower_step_scalar c before u Hc) as [d [ds [-> Hs]]].
    apply canonical_scalars; [assumption | apply IH; assumption].
  - destruct (to_lower_escape _ Hc) as [-> ->].
    cbn [app canonical]. split; [| apply IH; assumption].
    intros _.
    assert (Hb : 0x80 <= c - 0xDC00).
    { unfold escape in Hc. apply andb_true_iff in Hc. destruct Hc as [H1 _].
      apply Z.leb_le in H1. lia. }
    apply (proj2 (utf8_head_continuation _ _ Hb)).
    rewrite (lower_loop_prefix _ Hu).
    apply (proj1 (utf8_head_continuation _ _ Hb)). apply Hhead. assumption.
Qed.

(** Lower-casing twice is lower-casing once. *)
Lemma lower_idem (s : string) : lower (lower s) = lower s.
Proof.
  unfold lower.
  destruct (utf8_decode_spec _ (codes s) (le_n _) (codes_bytes s)) as [Hg [_ Hcan]].
  set (t := utf8_decode (codes s)) in *.
  pose proof (lower_loop_decoded t Hg []) as Hg'.
  pose proof (lower_loop_canonical t Hg Hcan []) as Hcan'.
  rewrite codes_chars by (apply utf8_encode_bytes; assumption).
  rewrite (utf8_decode_encode _ Hg' Hcan').
  rewrite (lower_loop_of_fixed _ (lower_loop_fixed t [])).
  reflexivity.
Qed.

End Lower.

(** X19.  The codec name is always in lower case: whatever
    [get_file_codec] returns is unchanged by [lower], whether it comes
    from the extension, from Pillow, from PyAV or is the empty string. *)
Theorem get_file_codec_lowercase (file : File) (ext : option string) (c : string) :
  get_file_codec file ext = Ok c -> lower c = c.
Proof.
  unfold get_file_codec. cbv zeta.
  destruct (ext_in (resolve_ext file ext) [".tgs"; ".lottie"; ".json"]%string) eqn:Evec.
  - unfold ext_in in Evec. cbn [existsb] in Evec.
    destruct (String.eqb_spec (resolve_ext file ext) ".tgs") as [-> |];
      [intros [= <-]; reflexivity |].
    destruct (String.eqb_spec (resolve_ext file ext) ".lottie") as [-> |];
      [intros [= <-]; reflexivity |].
    destruct (String.eqb_spec (resolve_ext file ext) ".json") as [-> |];
      [intros [= <-]; reflexivity | discriminate].
  - assert (Hav : forall c,
               match av_open file with
               | Ok container =>
                   stream <- getitem (streams_video container) 0 ;;
                   Ok (lower (codec_name stream))
               | Raise InvalidDataError => Ok ""%string
               | Raise e => Raise e
               end = Ok c -> lower c = c).
    { intros c'. destruct (av_open file) as [container | e].
      - destruct (getitem (streams_video container) 0) as [stream | e]; [| discriminate].
        cbn [bind]. intros [= <-]. apply lower_idem.
      - destruct e; try discriminate. intros [= <-]. reflexivity. }
    destruct (Image_open file) as [im | e].
    + cbn [bind]. destruct (format im) as [fmt |]; [| apply Hav].
      destruct (String.eqb fmt "PNG").
      * destruct (match is_animated_attr im with Some a => a | None => false end);
          intros [= <-]; reflexivity.
      * intros [= <-]. apply lower_idem.
    + destruct e; try discriminate. cbn [bind]. apply Hav.
Qed.

Lemma get_file_codec_lowercase_witness :
  get_file_codec (pillow_file ".gif" "GIF" [None]) None = Ok "gif"%string
  /\ lower "gif" = "gif"%string.
Proof.
  assert (E : get_file_codec (pillow_file ".gif" "GIF" [None]) None = Ok "gif"%string)
    by (vm_compute; reflexivity).
  split; [exact E | exact (get_file_codec_lowercase _ _ _ E)].
Defined.

(** X20.  Which failures [get_file_codec] absorbs (for an extension other
    than .tgs, .lottie, .json).  A file Pillow does not identify and PyAV
    calls invalid gives the empty string; any other failure of either
    library is raised.  When Pillow names a format PyAV is not consulted:
    the answer is the lower-cased format, except that ["PNG"] becomes
    ["apng"] or ["png"] by the [is_animated] attribute. *)
Theorem get_file_codec_fallbacks (file : File) (ext : option string) :
  ext_in (resolve_ext file ext) [".tgs"; ".lottie"; ".json"]%string = false ->
  (Image_open file = Raise UnidentifiedImageError ->
   av_open file = Raise InvalidDataError ->
   get_file_codec file ext = Ok ""%string)
  /\ (forall e, Image_open file = Raise e -> e <> UnidentifiedImageError ->
        get_file_codec file ext = Raise e)
  /\ (forall e, Image_open file = Raise UnidentifiedImageError ->
        av_open file = Raise e -> e <> InvalidDataError ->
        get_file_codec file ext = Raise e)
  /\ (forall im c, Image_open file = Ok im -> format im = Some c ->
        get_file_codec file ext =
          Ok (if String.eqb c "PNG"
              then (if match is_animated_attr im with Some a => a | None => false end
                    then "apng" else "png")%string
              else lower c)).
Proof.
  intros Hvec. unfold get_file_codec. cbv zeta. rewrite Hvec.
  split; [| split; [| split]].
  - intros -> ->. reflexivity.
  - intros e -> He. destruct e; try reflexivity. contradiction.
  - intros e -> -> He. cbn [bind]. destruct e; try reflexivity. contradiction.
  - intros im c -> Hc. cbn [bind]. rewrite Hc.
    destruct (String.eqb c "PNG"); reflexivity.
Qed.

Lemma get_file_codec_fallbacks_witness :
  get_file_codec unreadable_video None = Ok ""%string
  /\ get_file_codec slow_apng None = Ok "apng"%string.
Proof.
  split.
  - apply (get_file_codec_fallbacks unreadable_video None); reflexivity.
  - destruct (get_file_codec_fallbacks slow_apng None eq_refl) as [_ [_ [_ H]]].
    exact (H _ "PNG"%string eq_refl eq_refl).
Defined.

(** X21.  The constructor does not dispatch on its [file_ext] argument.
    Two constructions of the same file with different overrides succeed
    or fail together (with the same exception) and agree on fps, frames,
    duration, codec, resolution and [is_animated]; the override is only
    stored in the [file_ext] attribute. *)
Theorem CodecInfo_ignores_override (file : File) (e1 e2 : option string) :
  match CodecInfo_init file e1, CodecInfo_init file e2 with
  | Ok c1, Ok c2 =>
      fps c1 = fps c2 /\ frames c1 = frames c2 /\ duration c1 = duration c2
      /\ codec c1 = codec c2 /\ res c1 = res c2 /\ is_animated c1 = is_animated c2
      /\ file_ext c1 = match e1 with Some e => e | None => get_file_ext file end
  | Raise x, Raise y => x = y
  | _, _ => False
  end.
Proof.
  unfold CodecInfo_init.
  destruct (get_file_fps_frames_duration file None) as [[[f n] d] | e]; [| reflexivity].
  cbn [bind].
  destruct (get_file_codec file None) as [c | e]; [| reflexivity].
  cbn [bind].
  destruct (get_file_res file None) as [r | e]; [| reflexivity].
  cbn [bind fps frames duration codec res is_animated file_ext].
  repeat split; reflexivity.
Qed.

(** X22.  Without an override the name of the file matters only through
    its lower-cased suffix: two names whose suffixes are equal after
    [str.lower] (the Unicode lower-casing: [.GIF] and [.gif], and also
    [.ÄXT] and [.äxt]) get the same answer from every query and from the
    constructor; and the extension derived from a path is always in lower
    case: lower-casing it again changes nothing. *)
Theorem suffix_case_insensitive (file : File) (s s' : string) :
  lower s = lower s' ->
  get_file_fps_frames_duration (with_suffix file s) None
    = get_file_fps_frames_duration (with_suffix file s') None
  /\ get_file_fps (with_suffix file s) None = get_file_fps (with_suffix file s') None
  /\ (forall check_anim,
        get_file_frames (with_suffix file s) None check_anim
        = get_file_frames (with_suffix file s') None check_anim)
  /\ get_file_duration (with_suffix file s) None
     = get_file_duration (with_suffix file s') None
  /\ get_file_codec (with_suffix file s) None = get_file_codec (with_suffix file s') None
  /\ get_file_res (with_suffix file s) None = get_file_res (with_suffix file s') None
  /\ is_anim (with_suffix file s) = is_anim (with_suffix file s')
  /\ CodecInfo_init (with_suffix file s) None = CodecInfo_init (with_suffix file s') None
  /\ lower (get_file_ext (with_suffix file s)) = get_file_ext (with_suffix file s).
Proof.
  intros H.
  assert (Hext : get_file_ext (with_suffix file s) = get_file_ext (with_suffix file s'))
    by exact H.
  assert (E1 : get_file_fps_frames_duration (with_suffix file s) None
               = get_file_fps_frames_duration (with_suffix file s') None).
  { unfold get_file_fps_frames_duration. cbn [resolve_ext]. rewrite Hext. reflexivity. }
  assert (E2 : forall c, get_file_frames (with_suffix file s) None c
                         = get_file_frames (with_suffix file s') None c).
  { intros c. unfold get_file_frames. cbn [resolve_ext]. rewrite Hext. reflexivity. }
  assert (E3 : get_file_codec (with_suffix file s) None
               = get_file_codec (with_suffix file s') None).
  { unfold get_file_codec. cbn [resolve_ext]. rewrite Hext. reflexivity. }
  assert (E4 : get_file_res (with_suffix file s) None
               = get_file_res (with_suffix file s') None).
  { unfold get_file_res. cbn [resolve_ext]. rewrite Hext. reflexivity. }
  split; [exact E1 |].
  split; [unfold get_file_fps; cbn [resolve_ext]; rewrite Hext; reflexivity |].
  split; [exact E2 |].
  split; [unfold get_file_duration; cbn [resolve_ext]; rewrite Hext; reflexivity |].
  split; [exact E3 |]. split; [exact E4 |].
  split; [unfold is_anim; rewrite E2; reflexivity |].
  split; [unfold CodecInfo_init; rewrite E1, E3, E4, Hext; reflexivity |].
  apply lower_idem.
Qed.

Lemma suffix_case_insensitive_witness :
  get_file_fps_frames_duration (with_suffix webp_mixed ".WebP") None
  = get_file_fps_frames_duration (with_suffix webp_mixed ".webp") None
  /\ get_file_codec (with_suffix webp_mixed ".ÄXT") None
     = get_file_codec (with_suffix webp_mixed ".äxt") None
  /\ get_file_ext (with_suffix webp_mixed ".ÄXT") = ".äxt"%string.
Proof.
  split; [exact (proj1 (suffix_case_insensitive webp_mixed ".WebP" ".webp" eq_refl)) |].
  split; [| vm_compute; reflexivity].
  refine (proj1 (proj2 (proj2 (proj2 (proj2
            (suffix_case_insensitive webp_mixed ".ÄXT" ".äxt" _)))))).
  vm_compute. reflexivity.
Defined.

(** * Further properties of [durations_gcd] and of the WebP result *)

Lemma gcd_star_non_int (args : list pyval) :
  Exists (fun i => isinstance_int i = false) args ->
  gcd_star args = Raise TypeError.
Proof.
  unfold gcd_star.
  induction 1 as [i rest Hi | i rest _ IH]; cbn [mapM].
  - destruct i; [discriminate | reflexivity | reflexivity].
  - destruct (as_int i) as [z | e] eqn:E.
    + cbn [bind]. destruct (mapM as_int rest); [discriminate |].
      cbn [bind] in *. assumption.
    + destruct i; try discriminate; cbn in E; injection E as <-; reflexivity.
Qed.

(** X23.  The float test of [durations_gcd] only notices a float that is
    not zero.  When no sample is a non-zero float but some sample is not an
    int (a float 0.0, say), the integer branch is taken and [gcd], which
    accepts ints only, raises [TypeError]. *)
Theorem durations_gcd_zero_float (durations : list pyval) :
  any_float durations = false ->
  Exists (fun i => isinstance_int i = false) durations ->
  durations_gcd durations = Raise TypeError.
Proof.
  intros Hany Hex. unfold durations_gcd. rewrite Hany.
  rewrite (gcd_star_non_int _ Hex). reflexivity.
Qed.

Lemma durations_gcd_zero_float_witness :
  durations_gcd [PFloat 0; PInt 40] = Raise TypeError.
Proof.
  apply durations_gcd_zero_float.
  - vm_compute. reflexivity.
  - constructor. reflexivity.
Defined.

Lemma sum_of_zero_all (fds : list Z) :
  Forall (fun d => 0 <= d) fds -> sum_of fds = 0 -> Forall (fun d => d = 0) fds.
Proof.
  induction 1 as [| d fds Hd Hall IH]; intros Hs; [constructor |].
  cbn [sum_of fold_right] in Hs. fold (sum_of fds) in Hs.
  assert (Hn : 0 <= sum_of fds).
  { clear -Hall. induction Hall as [| x l Hx _ IH]; cbn; [lia |].
    fold (sum_of l). lia. }
  constructor; [lia | apply IH; lia].
Qed.

(** X24.  The shape of every result of the WebP strategy, in terms of the
    durations the scan decodes ([frame_durations]: one for each marker the
    scan meets; a marker lying within the 24 bytes the scan takes for the
    previous one is passed over).  The frame count is at least 1.  A count
    of 1 means the scan decoded at most one duration, and comes with fps
    0.0 and duration 0.  A count of 2 or more is the number of durations
    decoded and comes with their sum, which is then strictly positive:
    when two or more durations are decoded and all are 0, there is no
    result. *)
Theorem webp_result_shape (file : File) (f : pyval) (n : Z) (d : pyval) :
  _get_file_fps_frames_duration_webp file = Ok (f, n, d) ->
  exists fds,
    frame_durations (content file) = Ok fds
    /\ 1 <= n
    /\ (n = 1 -> (List.length fds <= 1)%nat /\ f = PFloat zero /\ d = PInt 0)
    /\ (2 <= n ->
        n = Z.of_nat (List.length fds) /\ d = PInt (sum_of fds) /\ 0 < sum_of fds).
Proof.
  intros Hw.
  destruct (frame_durations (content file)) as [fds | e] eqn:Efd.
  - exists fds. split; [reflexivity |].
    pose proof (frame_durations_bound _ _ Efd) as Hb.
    destruct (Nat.le_gt_cases (List.length fds) 1) as [Hle | Hgt].
    + rewrite (webp_few_chunks file fds Efd Hle) in Hw.
      injection Hw as <- <- <-.
      split; [lia |]. split; [intros _; repeat split; assumption | lia].
    + assert (H2 : (2 <= List.length fds)%nat) by lia.
      assert (Hnonneg : Forall (fun d => 0 <= d) fds).
      { eapply Forall_impl; [| exact Hb]. cbn. intros; lia. }
      assert (Hpos : 0 < sum_of fds).
      { destruct (Z.eq_dec (sum_of fds) 0) as [E0 | Hne].
        - pose proof (sum_of_zero_all _ Hnonneg E0) as Hz.
          rewrite (webp_all_zero_durations_raise file fds Efd H2 Hz) in Hw.
          discriminate.
        - pose proof (sum_of_bound fds _ Hb). lia. }
      rewrite (webp_of_frame_durations file fds Efd H2) in Hw.
      match type of Hw with
      | bind ?r _ = _ => destruct r as [fps | e]; [| discriminate]
      end.
      cbn [bind] in Hw. injection Hw as <- <- <-.
      split; [lia |]. split; [lia |].
      intros _. repeat split. assumption.
  - exfalso. unfold _get_file_fps_frames_duration_webp in Hw.
    rewrite anmf_scan_frame_durations, Efd in Hw. discriminate.
Qed.

Lemma webp_result_shape_witness :
  _get_file_fps_frames_duration_webp webp_mixed = Ok (PFloat 50, 3, PInt 180)
  /\ exists fds, frame_durations (content webp_mixed) = Ok fds
                 /\ 3 = Z.of_nat (List.length fds) /\ 0 < sum_of fds.
Proof.
  assert (E : _get_file_fps_frames_duration_webp webp_mixed = Ok (PFloat 50, 3, PInt 180))
    by (vm_compute; reflexivity).
  split; [exact E |].
  destruct (webp_result_shape _ _ _ _ E) as [fds [Hf [_ [_ H]]]].
  destruct (H ltac:(lia)) as [Hn [_ Hs]].
  exists fds. repeat split; assumption.
Defined.

(** * The size of a scanned file and the reach of a bounded decode *)

Lemma mm_find_at_end (data : list byte) (pos : nat) :
  (List.length data <= pos)%nat -> mm_find data pos ANMF = None.
Proof.
  intros H. unfold mm_find. rewrite skipn_all2 by assumption. reflexivity.
Qed.

Lemma frame_durations_loop_size (data : list byte) :
  forall fuel pos fds,
    frame_durations_loop fuel data pos = Some (Ok fds) ->
    (pos <= List.length data)%nat ->
    (24 * List.length fds + pos <= List.length data + 3)%nat.
Proof.
  induction fuel as [| fuel IH]; intros pos fds H Hpos; [discriminate |].
  cbn [frame_durations_loop] in H.
  destruct (mm_find data pos ANMF) as [anmf_pos |] eqn:Efind.
  - pose proof (find_at_ge _ _ _ _ Efind) as Hge.
    unfold mm_seek in H.
    destruct (Nat.ltb_spec (List.length data) (anmf_pos + 20)) as [| Hseek];
      [discriminate |].
    destruct (frame_duration_of (mm_read data (anmf_pos + 20) 4)) as [d | e] eqn:Ed;
      [| discriminate].
    assert (Hread : (1 <= List.length (mm_read data (anmf_pos + 20) 4))%nat).
    { destruct (mm_read data (anmf_pos + 20) 4); [discriminate | cbn; lia]. }
    assert (Hlen : List.length (mm_read data (anmf_pos + 20) 4)
                   = Nat.min 4 (List.length data - (anmf_pos + 20))).
    { unfold mm_read. rewrite length_firstn, length_skipn. reflexivity. }
    destruct (frame_durations_loop fuel data _) as [[ds | e] |] eqn:El;
      try discriminate.
    injection H as <-.
    apply IH in El; [| lia].
    cbn [List.length]. lia.
  - injection H as <-. cbn [List.length]. lia.
Qed.

(** X25.  The scan never counts more frames than fit into the file: each
    counted frame accounts for 24 bytes of its own (the marker, the 16
    bytes skipped and the 4 bytes read; the last read may be cut short by
    up to 3 bytes), so [24 * frames <= size + 3]. *)
Theorem anmf_scan_frames_bounded_by_size (data : list byte) (st : scan) :
  anmf_scan data = Ok st ->
  0 <= scan_frames st
  /\ 24 * scan_frames st <= Z.of_nat (List.length data) + 3.
Proof.
  rewrite anmf_scan_frame_durations.
  destruct (frame_durations data) as [fds | e] eqn:E; [| discriminate].
  cbn [bind]. intros [= <-]. rewrite scan_of_frames.
  unfold frame_durations in E. destruct data as [| b data]; [discriminate |].
  destruct (frame_durations_loop _ _ _) as [r |] eqn:El.
  - subst r. apply frame_durations_loop_size in El; lia.
  - injection E as <-. cbn [List.length]. lia.
Qed.

Lemma anmf_scan_frames_bounded_by_size_witness :
  anmf_scan (content webp_mixed) = Ok (mkScan 180 3 [40; 100])
  /\ 24 * 3 <= Z.of_nat (List.length (content webp_mixed)) + 3.
Proof.
  assert (E : anmf_scan (content webp_mixed) = Ok (mkScan 180 3 [40; 100]))
    by (vm_compute; reflexivity).
  split; [exact E |].
  exact (proj2 (anmf_scan_frames_bounded_by_size _ _ E)).
Defined.

(** X26.  A bounded decode does not depend on what lies beyond its bound:
    with [frames_to_iterate = k >= 0] the loop gives the same frame count
    and the same last frame on the whole stream as on its first [k + 1]
    frames, so the animation check ([k = 2]) looks at three frames at most
    and the frame-rate estimate ([k = 10]) at eleven. *)
Theorem decode_loop_reach (k : Z) (frames : list VideoFrame) :
  0 <= k ->
  decode_loop (Some k) frames 0 0 None
  = decode_loop (Some k) (firstn (S (Z.to_nat k)) frames) 0 0 None.
Proof.
  intros Hk. rewrite !decode_loop_bounded by assumption.
  rewrite Z.sub_0_r, firstn_firstn.
  replace (Nat.min (Z.to_nat k) (S (Z.to_nat k))) with (Z.to_nat k) by lia.
  f_equal.
  destruct frames as [| f rest]; [reflexivity |].
  cbn [firstn]. cbn [List.length]. rewrite length_firstn. lia.
Qed.

Lemma decode_loop_reach_witness :
  decode_loop (Some 2) (frames_40ms 5) 0 0 None
  = decode_loop (Some 2) (firstn 3 (frames_40ms 5)) 0 0 None
  /\ fst (decode_loop (Some 2) (frames_40ms 5) 0 0 None) = 2.
Proof.
  split; [exact (decode_loop_reach 2 (frames_40ms 5) ltac:(lia)) | reflexivity].
Defined.
